(** * Insight-Bridge: the ingestion orchestration core

    A shallow embedding of [src/services/ai.service.ts] (rate limiter,
    retry executor, enricher) and of the two versions of
    [ingestion.service.ts] (the batch pipeline), with the properties of
    the specification stated and settled against them.

    Conventions of the embedding.
    - Time is an integer number of milliseconds ([Date.now()]); the clock
      of the model advances across [sleep] only.
    - A JavaScript string is a [string]: one [ascii] stands for one code
      unit, so [String.length] is [text.length].
    - An [async] method is a function of the state-and-exception monad
      [M]; [await] is bind, [throw] is [throw], [try/catch] is [tryCatch].
      Such a function is the method run for one request, from its first
      statement to its last, with no code of another request in
      between.  What calls of the rate limiter made for different
      requests do to the shared budget when they interleave at its
      [await]s is modelled apart, by the steps of a [Pool].
    - Calls of [logger] have no effect on the state and are left out.
    - The collaborators (Gemini, GNews, PostgreSQL) answer through the
      oracles of an environment [Env]; every action they see is appended
      to the [trace] of the world. *)

From Stdlib Require Import ZArith List String Ascii Bool Lia DecimalString.
From Stdlib Require Import Floats.PrimFloat.
From Stdlib Require Import DecimalNat.
Import ListNotations.

Open Scope string_scope.
Open Scope Z_scope.

(** ** Strings *)

(** [s.includes(sub)]. *)
Fixpoint includes (s sub : string) : bool :=
  if String.prefix sub s then true
  else match s with
       | EmptyString => false
       | String _ t => includes t sub
       end.

(** Template-literal rendering of an integer and of an array length. *)
Definition string_of_Z (z : Z) : string := NilZero.string_of_int (Z.to_int z).
Definition string_of_nat (n : nat) : string := NilZero.string_of_uint (Nat.to_uint n).

Definition newline : string := String (ascii_of_nat 10) EmptyString.

(** The white space and line terminators that [String.prototype.trim]
    and [parseInt] remove, among the code units an [ascii] can hold
    (0 to 255): TAB, LF, VT, FF, CR, SP and the no-break space U+00A0. *)
Definition is_space (c : ascii) : bool :=
  let n := nat_of_ascii c in
  ((9 <=? n) && (n <=? 13))%nat || (n =? 32)%nat || (n =? 160)%nat.

Fixpoint trimStart (s : string) : string :=
  match s with
  | String c t => if is_space c then trimStart t else s
  | EmptyString => EmptyString
  end.

Fixpoint trimEnd (s : string) : string :=
  match s with
  | EmptyString => EmptyString
  | String c t =>
      match trimEnd t with
      | EmptyString => if is_space c then EmptyString else String c EmptyString
      | t' => String c t'
      end
  end.

Definition trim (s : string) : string := trimEnd (trimStart s).

(** A JavaScript [number]. *)
Definition number : Type := float.

(** ** Thrown values *)

(** What a [catch] clause reads of the value it caught: [error.message],
    [error.status] (set by the Gemini client on an HTTP failure),
    the delay of the [RetryInfo] entry of [error.errorDetails] already
    converted to milliseconds ([seconds * 1000]), and whether the value
    is an [instanceof Error]. *)
Record JsError : Type := mkJsError {
  message : string;
  status : option Z;
  retryInfoDelay : option Z;
  instanceofError : bool
}.

(** [new Error(msg)]. *)
Definition newError (msg : string) : JsError :=
  {| message := msg; status := None; retryInfoDelay := None; instanceofError := true |}.

Definition status_is (e : JsError) (code : Z) : bool :=
  match status e with
  | Some s => s =? code
  | None => false
  end.

Inductive Res (A : Type) : Type :=
| Ok (a : A)
| Throw (e : JsError).
Arguments Ok {A} a.
Arguments Throw {A} e.

(** ** Data *)

(** [NewsArticle] of [news.service.ts]. *)
Record NewsArticle : Type := mkNewsArticle {
  na_title : string;
  na_description : string;
  na_content : string;
  na_url : string;
  na_image : option string;
  na_publishedAt : string;
  na_source_name : string
}.

(** The argument of [ArticlesRepository.create]. *)
Record CreateInput : Type := mkCreateInput {
  ci_title : string;
  ci_summary : string;
  ci_url : string;
  ci_publishedAt : string;
  ci_embedding : list number;
  ci_source : option string;
  ci_category : option string;
  ci_image : option string
}.

(** A row of [news_articles]. *)
Record Row : Type := mkRow {
  title : string;
  content_summary : string;
  url : string;
  published_at : string;
  embedding : list number;
  source : option string;
  category : option string;
  image : option string
}.

(** The fields of [AIService] that hold the rate budget. *)
Record RateBudget : Type := mkRateBudget {
  requestCount : Z;
  requestResetTime : Z;
  lastRequestTime : Z;
  dailyRequestCount : Z;
  dailyResetTime : Z
}.

Definition MAX_REQUESTS_PER_MINUTE : Z := 10.
Definition MIN_REQUEST_INTERVAL : Z := 6000.

(** What the collaborators are asked to do, in the order it happens. *)
Inductive Event : Type :=
| EvSleep (ms : Z)
| EvGenerateContent (prompt : string)
| EvEmbedContent (text : string)
| EvFetchNews (category : string) (max : Z)
| EvSearchNews (query : string) (max : Z)
| EvExistsByUrl (u : string)
| EvInsert (r : Row).

Record World : Type := mkWorld {
  clock : Z;
  budget : RateBudget;
  table : list Row;
  aiCalls : nat;
  dbCalls : nat;
  trace : list Event
}.

(** The answers of the collaborators.  The [n]-th call of the Gemini
    client and the [n]-th query of the database are answered by the
    oracle at index [n]. *)
Record Env : Type := mkEnv {
  generateContent : nat -> string -> Res string;
  embedContent : nat -> string -> Res (option (list number));
  topHeadlines : string -> Z -> option (list NewsArticle);
  searchResults : string -> Z -> option (list NewsArticle);
  queryFault : nat -> option JsError
}.

(** ** The monad of [async] methods *)

Definition M (A : Type) : Type := World -> Res A * World.

Definition ret {A} (a : A) : M A := fun w => (Ok a, w).

Definition throw {A} (e : JsError) : M A := fun w => (Throw e, w).

Definition bind {A B} (m : M A) (k : A -> M B) : M B :=
  fun w =>
    match m w with
    | (Ok a, w') => k a w'
    | (Throw e, w') => (Throw e, w')
    end.

Definition tryCatch {A} (m : M A) (handler : JsError -> M A) : M A :=
  fun w =>
    match m w with
    | (Ok a, w') => (Ok a, w')
    | (Throw e, w') => handler e w'
    end.

Declare Scope js_scope.
Delimit Scope js_scope with js.
Notation "x <- m ;; k" := (bind m (fun x => k))
  (at level 100, m at next level, right associativity) : js_scope.
Notation "m ;;; k" := (bind m (fun _ => k))
  (at level 100, right associativity) : js_scope.
Open Scope js_scope.

Definition get : M World := fun w => (Ok w, w).
Definition modify (f : World -> World) : M unit := fun w => (Ok tt, f w).

Definition set_clock (t : Z) (w : World) : World :=
  mkWorld t (budget w) (table w) (aiCalls w) (dbCalls w) (trace w).
Definition set_budget (b : RateBudget) (w : World) : World :=
  mkWorld (clock w) b (table w) (aiCalls w) (dbCalls w) (trace w).
Definition set_table (t : list Row) (w : World) : World :=
  mkWorld (clock w) (budget w) t (aiCalls w) (dbCalls w) (trace w).
Definition bump_aiCalls (w : World) : World :=
  mkWorld (clock w) (budget w) (table w) (S (aiCalls w)) (dbCalls w) (trace w).
Definition bump_dbCalls (w : World) : World :=
  mkWorld (clock w) (budget w) (table w) (aiCalls w) (S (dbCalls w)) (trace w).
Definition log (ev : Event) (w : World) : World :=
  mkWorld (clock w) (budget w) (table w) (aiCalls w) (dbCalls w) (trace w ++ [ev]).

(** [Date.now()]. *)
Definition now : M Z := fun w => (Ok (clock w), w).

(** [sleep(ms)]: the timer fires [ms] milliseconds later (at once when
    [ms] is not positive).  Node's [setTimeout] cuts a delay above
    2^31 - 1 ms down to 1 ms; the model is meant for the delays below
    that, as the call sites produce them: 2000 ms, the backoffs of 3000
    and 6000 ms or what a 429 answer suggests, the minimum interval and
    the rest of a minute window. *)
Definition sleep (ms : Z) : M unit :=
  modify (fun w => log (EvSleep ms) (set_clock (clock w + Z.max 0 ms) w)).

(** ** RateLimiter: [AIService.waitForRateLimit]

    The method as one call runs it when no other call of it is in
    flight; [enter] and [resume] further down are its stretches between
    the [await]s, and [callAlone] is proved to be this function. *)

Definition quotaExhaustedMessage : string :=
  "Daily API quota exhausted. Please try again in 24 hours.".

Definition set_requestCount (n : Z) (b : RateBudget) : RateBudget :=
  mkRateBudget n (requestResetTime b) (lastRequestTime b) (dailyRequestCount b) (dailyResetTime b).
Definition set_requestResetTime (t : Z) (b : RateBudget) : RateBudget :=
  mkRateBudget (requestCount b) t (lastRequestTime b) (dailyRequestCount b) (dailyResetTime b).
Definition set_lastRequestTime (t : Z) (b : RateBudget) : RateBudget :=
  mkRateBudget (requestCount b) (requestResetTime b) t (dailyRequestCount b) (dailyResetTime b).
Definition set_dailyRequestCount (n : Z) (b : RateBudget) : RateBudget :=
  mkRateBudget (requestCount b) (requestResetTime b) (lastRequestTime b) n (dailyResetTime b).
Definition set_dailyResetTime (t : Z) (b : RateBudget) : RateBudget :=
  mkRateBudget (requestCount b) (requestResetTime b) (lastRequestTime b) (dailyRequestCount b) t.

Definition update_budget (f : RateBudget -> RateBudget) : M unit :=
  modify (fun w => set_budget (f (budget w)) w).

Definition read_budget {A} (f : RateBudget -> A) : M A :=
  fun w => (Ok (f (budget w)), w).

Definition when (c : bool) (m : M unit) : M unit := if c then m else ret tt.

Definition waitForRateLimit : M unit :=
  t <- now ;;
  (* Reset minute counter if 60s has passed *)
  resetAt <- read_budget requestResetTime ;;
  when (t >? resetAt)
    (update_budget (fun b => set_requestResetTime (t + 60000) (set_requestCount 0 b))) ;;;
  (* Reset daily counter if 24h has passed *)
  dayResetAt <- read_budget dailyResetTime ;;
  when (t >? dayResetAt)
    (update_budget (fun b => set_dailyResetTime (t + 86400000) (set_dailyRequestCount 0 b))) ;;;
  (* Check daily limit *)
  daily <- read_budget dailyRequestCount ;;
  (if daily >=? 1000 then throw (newError quotaExhaustedMessage) else ret tt) ;;;
  (* Check minute limit *)
  count <- read_budget requestCount ;;
  when (count >=? MAX_REQUESTS_PER_MINUTE)
    (resetAt' <- read_budget requestResetTime ;;
     sleep (resetAt' - t) ;;;
     t' <- now ;;
     update_budget (fun b => set_requestResetTime (t' + 60000) (set_requestCount 0 b))) ;;;
  (* Ensure minimum interval between requests *)
  last <- read_budget lastRequestTime ;;
  let timeSinceLastRequest := t - last in
  when (timeSinceLastRequest <? MIN_REQUEST_INTERVAL)
    (sleep (MIN_REQUEST_INTERVAL - timeSinceLastRequest)) ;;;
  t'' <- now ;;
  update_budget (fun b =>
    set_lastRequestTime t''
      (set_dailyRequestCount (dailyRequestCount b + 1)
         (set_requestCount (requestCount b + 1) b))).

(** [AIService.resetCounters]. *)
Definition resetCounters : M unit :=
  t <- now ;;
  update_budget (fun b => set_requestResetTime (t + 60000) (set_requestCount 0 b)).

(** ** RetryExecutor: [AIService.retryWithBackoff] *)

Definition modelNotAvailable (e : JsError) : JsError :=
  newError ("AI model not available: " ++ message e).

Definition rateLimitExceededMessage (maxRetries : Z) : string :=
  "Rate limit exceeded after " ++ string_of_Z maxRetries
    ++ " attempts. Please reduce batch size or wait.".

(** The delay of the 429 branch: [initialDelay * Math.pow(2, attempt)],
    raised to the delay the server suggests when it suggests one. *)
Definition rateLimitDelay (initialDelay attempt : Z) (e : JsError) : Z :=
  let retryDelay := initialDelay * 2 ^ attempt in
  match retryInfoDelay e with
  | Some suggested => Z.max suggested retryDelay
  | None => retryDelay
  end.

Definition backoffDelay (initialDelay attempt : Z) : Z := initialDelay * 2 ^ attempt.

(** The [for] loop, [iterations] rounds before its test fails; [attempt]
    is the loop variable. *)
Fixpoint retryLoop {T} (fn : M T) (operation : string) (maxRetries initialDelay : Z)
    (iterations : nat) (attempt : Z) (lastError : option JsError) : M T :=
  match iterations with
  | O =>
      throw (match lastError with
             | Some e => e
             | None => newError (operation ++ " failed after "
                                   ++ string_of_Z maxRetries ++ " attempts")
             end)
  | S rest =>
      tryCatch (waitForRateLimit ;;; fn)
        (fun error =>
           (* Don't retry on 404 (model not found) *)
           if status_is error 404 then throw (modelNotAvailable error)
           (* Handle rate limit (429) *)
           else if status_is error 429 then
             let retryDelay := rateLimitDelay initialDelay attempt error in
             if attempt <? maxRetries - 1 then
               sleep retryDelay ;;;
               retryLoop fn operation maxRetries initialDelay rest (attempt + 1) (Some error)
             else throw (newError (rateLimitExceededMessage maxRetries))
           (* Handle other errors with exponential backoff *)
           else if attempt <? maxRetries - 1 then
             sleep (backoffDelay initialDelay attempt) ;;;
             retryLoop fn operation maxRetries initialDelay rest (attempt + 1) (Some error)
           else throw error)
  end.

Definition retryWithBackoff {T} (fn : M T) (operation : string)
    (maxRetries initialDelay : option Z) : M T :=
  let maxRetries := match maxRetries with Some n => n | None => 3 end in
  let initialDelay := match initialDelay with Some d => d | None => 3000 end in
  retryLoop fn operation maxRetries initialDelay (Z.to_nat maxRetries) 0 None.

(** ** Enricher: [generateSummary], [generateEmbedding],
       [generateSummaryAndEmbedding] *)

Definition apiQuotaExceeded : JsError :=
  newError "API quota exceeded. Please reduce batch size or wait.".

(** The text of the article as it is put into the prompt. *)
Definition truncateForSummary (text : string) : string :=
  let maxLength := 3000 in
  if Z.of_nat (String.length text) >? maxLength
  then String.substring 0 (Z.to_nat maxLength) text ++ "..."
  else text.

Definition summaryPrompt (truncatedText : string) : string :=
  "Summarize this news article in 2-3 concise sentences:" ++ newline ++ newline
    ++ truncatedText ++ newline ++ newline ++ "Summary:".

Definition truncateForEmbedding (text : string) : string :=
  let maxLength := 2000 in
  if Z.of_nat (String.length text) >? maxLength
  then String.substring 0 (Z.to_nat maxLength) text
  else text.

(** [this.summaryModel.generateContent(prompt)] and
    [this.embeddingModel.embedContent(text)]. *)
Definition callGenerateContent (env : Env) (prompt : string) : M string :=
  fun w => (generateContent env (aiCalls w) prompt,
            log (EvGenerateContent prompt) (bump_aiCalls w)).

Definition callEmbedContent (env : Env) (text : string) : M (option (list number)) :=
  fun w => (embedContent env (aiCalls w) text,
            log (EvEmbedContent text) (bump_aiCalls w)).

Definition rethrowFrom (what : string) (error : JsError) : JsError :=
  if status_is error 429 || includes (message error) "quota"
  then apiQuotaExceeded
  else newError (what ++ " failed: " ++ message error).

Definition generateSummary (env : Env) (text : string) : M string :=
  tryCatch
    (let truncatedText := truncateForSummary text in
     retryWithBackoff
       (text' <- callGenerateContent env (summaryPrompt truncatedText) ;;
        ret (trim text'))
       "Summary generation" (Some 3) (Some 3000))
    (fun error => throw (rethrowFrom "Summary generation" error)).

Definition invalidEmbeddingDimensions (e : option (list number)) : JsError :=
  newError ("Invalid embedding dimensions: "
              ++ match e with
                 | Some v => string_of_nat (List.length v)
                 | None => "undefined"
                 end).

Definition generateEmbedding (env : Env) (text : string) : M (list number) :=
  tryCatch
    (let truncatedText := truncateForEmbedding text in
     e <- retryWithBackoff (callEmbedContent env truncatedText)
            "Embedding generation" (Some 3) (Some 3000) ;;
     match e with
     | Some v =>
         if negb (Nat.eqb (List.length v) 768)
         then throw (invalidEmbeddingDimensions e)
         else ret v
     | None => throw (invalidEmbeddingDimensions e)
     end)
    (fun error => throw (rethrowFrom "Embedding generation" error)).

Definition generateSummaryAndEmbedding (env : Env) (text : string)
    : M (string * list number) :=
  tryCatch
    (summary <- generateSummary env text ;;
     sleep 2000 ;;;
     emb <- generateEmbedding env text ;;
     ret (summary, emb))
    (fun error => throw error).

(** ** Store: [ArticlesRepository] *)

(** [query(sql, values)]: the query is counted, and fails when the
    oracle says so (connection lost, constraint violated, ...). *)
Definition query (env : Env) : M unit :=
  fun w =>
    match queryFault env (dbCalls w) with
    | Some e => (Throw e, bump_dbCalls w)
    | None => (Ok tt, bump_dbCalls w)
    end.

Definition has_url (u : string) (t : list Row) : bool :=
  existsb (fun r => String.eqb (url r) u) t.

Definition existsByUrl (env : Env) (u : string) : M bool :=
  tryCatch
    (modify (log (EvExistsByUrl u)) ;;;
     query env ;;;
     w <- get ;;
     ret (has_url u (table w)))
    (fun error => throw error).

(** [x || null] on an optional string. *)
Definition orNull (x : option string) : option string :=
  match x with
  | Some "" => None
  | other => other
  end.

Definition rowOf (article : CreateInput) : Row :=
  {| title := ci_title article;
     content_summary := ci_summary article;
     url := ci_url article;
     published_at := ci_publishedAt article;
     embedding := ci_embedding article;
     source := orNull (ci_source article);
     category := orNull (ci_category article);
     image := orNull (ci_image article) |}.

(** The test [!Array.isArray(article.embedding)] cannot succeed on a
    [list]. *)
Definition create (env : Env) (article : CreateInput) : M Row :=
  tryCatch
    (let r := rowOf article in
     modify (log (EvInsert r)) ;;;
     query env ;;;
     modify (fun w => set_table (table w ++ [r]) w) ;;;
     ret r)
    (fun error => throw error).

(** ** News: [NewsService] *)

Definition fetchNews (env : Env) (category : string) (max : Z) : M (list NewsArticle) :=
  modify (log (EvFetchNews category max)) ;;;
  match topHeadlines env category max with
  | Some articles => ret articles
  | None => throw (newError "News fetch failed")
  end.

Definition searchNews (env : Env) (q : string) (max : Z) : M (list NewsArticle) :=
  modify (log (EvSearchNews q max)) ;;;
  match searchResults env q max with
  | Some articles => ret articles
  | None => throw (newError "News search failed")
  end.

(** ** IngestionPipeline: [IngestionService] *)

(** [IngestionResult]. *)
Record IngestionResult : Type := mkIngestionResult {
  success : Z;
  failed : Z;
  skipped : Z;
  total : Z;
  errors : list string
}.

(** The local variables [success], [failed], [skipped] and [errors] of a
    batch. *)
Record Counters : Type := mkCounters {
  c_success : Z;
  c_failed : Z;
  c_skipped : Z;
  c_errors : list string
}.

Definition noCounters : Counters := mkCounters 0 0 0 [].

Definition resultOf (c : Counters) (articles : list NewsArticle) : IngestionResult :=
  {| success := c_success c; failed := c_failed c; skipped := c_skipped c;
     total := Z.of_nat (List.length articles); errors := c_errors c |}.

Definition contentForAI (article : NewsArticle) : string :=
  na_title article ++ newline ++ newline ++ na_description article
    ++ newline ++ newline ++ na_content article.

(** [error instanceof Error ? error.message : 'Unknown error']. *)
Definition errorMsgOf (error : JsError) : string :=
  if instanceofError error then message error else "Unknown error".

(** The entry pushed when a batch stops early. *)
Definition quotaExceededAfter (succeeded : Z) : string :=
  "Quota exceeded after " ++ string_of_Z succeeded ++ " articles".

(** The [for] loop over the fetched articles; the body answers with the
    counters and whether it left the loop by [break]. *)
Fixpoint forEachArticle (body : NewsArticle -> Counters -> M (Counters * bool))
    (articles : list NewsArticle) (c : Counters) : M Counters :=
  match articles with
  | [] => ret c
  | article :: rest =>
      r <- body article c ;;
      if snd r then ret (fst r) else forEachArticle body rest (fst r)
  end.

(** The [try] block of the loop body, the same in the four loops but for
    the object handed to [create]. *)
Definition tryArticle (env : Env)
    (createInput : NewsArticle -> string -> list number -> CreateInput)
    (article : NewsArticle) (c : Counters) : M (Counters * bool) :=
  (* Skip if article already exists *)
  exist <- existsByUrl env (na_url article) ;;
  if exist : bool then
    ret (mkCounters (c_success c) (c_failed c) (c_skipped c + 1) (c_errors c), false)
  else
    r <- generateSummaryAndEmbedding env (contentForAI article) ;;
    create env (createInput article (fst r) (snd r)) ;;;
    ret (mkCounters (c_success c + 1) (c_failed c) (c_skipped c) (c_errors c), false).

(** The version of [src/services/ingestion.service.ts]: batches of at
    most three articles. *)
Module V1.

Definition createInput (cat : option string) (article : NewsArticle)
    (summary : string) (emb : list number) : CreateInput :=
  {| ci_title := na_title article;
     ci_summary := summary;
     ci_url := na_url article;
     ci_publishedAt := na_publishedAt article;
     ci_embedding := emb;
     ci_source := Some (na_source_name article);
     ci_category := cat;
     ci_image := orNull (na_image article) |}.

Definition processArticle (env : Env) (cat : option string)
    (article : NewsArticle) (c : Counters) : M (Counters * bool) :=
  tryCatch (tryArticle env (createInput cat) article c)
    (fun error =>
       let errorMsg := errorMsgOf error in
       ret (mkCounters (c_success c) (c_failed c + 1) (c_skipped c)
              (c_errors c ++ [errorMsg]), false)).

Definition clamp (max : Z) : Z := if max >? 3 then 3 else max.

Definition ingestNews (env : Env) (cat : option string) (max : option Z)
    : M IngestionResult :=
  let cat := match cat with Some c => c | None => "general" end in
  let max := match max with Some m => m | None => 3 end in
  (* Enforce maximum of 3 articles *)
  let max := clamp max in
  tryCatch
    (articles <- fetchNews env cat max ;;
     c <- forEachArticle (processArticle env (Some cat)) articles noCounters ;;
     ret (resultOf c articles))
    (fun error => throw error).

Definition searchAndIngest (env : Env) (q : string) (max : option Z)
    : M IngestionResult :=
  let max := match max with Some m => m | None => 3 end in
  (* Enforce maximum of 3 articles *)
  let max := clamp max in
  tryCatch
    (articles <- searchNews env q max ;;
     c <- forEachArticle (processArticle env None) articles noCounters ;;
     ret (resultOf c articles))
    (fun error => throw error).

End V1.

(** The other version of [ingestion.service.ts] in the repository: no
    cap on the batch, and a batch that stops when the quota is spent.
    Its calls of [getRateLimitStatus] read the budget for a log line and
    are left out with it. *)
Module V2.

Definition createInput (cat : option string) (article : NewsArticle)
    (summary : string) (emb : list number) : CreateInput :=
  {| ci_title := na_title article;
     ci_summary := summary;
     ci_url := na_url article;
     ci_publishedAt := na_publishedAt article;
     ci_embedding := emb;
     ci_source := Some (na_source_name article);
     ci_category := cat;
     ci_image := na_image article |}.

Definition processArticle (env : Env) (cat : option string)
    (article : NewsArticle) (c : Counters) : M (Counters * bool) :=
  tryCatch (tryArticle env (createInput cat) article c)
    (fun error =>
       let errorMsg := errorMsgOf error in
       (* Check if it's a quota error *)
       if includes errorMsg "quota exceeded" then
         (* Stop processing more articles if quota is exceeded *)
         ret (mkCounters (c_success c) (c_failed c + 1) (c_skipped c)
                (c_errors c ++ [quotaExceededAfter (c_success c)]), true)
       else
         ret (mkCounters (c_success c) (c_failed c + 1) (c_skipped c)
                (c_errors c ++ [na_url article ++ ": " ++ errorMsg]), false)).

Definition ingestNews (env : Env) (cat : option string) (max : option Z)
    : M IngestionResult :=
  let cat := match cat with Some c => c | None => "general" end in
  let max := match max with Some m => m | None => 10 end in
  tryCatch
    (articles <- fetchNews env cat max ;;
     c <- forEachArticle (processArticle env (Some cat)) articles noCounters ;;
     ret (resultOf c articles))
    (fun error => throw error).

Definition searchAndIngest (env : Env) (q : string) (max : option Z)
    : M IngestionResult :=
  let max := match max with Some m => m | None => 10 end in
  tryCatch
    (articles <- searchNews env q max ;;
     c <- forEachArticle (processArticle env None) articles noCounters ;;
     ret (resultOf c articles))
    (fun error => throw error).

End V2.

(** ** States and collaborators of the examples *)

(** A service whose day counter stands at the cap, twelve hours into the
    day window. *)
Definition spentBudget : RateBudget :=
  {| requestCount := 0; requestResetTime := 60000; lastRequestTime := 0;
     dailyRequestCount := 1000; dailyResetTime := 86400000 |}.

Definition spentWorld : World :=
  {| clock := 43200000; budget := spentBudget; table := []; aiCalls := 0;
     dbCalls := 0; trace := [] |}.

(** A service whose day counter stands at the cap, at the very
    millisecond at which its day window ends. *)
Definition endOfDayWorld : World :=
  {| clock := 86400000; budget := spentBudget; table := []; aiCalls := 0;
     dbCalls := 0; trace := [] |}.

(** A service that has just been constructed, at time 0. *)
Definition freshBudget : RateBudget :=
  {| requestCount := 0; requestResetTime := 60000; lastRequestTime := 0;
     dailyRequestCount := 0; dailyResetTime := 86400000 |}.

Definition freshWorld : World :=
  {| clock := 0; budget := freshBudget; table := []; aiCalls := 0;
     dbCalls := 0; trace := [] |}.

Definition upstreamError (code : Z) (msg : string) : JsError :=
  {| message := msg; status := Some code; retryInfoDelay := None; instanceofError := true |}.

Definition vector (n : nat) : list number := repeat 0%float n.

Definition sampleArticle (u : string) : NewsArticle :=
  {| na_title := "Title"; na_description := "Description"; na_content := "Content";
     na_url := u; na_image := None; na_publishedAt := "2024-01-01T00:00:00Z";
     na_source_name := "Source" |}.

(** Collaborators that always answer: a summary, a vector of [dim]
    numbers, the given articles, and no database fault. *)
Definition answering (dim : nat) (articles : list NewsArticle) : Env :=
  {| generateContent := fun _ _ => Ok "A summary.";
     embedContent := fun _ _ => Ok (Some (vector dim));
     topHeadlines := fun _ _ => Some articles;
     searchResults := fun _ _ => Some articles;
     queryFault := fun _ => None |}.

(** A Gemini client that fails every call with the given HTTP status. *)
Definition failing (code : Z) (msg : string) (articles : list NewsArticle) : Env :=
  {| generateContent := fun _ _ => Throw (upstreamError code msg);
     embedContent := fun _ _ => Throw (upstreamError code msg);
     topHeadlines := fun _ _ => Some articles;
     searchResults := fun _ _ => Some articles;
     queryFault := fun _ => None |}.

(** A Gemini client that fails its first [n] calls with the given HTTP
    status and answers from then on. *)
Definition failingFirst (n : nat) (code : Z) (msg : string)
    (articles : list NewsArticle) : Env :=
  {| generateContent := fun i _ =>
       if (i <? n)%nat then Throw (upstreamError code msg) else Ok "A summary.";
     embedContent := fun i _ =>
       if (i <? n)%nat then Throw (upstreamError code msg) else Ok (Some (vector 768));
     topHeadlines := fun _ _ => Some articles;
     searchResults := fun _ _ => Some articles;
     queryFault := fun _ => None |}.

(** A store that already holds the article at [u]. *)
Definition storedRow (u : string) : Row :=
  {| title := "Title"; content_summary := "A summary."; url := u;
     published_at := "2024-01-01T00:00:00Z"; embedding := [];
     source := Some "Source"; category := None; image := None |}.

Definition worldWith (rows : list Row) : World :=
  {| clock := 0; budget := freshBudget; table := rows; aiCalls := 0;
     dbCalls := 0; trace := [] |}.

(** ** Vocabulary of the statements *)

(** [m] moves every world along the relation [R]. *)
Definition respects {A} (R : World -> World -> Prop) (m : M A) : Prop :=
  forall w, R w (snd (m w)).

(** The store is as it was: same rows, same number of queries. *)
Definition sameStore (w w' : World) : Prop :=
  table w' = table w /\ dbCalls w' = dbCalls w.

(** The trace grew by events that all satisfy [P]. *)
Definition emitted (P : Event -> Prop) (w w' : World) : Prop :=
  exists l, trace w' = (trace w ++ l)%list /\ Forall P l.

Definition isSleep (ev : Event) : Prop :=
  match ev with EvSleep _ => True | _ => False end.

Definition isFetch (ev : Event) : Prop :=
  match ev with EvFetchNews _ _ | EvSearchNews _ _ => True | _ => False end.

(** Events of the enricher: sleeps and calls of the Gemini client. *)
Definition isEnrichment (ev : Event) : Prop :=
  match ev with
  | EvSleep _ | EvGenerateContent _ | EvEmbedContent _ => True
  | _ => False
  end.

Definition urls (w : World) : list string := List.map url (table w).

(** [n] copies of a code unit. *)
Fixpoint replicate (n : nat) (c : ascii) : string :=
  match n with
  | O => EmptyString
  | S k => String c (replicate k c)
  end.

(** What the enricher may add to the trace while it works on [text]. *)
Definition summaryEvent (text : string) (ev : Event) : Prop :=
  isSleep ev \/ ev = EvGenerateContent (summaryPrompt (truncateForSummary text)).

Definition embeddingEvent (text : string) (ev : Event) : Prop :=
  isSleep ev \/ ev = EvEmbedContent (truncateForEmbedding text).

(** Events of the loop over the candidates: everything but the fetch. *)
Definition isProcessing (ev : Event) : Prop := ~ isFetch ev.

(** The counters after a skip, a success and a failure. *)
Definition skippedOne (c : Counters) : Counters :=
  mkCounters (c_success c) (c_failed c) (c_skipped c + 1) (c_errors c).

Definition succeededOne (c : Counters) : Counters :=
  mkCounters (c_success c + 1) (c_failed c) (c_skipped c) (c_errors c).

Definition failedOne (entry : string) (c : Counters) : Counters :=
  mkCounters (c_success c) (c_failed c + 1) (c_skipped c) (c_errors c ++ [entry]).

(** Candidates accounted for. *)
Definition handled (c : Counters) : Z := c_success c + c_failed c + c_skipped c.

(** The world after the dedup query for [u] and after the insert of [r]. *)
Definition afterExists (u : string) (w : World) : World :=
  bump_dbCalls (log (EvExistsByUrl u) w).

Definition afterInsertAttempt (r : Row) (w : World) : World :=
  bump_dbCalls (log (EvInsert r) w).

Definition afterInsert (r : Row) (w : World) : World :=
  set_table (table w ++ [r]) (afterInsertAttempt r w).

(** The shape the four entry points share: fetch, loop, report. *)
Definition runBatch (fetch : M (list NewsArticle))
    (body : NewsArticle -> Counters -> M (Counters * bool)) : M IngestionResult :=
  tryCatch
    (articles <- fetch ;;
     c <- forEachArticle body articles noCounters ;;
     ret (resultOf c articles))
    (fun error => throw error).

(** A loop body accounts for its candidate in exactly one counter, never
    throws, and leaves the loop only if it [mayBreak], with the
    early-stop entry pushed. *)
Definition accounts (mayBreak : bool)
    (body : NewsArticle -> Counters -> M (Counters * bool)) : Prop :=
  forall article c w,
    exists c' b w',
      body article c w = (Ok (c', b), w')
      /\ handled c' = handled c + 1
      /\ (b = true ->
          mayBreak = true /\ In (quotaExceededAfter (c_success c')) (c_errors c')).

(** The claim C2 as the specification words it, for a loop body: once
    the candidate [article] has failed, the candidates after it are left
    alone, so that the loop ends as if [article] had been the last. *)
Definition stops_after (body : NewsArticle -> Counters -> M (Counters * bool))
    (article : NewsArticle) (rest : list NewsArticle) (c : Counters) (w : World) : Prop :=
  forEachArticle body (article :: rest) c w = forEachArticle body [article] c w.

(** No two rows of the table have the same URL: what a run keeps. *)
Definition keepsUnique (w w' : World) : Prop :=
  NoDup (urls w) -> NoDup (urls w').

(** The code unit [c] does not occur in [s]. *)
Definition free_of (c : ascii) (s : string) : Prop :=
  ~ In c (list_ascii_of_string s).

(** The claim C7 as the specification words it, for the category entry
    point: the fetch asks for min(max, 3) articles. *)
Definition fetch_is_clamped (run : M IngestionResult) (cat : string) (max : Z)
    (w : World) : Prop :=
  exists l, trace (snd (run w)) = (trace w ++ EvFetchNews cat (Z.min max 3) :: l)%list.

(** The day quota is spent: the day counter has reached the cap and the
    test that starts a new day window, [now > dailyResetTime], fails. *)
Definition dayQuotaSpent (b : RateBudget) (t : Z) : bool :=
  (dailyRequestCount b >=? 1000) && negb (t >? dailyResetTime b).

(** The condition of C3 as the specification words it.  Its section 4.1
    lets the day window end, and the day counter start again, "whenever
    current time >= dayWindowEnd": the day counter has reached the cap
    and the current time is before the end of the day window. *)
Definition dayQuotaSpent_spec (b : RateBudget) (t : Z) : bool :=
  (dailyRequestCount b >=? 1000) && (t <? dailyResetTime b).

(** The first statement of [waitForRateLimit], which a spent day quota
    does not prevent: a new minute window is opened when the old one is
    over. *)
Definition openMinuteWindow (w : World) : World :=
  if clock w >? requestResetTime (budget w)
  then set_budget (set_requestResetTime (clock w + 60000) (set_requestCount 0 (budget w))) w
  else w.

(** The world after [sleep ms]. *)
Definition slept (ms : Z) (w : World) : World :=
  log (EvSleep ms) (set_clock (clock w + Z.max 0 ms) w).

(** The run of the executor while the day quota stays spent: every round
    is an acquire that fails, followed by the backoff sleep if a round is
    left. *)
Fixpoint spentRun (mr d : Z) (rounds : nat) (attempt : Z) (w : World) : World :=
  match rounds with
  | O => w
  | S k =>
      if attempt <? mr - 1
      then spentRun mr d k (attempt + 1)
             (slept (backoffDelay d attempt) (openMinuteWindow w))
      else openMinuteWindow w
  end.

Fixpoint backoffSleeps (d attempt : Z) (n : nat) : list Event :=
  match n with
  | O => []
  | S k => EvSleep (backoffDelay d attempt) :: backoffSleeps d (attempt + 1) k
  end.

Fixpoint backoffTotal (d attempt : Z) (n : nat) : Z :=
  match n with
  | O => 0
  | S k => backoffDelay d attempt + backoffTotal d (attempt + 1) k
  end.

(** The claim C4 as the specification words it: a failed acquire ends
    the run at once, with the quota-exhausted error and no backoff
    sleep. *)
Definition propagates_at_once {T} (run : M T) (w : World) : Prop :=
  fst (run w) = Throw (newError quotaExhaustedMessage)
  /\ clock (snd (run w)) = clock w
  /\ trace (snd (run w)) = trace w.

(** The run of the retry executor as the specification describes it,
    attempt by attempt: [Attempts fn mr d attempt w out] says that the
    run which starts its attempt number [attempt] in [w] ends with
    [out].  Every attempt begins with an acquire; the operation is
    invoked when the acquire has returned, and only then. *)
Inductive Attempts {T} (fn : M T) (mr d : Z) : Z -> World -> Res T * World -> Prop :=
| AttemptReturns attempt w w1 x w2 :
    waitForRateLimit w = (Ok tt, w1) ->
    fn w1 = (Ok x, w2) ->
    Attempts fn mr d attempt w (Ok x, w2)
| AcquireFailed attempt w w1 out :
    waitForRateLimit w = (Throw (newError quotaExhaustedMessage), w1) ->
    attempt < mr - 1 ->
    Attempts fn mr d (attempt + 1) (slept (d * 2 ^ attempt) w1) out ->
    Attempts fn mr d attempt w out
| AcquireFailedLast attempt w w1 :
    waitForRateLimit w = (Throw (newError quotaExhaustedMessage), w1) ->
    mr - 1 <= attempt ->
    Attempts fn mr d attempt w (Throw (newError quotaExhaustedMessage), w1)
| NotFound attempt w w1 e w2 :
    waitForRateLimit w = (Ok tt, w1) ->
    fn w1 = (Throw e, w2) ->
    status e = Some 404 ->
    Attempts fn mr d attempt w
      (Throw (newError ("AI model not available: " ++ message e)), w2)
| RateLimited attempt w w1 e w2 out :
    waitForRateLimit w = (Ok tt, w1) ->
    fn w1 = (Throw e, w2) ->
    status e = Some 429 ->
    attempt < mr - 1 ->
    Attempts fn mr d (attempt + 1)
      (slept (match retryInfoDelay e with
              | Some suggested => Z.max suggested (d * 2 ^ attempt)
              | None => d * 2 ^ attempt
              end) w2) out ->
    Attempts fn mr d attempt w out
| RateLimitedLast attempt w w1 e w2 :
    waitForRateLimit w = (Ok tt, w1) ->
    fn w1 = (Throw e, w2) ->
    status e = Some 429 ->
    mr - 1 <= attempt ->
    Attempts fn mr d attempt w (Throw (newError (rateLimitExceededMessage mr)), w2)
| OtherFailure attempt w w1 e w2 out :
    waitForRateLimit w = (Ok tt, w1) ->
    fn w1 = (Throw e, w2) ->
    status e <> Some 404 ->
    status e <> Some 429 ->
    attempt < mr - 1 ->
    Attempts fn mr d (attempt + 1) (slept (d * 2 ^ attempt) w2) out ->
    Attempts fn mr d attempt w out
| OtherFailureLast attempt w w1 e w2 :
    waitForRateLimit w = (Ok tt, w1) ->
    fn w1 = (Throw e, w2) ->
    status e <> Some 404 ->
    status e <> Some 429 ->
    mr - 1 <= attempt ->
    Attempts fn mr d attempt w (Throw e, w2).

(** The claim C9 for the summary, as the specification words it: what
    is submitted for [text] has at most 3000 code units. *)
Definition summary_input_within_limit (text : string) : Prop :=
  (String.length (truncateForSummary text) <= 3000)%nat.

(** The ways out of the [try] block: the candidate is skipped, it is
    persisted, or one of the dedup query, the enrichment and the insert
    throws. *)
Inductive TryOutcome (env : Env)
    (createInput : NewsArticle -> string -> list number -> CreateInput)
    (article : NewsArticle) (c : Counters) (w : World)
    : Res (Counters * bool) * World -> Prop :=
| TrySkipped :
    queryFault env (dbCalls w) = None ->
    has_url (na_url article) (table w) = true ->
    TryOutcome env createInput article c w
      (Ok (skippedOne c, false), afterExists (na_url article) w)
| TryPersisted summary emb w2 :
    queryFault env (dbCalls w) = None ->
    has_url (na_url article) (table w) = false ->
    generateSummaryAndEmbedding env (contentForAI article) (afterExists (na_url article) w)
      = (Ok (summary, emb), w2) ->
    queryFault env (dbCalls w2) = None ->
    TryOutcome env createInput article c w
      (Ok (succeededOne c, false),
       afterInsert (rowOf (createInput article summary emb)) w2)
| TryDedupFailed e :
    queryFault env (dbCalls w) = Some e ->
    TryOutcome env createInput article c w (Throw e, afterExists (na_url article) w)
| TryEnrichmentFailed e w2 :
    queryFault env (dbCalls w) = None ->
    has_url (na_url article) (table w) = false ->
    generateSummaryAndEmbedding env (contentForAI article) (afterExists (na_url article) w)
      = (Throw e, w2) ->
    TryOutcome env createInput article c w (Throw e, w2)
| TryInsertFailed summary emb w2 e :
    queryFault env (dbCalls w) = None ->
    has_url (na_url article) (table w) = false ->
    generateSummaryAndEmbedding env (contentForAI article) (afterExists (na_url article) w)
      = (Ok (summary, emb), w2) ->
    queryFault env (dbCalls w2) = Some e ->
    TryOutcome env createInput article c w
      (Throw e, afterInsertAttempt (rowOf (createInput article summary emb)) w2).

(** ** Further code of the repository *)

(** The field initialisers of [AIService], at construction time [t]. *)
Definition newBudget (t : Z) : RateBudget :=
  {| requestCount := 0;
     requestResetTime := t + 60000;
     lastRequestTime := 0;
     dailyRequestCount := 0;
     dailyResetTime := t + 86400000 |}.

(** [Math.ceil(a / b)] for integers [a] and a positive integer [b]. *)
Definition ceilDiv (a b : Z) : Z := - ((- a) / b).

(** The object [getRateLimitStatus] returns. *)
Record RateLimitStatus : Type := mkRateLimitStatus {
  requestsUsedThisMinute : Z;
  requestsRemainingThisMinute : Z;
  minuteResetIn : Z;
  dailyRequestsUsed : Z;
  dailyRequestsRemaining : Z;
  dailyResetIn : Z
}.

(** [AIService.getRateLimitStatus]. *)
Definition getRateLimitStatus : M RateLimitStatus :=
  t <- now ;;
  b <- read_budget (fun b => b) ;;
  let minuteResetIn := Z.max 0 (ceilDiv (requestResetTime b - t) 1000) in
  let dailyResetIn := Z.max 0 (ceilDiv (dailyResetTime b - t) 3600000) in
  ret {| requestsUsedThisMinute := requestCount b;
         requestsRemainingThisMinute := Z.max 0 (MAX_REQUESTS_PER_MINUTE - requestCount b);
         minuteResetIn := minuteResetIn;
         dailyRequestsUsed := dailyRequestCount b;
         dailyRequestsRemaining := Z.max 0 (1000 - dailyRequestCount b);
         dailyResetIn := dailyResetIn |}.

(** The state a rate budget is in from the construction of the service
    on: the counters within their caps, the two windows ending no later
    than a full window from now, the last call not in the future. *)
Definition budgetOk (w : World) : Prop :=
  0 <= requestCount (budget w) <= MAX_REQUESTS_PER_MINUTE
  /\ 0 <= dailyRequestCount (budget w) <= 1000
  /\ requestResetTime (budget w) <= clock w + 60000
  /\ dailyResetTime (budget w) <= clock w + 86400000
  /\ lastRequestTime (budget w) <= clock w.

(** [n] calls of [waitForRateLimit] in a row, stopping at the first that
    throws. *)
Fixpoint acquireTimes (n : nat) : M unit :=
  match n with
  | O => ret tt
  | S k => waitForRateLimit ;;; acquireTimes k
  end.

(** *** Calls of [waitForRateLimit] in flight

    [waitForRateLimit] gives up control at its two
    [await this.sleep(...)] and nowhere else.  The controller of the
    routes is constructed once, with one [IngestionService] and so one
    [AIService]: calls made on behalf of different requests share the
    rate budget and interleave at these two points.  A call in flight is
    the statement at which it is suspended, with the local [now] that it
    still needs. *)
Inductive Suspended : Type :=
| AwaitMinuteWindow (t : Z)
| AwaitInterval.

(** What a stretch of the method ends with: its [return], or the next
    [await this.sleep(ms)]. *)
Inductive Progress : Type :=
| Returns
| Awaits (ms : Z) (point : Suspended).

(** Lines 80 to 82: the slot is reserved. *)
Definition reserveSlot : M Progress :=
  t'' <- now ;;
  update_budget (fun b =>
    set_lastRequestTime t''
      (set_dailyRequestCount (dailyRequestCount b + 1)
         (set_requestCount (requestCount b + 1) b))) ;;;
  ret Returns.

(** Lines 73 to 78, with the [now] of line 43. *)
Definition intervalTest (t : Z) : M Progress :=
  last <- read_budget lastRequestTime ;;
  let timeSinceLastRequest := t - last in
  if timeSinceLastRequest <? MIN_REQUEST_INTERVAL
  then ret (Awaits (MIN_REQUEST_INTERVAL - timeSinceLastRequest) AwaitInterval)
  else reserveSlot.

(** Lines 43 to 67: from the call to the first [await], if any. *)
Definition enter : M Progress :=
  t <- now ;;
  resetAt <- read_budget requestResetTime ;;
  when (t >? resetAt)
    (update_budget (fun b => set_requestResetTime (t + 60000) (set_requestCount 0 b))) ;;;
  dayResetAt <- read_budget dailyResetTime ;;
  when (t >? dayResetAt)
    (update_budget (fun b => set_dailyResetTime (t + 86400000) (set_dailyRequestCount 0 b))) ;;;
  daily <- read_budget dailyRequestCount ;;
  (if daily >=? 1000 then throw (newError quotaExhaustedMessage) else ret tt) ;;;
  count <- read_budget requestCount ;;
  if count >=? MAX_REQUESTS_PER_MINUTE
  then resetAt' <- read_budget requestResetTime ;;
       ret (Awaits (resetAt' - t) (AwaitMinuteWindow t))
  else intervalTest t.

(** From the [await] at which the call was suspended to the next one, or
    to the end: lines 68 to 78, or lines 80 to 82. *)
Definition resume (point : Suspended) : M Progress :=
  match point with
  | AwaitMinuteWindow t =>
      t' <- now ;;
      update_budget (fun b => set_requestResetTime (t' + 60000) (set_requestCount 0 b)) ;;;
      intervalTest t
  | AwaitInterval => reserveSlot
  end.

(** The service with its calls in flight: the shared world, the calls
    that sleep (each with the time at which its timer fires) and the
    outcomes of the calls that are over, in the order in which they
    ended. *)
Record Pool : Type := mkPool {
  shared : World;
  sleeping : list (Z * Suspended);
  finished : list (Res unit)
}.

Definition idle (w : World) : Pool := mkPool w [] [].

(** What can happen next: a request calls [waitForRateLimit], the timer
    of the [i]-th sleeping call fires, time passes, or [resetCounters]
    is called. *)
Inductive Step : Type :=
| Enters
| Wakes (i : nat)
| Passes (ms : Z)
| Resets.

Definition advance (p : Pool) (r : Res Progress * World) : Pool :=
  match r with
  | (Ok Returns, w) => mkPool w (sleeping p) (finished p ++ [Ok tt])
  | (Ok (Awaits ms point), w) =>
      mkPool (log (EvSleep ms) w)
        (sleeping p ++ [(clock w + Z.max 0 ms, point)]) (finished p)
  | (Throw e, w) => mkPool w (sleeping p) (finished p ++ [Throw e])
  end.

Fixpoint remove_nth {A} (i : nat) (l : list A) : list A :=
  match l, i with
  | [], _ => []
  | _ :: t, O => t
  | x :: t, S j => x :: remove_nth j t
  end.

(** One step; [None] when it cannot happen (a timer does not fire early,
    time does not run backwards). *)
Definition step (s : Step) (p : Pool) : option Pool :=
  match s with
  | Enters => Some (advance p (enter (shared p)))
  | Wakes i =>
      match nth_error (sleeping p) i with
      | Some (wake, point) =>
          if wake <=? clock (shared p)
          then Some (advance (mkPool (shared p) (remove_nth i (sleeping p)) (finished p))
                       (resume point (shared p)))
          else None
      | None => None
      end
  | Passes ms =>
      if 0 <=? ms
      then Some (mkPool (set_clock (clock (shared p) + ms) (shared p))
                   (sleeping p) (finished p))
      else None
  | Resets => Some (mkPool (snd (resetCounters (shared p))) (sleeping p) (finished p))
  end.

Fixpoint steps (l : list Step) (p : Pool) : option Pool :=
  match l with
  | [] => Some p
  | s :: rest =>
      match step s p with
      | Some p' => steps rest p'
      | None => None
      end
  end.

(** The only sleeping call is left to sleep until its timer fires. *)
Definition settle (p : Pool) : option Pool :=
  match sleeping p with
  | [(wake, _)] => steps [Passes (wake - clock (shared p)); Wakes 0] p
  | _ => Some p
  end.

(** A call that has the service to itself from its first statement to
    its last. *)
Definition callAlone (w : World) : option Pool :=
  match step Enters (idle w) with
  | Some p => match settle p with
              | Some p' => settle p'
              | None => None
              end
  | None => None
  end.

(** No call enters while another is in flight. *)
Fixpoint oneAtATime (l : list Step) (p : Pool) : Prop :=
  match l with
  | [] => True
  | s :: rest =>
      (s = Enters -> sleeping p = [])
      /\ match step s p with
         | Some p' => oneAtATime rest p'
         | None => True
         end
  end.

(** The sum of the times in [gaps]. *)
Definition sumZ (gaps : list Z) : Z := fold_right Z.add 0 gaps.

(** One call enters after each of the [gaps], all of them before the
    timer of any of them has fired; then the timers fire. *)
Definition overlapping (gaps : list Z) (w : World) : list Step :=
  (flat_map (fun gap => [Passes gap; Enters]) gaps
   ++ Passes (lastRequestTime (budget w) + MIN_REQUEST_INTERVAL - (clock w + sumZ gaps))
   :: repeat (Wakes 0) (List.length gaps))%list.

(** What holds of the service between two steps when calls enter one at
    a time: the budget is regular, at most one call sleeps, and a
    sleeping call has left room for the slot it is about to take. *)
Definition inFlightOk (p : Pool) : Prop :=
  budgetOk (shared p)
  /\ match sleeping p with
     | [] => True
     | [(_, AwaitMinuteWindow _)] => dailyRequestCount (budget (shared p)) <= 999
     | [(_, AwaitInterval)] =>
         requestCount (budget (shared p)) <= 9
         /\ dailyRequestCount (budget (shared p)) <= 999
     | _ => False
     end.

(** The Gemini client is never called back: the count of its calls only
    grows. *)
Definition callsGrow (w w' : World) : Prop := (aiCalls w <= aiCalls w')%nat.

Definition isEmbedCall (ev : Event) : Prop :=
  match ev with EvEmbedContent _ => True | _ => False end.

(** The four entry points of the two versions of [IngestionService]. *)
Inductive EntryPoint : Type :=
| IngestNewsV1 (cat : option string)
| SearchAndIngestV1 (q : string)
| IngestNewsV2 (cat : option string)
| SearchAndIngestV2 (q : string).

Definition runEntry (env : Env) (ep : EntryPoint) (max : option Z) : M IngestionResult :=
  match ep with
  | IngestNewsV1 cat => V1.ingestNews env cat max
  | SearchAndIngestV1 q => V1.searchAndIngest env q max
  | IngestNewsV2 cat => V2.ingestNews env cat max
  | SearchAndIngestV2 q => V2.searchAndIngest env q max
  end.

(** What GNews answers to the request an entry point makes. *)
Definition fetchedBy (env : Env) (ep : EntryPoint) (max : option Z)
    : option (list NewsArticle) :=
  match ep with
  | IngestNewsV1 cat =>
      topHeadlines env (match cat with Some c => c | None => "general" end)
        (V1.clamp (match max with Some m => m | None => 3 end))
  | SearchAndIngestV1 q =>
      searchResults env q (V1.clamp (match max with Some m => m | None => 3 end))
  | IngestNewsV2 cat =>
      topHeadlines env (match cat with Some c => c | None => "general" end)
        (match max with Some m => m | None => 10 end)
  | SearchAndIngestV2 q =>
      searchResults env q (match max with Some m => m | None => 10 end)
  end.

(** The request itself, as it shows in the trace. *)
Definition fetchEvent (ep : EntryPoint) (max : option Z) : Event :=
  match ep with
  | IngestNewsV1 cat =>
      EvFetchNews (match cat with Some c => c | None => "general" end)
        (V1.clamp (match max with Some m => m | None => 3 end))
  | SearchAndIngestV1 q =>
      EvSearchNews q (V1.clamp (match max with Some m => m | None => 3 end))
  | IngestNewsV2 cat =>
      EvFetchNews (match cat with Some c => c | None => "general" end)
        (match max with Some m => m | None => 10 end)
  | SearchAndIngestV2 q =>
      EvSearchNews q (match max with Some m => m | None => 10 end)
  end.

Definition fetchFailure (ep : EntryPoint) : JsError :=
  match ep with
  | IngestNewsV1 _ | IngestNewsV2 _ => newError "News fetch failed"
  | SearchAndIngestV1 _ | SearchAndIngestV2 _ => newError "News search failed"
  end.

(** The loop body of an entry point. *)
Definition bodyOf (env : Env) (ep : EntryPoint)
    : NewsArticle -> Counters -> M (Counters * bool) :=
  match ep with
  | IngestNewsV1 cat =>
      V1.processArticle env (Some (match cat with Some c => c | None => "general" end))
  | SearchAndIngestV1 _ => V1.processArticle env None
  | IngestNewsV2 cat =>
      V2.processArticle env (Some (match cat with Some c => c | None => "general" end))
  | SearchAndIngestV2 _ => V2.processArticle env None
  end.

(** A row a batch may add: its embedding has 768 numbers, its URL is the
    URL of one of the candidates [us] and was not in the table of [w0]. *)
Definition persistedRow (us : list string) (w0 : World) (r : Row) : Prop :=
  List.length (embedding r) = 768%nat
  /\ In (url r) us
  /\ ~ In (url r) (urls w0).

(** The books of a loop that went from counters [c] in world [w] to
    [c'] in [w']: one new row per success and nothing else done to the
    table, one error entry per failure, between two and six upstream
    calls per success and at most six per failure. *)
Definition ledger (us : list string) (c : Counters) (w : World)
    (c' : Counters) (w' : World) : Prop :=
  exists rows,
    table w' = (table w ++ rows)%list
    /\ Z.of_nat (List.length rows) = c_success c' - c_success c
    /\ Forall (persistedRow us w) rows
    /\ Z.of_nat (List.length (c_errors c')) - Z.of_nat (List.length (c_errors c))
       = c_failed c' - c_failed c
    /\ 0 <= c_failed c' - c_failed c
    /\ 0 <= c_skipped c' - c_skipped c
    /\ Z.of_nat (aiCalls w) + 2 * (c_success c' - c_success c) <= Z.of_nat (aiCalls w')
    /\ Z.of_nat (aiCalls w')
       <= Z.of_nat (aiCalls w)
          + 6 * ((c_success c' - c_success c) + (c_failed c' - c_failed c)).

(** A loop body that is the shared [try] block with a [catch] that
    counts the candidate as failed and pushes one entry. *)
Definition catchesAsFailure
    (createInput : NewsArticle -> string -> list number -> CreateInput)
    (env : Env) (body : NewsArticle -> Counters -> M (Counters * bool)) : Prop :=
  forall article c w,
    match tryArticle env createInput article c w with
    | (Ok r, w') => body article c w = (Ok r, w')
    | (Throw e, w') => exists entry b, body article c w = (Ok (failedOne entry c, b), w')
    end.

(** A relation between worlds that a regular budget is kept. *)
Definition keepsBudgetOk (w w' : World) : Prop := budgetOk w -> budgetOk w'.

(** *** [parseInt]

    The value of a code unit as a digit: 0-9, then a-z or A-Z for 10 to
    35. *)
Definition digitValue (c : ascii) : option Z :=
  let n := Z.of_nat (nat_of_ascii c) in
  if (48 <=? n) && (n <=? 57) then Some (n - 48)
  else if (97 <=? n) && (n <=? 122) then Some (n - 87)
  else if (65 <=? n) && (n <=? 90) then Some (n - 55)
  else None.

(** The longest prefix of digits below [radix], read in base [radix];
    [acc] is the value read so far, [None] while no digit was read. *)
Fixpoint parseDigits (radix : Z) (s : string) (acc : option Z) : option Z :=
  match s with
  | EmptyString => acc
  | String c t =>
      match digitValue c with
      | Some v =>
          if v <? radix
          then parseDigits radix t
                 (Some (match acc with Some a => a | None => 0 end * radix + v))
          else acc
      | None => acc
      end
  end.

(** [parseInt(s, radix)] for an integer [radix]; [None] is [NaN]. *)
Definition parseInt (s : string) (radix : Z) : option Z :=
  let s := trimStart s in
  let '(sign, s) :=
    match s with
    | String "-" t => (-1, t)
    | String "+" t => (1, t)
    | _ => (1, s)
    end in
  if negb (radix =? 0) && ((radix <? 2) || (radix >? 36)) then None
  else
    let stripPrefix := (radix =? 0) || (radix =? 16) in
    let radix := if radix =? 0 then 10 else radix in
    let '(radix, s) :=
      match s with
      | String "0" (String x t) =>
          if stripPrefix && (Ascii.eqb x "x" || Ascii.eqb x "X") then (16, t) else (radix, s)
      | _ => (radix, s)
      end in
    match parseDigits radix s None with
    | Some v => Some (sign * v)
    | None => None
    end.

(** [ArticlesRepository.count] of
    [src/db/repositories/articles.repository.ts]: the count of the rows
    comes back as a decimal string and is read with radix 5. *)
Definition count (env : Env) : M (option Z) :=
  tryCatch
    (query env ;;;
     w <- get ;;
     ret (parseInt (string_of_nat (List.length (table w))) 5))
    (fun error => throw error).

(** The other version of [ArticlesRepository.count] in the repository,
    which reads the string with radix 10. *)
Definition count_radix10 (env : Env) : M (option Z) :=
  tryCatch
    (query env ;;;
     w <- get ;;
     ret (parseInt (string_of_nat (List.length (table w))) 10))
    (fun error => throw error).

(** The number a decimal numeral stands for, [acc] being the value of
    the digits before it. *)
Fixpoint valueOf (d : Decimal.uint) (acc : Z) : Z :=
  match d with
  | Decimal.Nil => acc
  | Decimal.D0 u => valueOf u (10 * acc)
  | Decimal.D1 u => valueOf u (10 * acc + 1)
  | Decimal.D2 u => valueOf u (10 * acc + 2)
  | Decimal.D3 u => valueOf u (10 * acc + 3)
  | Decimal.D4 u => valueOf u (10 * acc + 4)
  | Decimal.D5 u => valueOf u (10 * acc + 5)
  | Decimal.D6 u => valueOf u (10 * acc + 6)
  | Decimal.D7 u => valueOf u (10 * acc + 7)
  | Decimal.D8 u => valueOf u (10 * acc + 8)
  | Decimal.D9 u => valueOf u (10 * acc + 9)
  end.

(** *** The HTTP layer: [IngestionController] and [errorHandler]

    What a handler sends with [res.json] (status 200 unless
    [res.status] was called): the status and the fields [success],
    [message] and [data] of the body.  The [stack] field that
    [errorHandler] adds in development mode is left out. *)
Record Response : Type := mkResponse {
  statusCode : Z;
  body_success : bool;
  body_message : string;
  body_data : option IngestionResult
}.

(** What reaches [next]: an [AppError] with its status code, or any
    other thrown value. *)
Inductive Raised : Type :=
| AppError (msg : string) (code : Z)
| Other (e : JsError).

Inductive Handled : Type :=
| Sent (r : Response)
| Raise (err : Raised).

(** [errorHandler] of [middleware/errorHandlers]. *)
Definition errorHandler (err : Raised) : Response :=
  match err with
  | AppError msg code =>
      {| statusCode := code; body_success := false; body_message := msg;
         body_data := None |}
  | Other e =>
      {| statusCode := 500; body_success := false;
         body_message := if instanceofError e then message e
                         else "Something went wrong!";
         body_data := None |}
  end.

(** [catchAsync(handler)] under [app.use(errorHandler)]: a rejection of
    the handler is answered by [errorHandler]. *)
Definition catchAsync (handler : World -> Handled * World) : World -> Response * World :=
  fun w =>
    match handler w with
    | (Sent r, w') => (r, w')
    | (Raise err, w') => (errorHandler err, w')
    end.

Module Controller.

(** [startIngestion]: [category] and [max] are the fields of the request
    body, [None] when absent; [ingestNews] is the method of the service
    the controller holds. *)
Definition startIngestion
    (ingestNews : option string -> option Z -> M IngestionResult)
    (category : option string) (max : option Z) : World -> Handled * World :=
  fun w =>
    let category := match category with Some c => c | None => "general" end in
    let max := match max with Some m => m | None => 10 end in
    match ingestNews (Some category) (Some max) w with
    | (Ok result, w') =>
        (Sent {| statusCode := 200; body_success := true;
                 body_message := "Ingestion completed"; body_data := Some result |}, w')
    | (Throw e, w') => (Raise (Other e), w')
    end.

(** [searchAndIngest]: [!query] holds for an absent and for an empty
    query. *)
Definition searchAndIngest
    (searchAndIngest : string -> option Z -> M IngestionResult)
    (query : option string) (max : option Z) : World -> Handled * World :=
  fun w =>
    let max := match max with Some m => m | None => 10 end in
    match query with
    | None | Some "" => (Raise (AppError "Query is required" 400), w)
    | Some q =>
        match searchAndIngest q (Some max) w with
        | (Ok result, w') =>
            (Sent {| statusCode := 200; body_success := true;
                     body_message := "Search and ingest completed";
                     body_data := Some result |}, w')
        | (Throw e, w') => (Raise (Other e), w')
        end
    end.

End Controller.

(** * Properties *)

(** ** The rate limiter *)

Lemma dayQuotaSpent_true (b : RateBudget) (t : Z) :
  dailyRequestCount b >= 1000 -> t <= dailyResetTime b -> dayQuotaSpent b t = true.
Proof.
  intros Hcap Hday. unfold dayQuotaSpent.
  rewrite Z.geb_leb, Z.gtb_ltb.
  destruct (Z.leb_spec 1000 (dailyRequestCount b)); [|lia].
  destruct (Z.ltb_spec (dailyResetTime b) t); [lia|reflexivity].
Qed.

Ltac run_monad :=
  unfold waitForRateLimit, resetCounters, bind, now, read_budget, when,
    update_budget, modify, throw, ret, sleep, get; cbn.

Lemma waitForRateLimit_spent (w : World) :
  dayQuotaSpent (budget w) (clock w) = true ->
  waitForRateLimit w = (Throw (newError quotaExhaustedMessage), openMinuteWindow w).
Proof.
  unfold dayQuotaSpent, openMinuteWindow. intros H.
  apply andb_true_iff in H. destruct H as [Hcap Hday].
  apply negb_true_iff in Hday.
  run_monad.
  destruct (clock w >? requestResetTime (budget w)); cbn;
    rewrite Hday; cbn; rewrite Hcap; reflexivity.
Qed.

Lemma waitForRateLimit_not_spent (w : World) :
  dayQuotaSpent (budget w) (clock w) = false ->
  exists w', waitForRateLimit w = (Ok tt, w').
Proof.
  unfold dayQuotaSpent. intros H.
  run_monad.
  destruct (clock w >? requestResetTime (budget w)); cbn;
    destruct (clock w >? dailyResetTime (budget w)) eqn:Hday; cbn;
    try (rewrite andb_false_r in H; clear H);
    try (rewrite andb_true_r in H; rewrite H; cbn);
    repeat match goal with
           | |- context [if ?c then _ else _] => destruct c; cbn
           end;
    eexists; reflexivity.
Qed.

Lemma openMinuteWindow_frame (w : World) :
  clock (openMinuteWindow w) = clock w
  /\ trace (openMinuteWindow w) = trace w
  /\ table (openMinuteWindow w) = table w
  /\ aiCalls (openMinuteWindow w) = aiCalls w
  /\ dbCalls (openMinuteWindow w) = dbCalls w
  /\ dailyRequestCount (budget (openMinuteWindow w)) = dailyRequestCount (budget w)
  /\ dailyResetTime (budget (openMinuteWindow w)) = dailyResetTime (budget w)
  /\ lastRequestTime (budget (openMinuteWindow w)) = lastRequestTime (budget w).
Proof.
  unfold openMinuteWindow.
  destruct (clock w >? requestResetTime (budget w)); cbn; repeat split; reflexivity.
Qed.

Lemma dayQuotaSpent_iff (b : RateBudget) (t : Z) :
  dayQuotaSpent b t = true <-> 1000 <= dailyRequestCount b /\ t <= dailyResetTime b.
Proof.
  unfold dayQuotaSpent. rewrite andb_true_iff, negb_true_iff, Z.geb_leb, Z.gtb_ltb.
  rewrite Z.leb_le, Z.ltb_ge. reflexivity.
Qed.

(** Against C3 as it is worded.  The specification ends the day window
    "whenever current time >= dayWindowEnd"; the code starts a new
    window only when [now > dailyResetTime].  At the millisecond at
    which the window ends, with the day counter at the cap, the state is
    one of the claim's "other states", and [waitForRateLimit] throws the
    quota-exhausted error all the same. *)
Lemma acquire_fails_at_the_end_of_the_day_window :
  clock endOfDayWorld = dailyResetTime (budget endOfDayWorld)
  /\ dailyRequestCount (budget endOfDayWorld) = 1000
  /\ dayQuotaSpent_spec (budget endOfDayWorld) (clock endOfDayWorld) = false
  /\ waitForRateLimit endOfDayWorld
     = (Throw (newError quotaExhaustedMessage),
        set_budget (set_requestResetTime 86460000 spentBudget) endOfDayWorld)
  /\ ~ (forall w : World,
          dayQuotaSpent_spec (budget w) (clock w) = false ->
          fst (waitForRateLimit w) <> Throw (newError quotaExhaustedMessage)).
Proof.
  split; [reflexivity|]. split; [reflexivity|]. split; [reflexivity|].
  split; [reflexivity|].
  intros H. apply (H endOfDayWorld); reflexivity.
Qed.

(** C3 (amended). With the day counter at the cap of 1000 and the
    current time not after the end of the day window (the code's test
    [now > dailyResetTime] fails), [waitForRateLimit] throws the
    quota-exhausted error at once: the clock has not moved and nothing
    was added to the trace, so no sleep came first.  In every other
    state it returns normally. *)
Theorem acquire_fails_fast_iff_day_quota_spent (w : World) :
  (dayQuotaSpent (budget w) (clock w) = true
   <-> 1000 <= dailyRequestCount (budget w) /\ clock w <= dailyResetTime (budget w))
  /\ if dayQuotaSpent (budget w) (clock w)
     then fst (waitForRateLimit w) = Throw (newError quotaExhaustedMessage)
          /\ clock (snd (waitForRateLimit w)) = clock w
          /\ trace (snd (waitForRateLimit w)) = trace w
     else fst (waitForRateLimit w) = Ok tt.
Proof.
  split; [apply dayQuotaSpent_iff|].
  destruct (dayQuotaSpent (budget w) (clock w)) eqn:H.
  - rewrite (waitForRateLimit_spent w H). cbn.
    destruct (openMinuteWindow_frame w) as (Hc & Ht & _).
    repeat split; assumption.
  - destruct (waitForRateLimit_not_spent w H) as [w' Hw'].
    rewrite Hw'. reflexivity.
Qed.

(** C10. [resetCounters] sets the minute counter to 0 and the end of the
    minute window to now + 60 s, and leaves the day counter, the end of
    the day window and the time of the last call as they were; whether
    the day quota is spent is therefore the same before and after, and
    a spent quota still makes the next acquire fail. *)
Theorem resetCounters_keeps_daily_quota (w : World) :
  let w' := snd (resetCounters w) in
  fst (resetCounters w) = Ok tt
  /\ requestCount (budget w') = 0
  /\ requestResetTime (budget w') = clock w + 60000
  /\ dailyRequestCount (budget w') = dailyRequestCount (budget w)
  /\ dailyResetTime (budget w') = dailyResetTime (budget w)
  /\ lastRequestTime (budget w') = lastRequestTime (budget w)
  /\ clock w' = clock w
  /\ dayQuotaSpent (budget w') (clock w') = dayQuotaSpent (budget w) (clock w)
  /\ fst (waitForRateLimit w') = fst (waitForRateLimit w).
Proof.
  cbn zeta.
  assert (Hsp : dayQuotaSpent (budget (snd (resetCounters w))) (clock (snd (resetCounters w)))
                = dayQuotaSpent (budget w) (clock w)) by reflexivity.
  repeat split; try reflexivity.
  destruct (dayQuotaSpent (budget w) (clock w)) eqn:H.
  - rewrite (waitForRateLimit_spent w H).
    rewrite (waitForRateLimit_spent _ Hsp). reflexivity.
  - destruct (waitForRateLimit_not_spent w H) as [w1 H1].
    destruct (waitForRateLimit_not_spent _ Hsp) as [w2 H2].
    rewrite H1, H2. reflexivity.
Qed.

(** ** The retry executor *)

Lemma retryLoop_acquire_fails {T} (fn : M T) op mr d k attempt le (w : World) :
  dayQuotaSpent (budget w) (clock w) = true ->
  retryLoop fn op mr d (S k) attempt le w =
    if attempt <? mr - 1
    then retryLoop fn op mr d k (attempt + 1) (Some (newError quotaExhaustedMessage))
           (slept (backoffDelay d attempt) (openMinuteWindow w))
    else (Throw (newError quotaExhaustedMessage), openMinuteWindow w).
Proof.
  intros H. cbn [retryLoop]. unfold tryCatch at 1, bind at 1.
  rewrite (waitForRateLimit_spent w H). cbn.
  destruct (attempt <? mr - 1); reflexivity.
Qed.

Lemma retryLoop_attempt_fails {T} (fn : M T) op mr d k attempt le (w w1 w2 : World) e :
  waitForRateLimit w = (Ok tt, w1) ->
  fn w1 = (Throw e, w2) ->
  retryLoop fn op mr d (S k) attempt le w =
    if status_is e 404 then (Throw (modelNotAvailable e), w2)
    else if status_is e 429 then
      if attempt <? mr - 1
      then retryLoop fn op mr d k (attempt + 1) (Some e)
             (slept (rateLimitDelay d attempt e) w2)
      else (Throw (newError (rateLimitExceededMessage mr)), w2)
    else
      if attempt <? mr - 1
      then retryLoop fn op mr d k (attempt + 1) (Some e)
             (slept (backoffDelay d attempt) w2)
      else (Throw e, w2).
Proof.
  intros Hacq Hfn. cbn [retryLoop]. unfold tryCatch at 1, bind at 1.
  rewrite Hacq, Hfn.
  destruct (status_is e 404); [reflexivity|].
  destruct (status_is e 429); destruct (attempt <? mr - 1); reflexivity.
Qed.

Lemma retryLoop_attempt_succeeds {T} (fn : M T) op mr d k attempt le (w w1 w2 : World) x :
  waitForRateLimit w = (Ok tt, w1) ->
  fn w1 = (Ok x, w2) ->
  retryLoop fn op mr d (S k) attempt le w = (Ok x, w2).
Proof.
  intros Hacq Hfn. cbn [retryLoop]. unfold tryCatch at 1, bind at 1.
  rewrite Hacq, Hfn. reflexivity.
Qed.

Lemma backoffDelay_nonneg d attempt : 0 <= d -> 0 <= backoffDelay d attempt.
Proof.
  intros Hd. unfold backoffDelay. apply Z.mul_nonneg_nonneg; [assumption|].
  apply Z.pow_nonneg. lia.
Qed.

Lemma backoffTotal_nonneg d attempt n : 0 <= d -> 0 <= backoffTotal d attempt n.
Proof.
  intros Hd. revert attempt. induction n as [|n IH]; intros attempt; cbn [backoffTotal].
  - lia.
  - pose proof (backoffDelay_nonneg d attempt Hd). specialize (IH (attempt + 1)). lia.
Qed.

Lemma backoffTotal_closed d attempt n :
  0 <= attempt ->
  backoffTotal d attempt n = d * (2 ^ (attempt + Z.of_nat n) - 2 ^ attempt).
Proof.
  revert attempt. induction n as [|n IH]; intros attempt Ha; cbn [backoffTotal].
  - replace (attempt + Z.of_nat 0) with attempt by lia. lia.
  - rewrite IH by lia. unfold backoffDelay.
    replace (attempt + 1 + Z.of_nat n) with (attempt + Z.of_nat (S n)) by lia.
    rewrite (Z.pow_add_r 2 attempt 1) by lia. lia.
Qed.

Lemma retryLoop_spent {T} (fn : M T) op mr d (Hd : 0 <= d) :
  forall (n : nat) attempt le (w : World),
    Z.of_nat (S n) = mr - attempt ->
    dailyRequestCount (budget w) >= 1000 ->
    clock w + backoffTotal d attempt n <= dailyResetTime (budget w) ->
    retryLoop fn op mr d (S n) attempt le w
      = (Throw (newError quotaExhaustedMessage), spentRun mr d (S n) attempt w).
Proof.
  induction n as [|n IH]; intros attempt le w Hn Hcap Hday.
  - rewrite retryLoop_acquire_fails.
    + cbn [spentRun]. replace (attempt <? mr - 1) with false; [reflexivity|].
      symmetry. apply Z.ltb_ge. lia.
    + cbn [backoffTotal] in Hday. apply dayQuotaSpent_true; lia.
  - pose proof (backoffDelay_nonneg d attempt Hd) as Hb.
    pose proof (backoffTotal_nonneg d (attempt + 1) n Hd) as Ht.
    cbn [backoffTotal] in Hday.
    destruct (openMinuteWindow_frame w) as (Hc & _ & _ & _ & _ & Hdc & Hdr & _).
    rewrite retryLoop_acquire_fails.
    + cbn [spentRun]. replace (attempt <? mr - 1) with true.
      * apply IH.
        -- lia.
        -- cbn. rewrite Hdc. assumption.
        -- cbn. rewrite Hc, Hdr. lia.
      * symmetry. apply Z.ltb_lt. lia.
    + apply dayQuotaSpent_true; lia.
Qed.

Lemma spentRun_frame mr d (Hd : 0 <= d) :
  forall (n : nat) attempt (w : World),
    Z.of_nat (S n) = mr - attempt ->
    let w' := spentRun mr d (S n) attempt w in
    clock w' = clock w + backoffTotal d attempt n
    /\ trace w' = (trace w ++ backoffSleeps d attempt n)%list
    /\ table w' = table w
    /\ aiCalls w' = aiCalls w
    /\ dbCalls w' = dbCalls w
    /\ dailyRequestCount (budget w') = dailyRequestCount (budget w)
    /\ dailyResetTime (budget w') = dailyResetTime (budget w)
    /\ lastRequestTime (budget w') = lastRequestTime (budget w).
Proof.
  induction n as [|n IH]; intros attempt w Hn; cbn zeta.
  - cbn [spentRun backoffTotal backoffSleeps].
    replace (attempt <? mr - 1) with false by (symmetry; apply Z.ltb_ge; lia).
    destruct (openMinuteWindow_frame w) as (Hc & Htr & Htb & Hai & Hdb & Hdc & Hdr & Hl).
    rewrite Hc, Htr, Htb, Hai, Hdb, Hdc, Hdr, Hl, app_nil_r, Z.add_0_r.
    repeat split; reflexivity.
  - change (spentRun mr d (S (S n)) attempt w)
      with (if attempt <? mr - 1
            then spentRun mr d (S n) (attempt + 1)
                   (slept (backoffDelay d attempt) (openMinuteWindow w))
            else openMinuteWindow w).
    replace (attempt <? mr - 1) with true by (symmetry; apply Z.ltb_lt; lia).
    specialize (IH (attempt + 1) (slept (backoffDelay d attempt) (openMinuteWindow w))).
    cbn zeta in IH.
    destruct IH as (Hc & Htr & Htb & Hai & Hdb & Hdc & Hdr & Hl); [lia|].
    destruct (openMinuteWindow_frame w) as (Hc0 & Htr0 & Htb0 & Hai0 & Hdb0 & Hdc0 & Hdr0 & Hl0).
    pose proof (backoffDelay_nonneg d attempt Hd) as Hb.
    rewrite Hc, Htr, Htb, Hai, Hdb, Hdc, Hdr, Hl. cbn.
    rewrite Hc0, Htr0, Htb0, Hai0, Hdb0, Hdc0, Hdr0, Hl0.
    cbn [backoffTotal backoffSleeps]. rewrite <- app_assoc. cbn [app].
    rewrite Z.max_r by assumption.
    repeat split; try reflexivity. lia.
Qed.

Lemma waitForRateLimit_throws_quota (w w1 : World) (e : JsError) :
  waitForRateLimit w = (Throw e, w1) ->
  e = newError quotaExhaustedMessage /\ w1 = openMinuteWindow w
  /\ dayQuotaSpent (budget w) (clock w) = true.
Proof.
  intros H. destruct (dayQuotaSpent (budget w) (clock w)) eqn:Hs.
  - rewrite (waitForRateLimit_spent w Hs) in H. injection H as <- <-. auto.
  - destruct (waitForRateLimit_not_spent w Hs) as [w' Hw']. congruence.
Qed.

Lemma status_is_true (e : JsError) (code : Z) : status_is e code = true <-> status e = Some code.
Proof.
  unfold status_is. destruct (status e) as [s|].
  - rewrite Z.eqb_eq. split; congruence.
  - split; discriminate.
Qed.

Lemma status_is_false (e : JsError) (code : Z) : status_is e code = false <-> status e <> Some code.
Proof.
  rewrite <- status_is_true. destruct (status_is e code); split; congruence.
Qed.

Lemma retryLoop_Attempts {T} (fn : M T) (op : string) (mr d : Z) :
  forall (n : nat) (attempt : Z) (le : option JsError) (w : World),
    Z.of_nat (S n) = mr - attempt ->
    Attempts fn mr d attempt w (retryLoop fn op mr d (S n) attempt le w).
Proof.
  induction n as [|n IH]; intros attempt le w Hn.
  - destruct (waitForRateLimit w) as [[[]|e] w1] eqn:Hacq.
    + destruct (fn w1) as [[x|e] w2] eqn:Hfn.
      * rewrite (retryLoop_attempt_succeeds fn op mr d 0 attempt le w w1 w2 x Hacq Hfn).
        eapply AttemptReturns; eassumption.
      * rewrite (retryLoop_attempt_fails fn op mr d 0 attempt le w w1 w2 e Hacq Hfn).
        replace (attempt <? mr - 1) with false by (symmetry; apply Z.ltb_ge; lia).
        destruct (status_is e 404) eqn:H404.
        { eapply NotFound; try eassumption. apply status_is_true; assumption. }
        destruct (status_is e 429) eqn:H429.
        { eapply RateLimitedLast; try eassumption; [apply status_is_true; assumption|lia]. }
        eapply OtherFailureLast; try eassumption;
          [apply status_is_false; assumption|apply status_is_false; assumption|lia].
    + destruct (waitForRateLimit_throws_quota w w1 e Hacq) as (-> & -> & Hs).
      rewrite (retryLoop_acquire_fails fn op mr d 0 attempt le w Hs).
      replace (attempt <? mr - 1) with false by (symmetry; apply Z.ltb_ge; lia).
      eapply AcquireFailedLast; [eassumption|lia].
  - destruct (waitForRateLimit w) as [[[]|e] w1] eqn:Hacq.
    + destruct (fn w1) as [[x|e] w2] eqn:Hfn.
      * rewrite (retryLoop_attempt_succeeds fn op mr d (S n) attempt le w w1 w2 x Hacq Hfn).
        eapply AttemptReturns; eassumption.
      * rewrite (retryLoop_attempt_fails fn op mr d (S n) attempt le w w1 w2 e Hacq Hfn).
        replace (attempt <? mr - 1) with true by (symmetry; apply Z.ltb_lt; lia).
        destruct (status_is e 404) eqn:H404.
        { eapply NotFound; try eassumption. apply status_is_true; assumption. }
        destruct (status_is e 429) eqn:H429.
        { eapply RateLimited; try eassumption; [apply status_is_true; assumption|lia|].
          apply IH. lia. }
        eapply OtherFailure; try eassumption;
          [apply status_is_false; assumption|apply status_is_false; assumption|lia|].
        apply IH. lia.
    + destruct (waitForRateLimit_throws_quota w w1 e Hacq) as (-> & -> & Hs).
      rewrite (retryLoop_acquire_fails fn op mr d (S n) attempt le w Hs).
      replace (attempt <? mr - 1) with true by (symmetry; apply Z.ltb_lt; lia).
      eapply AcquireFailed; [eassumption|lia|]. apply IH. lia.
Qed.

Lemma Attempts_functional {T} (fn : M T) (mr d : Z) (attempt : Z) (w : World)
    (out1 out2 : Res T * World) :
  Attempts fn mr d attempt w out1 -> Attempts fn mr d attempt w out2 -> out1 = out2.
Proof.
  intros Hfirst. revert out2.
  induction Hfirst; intros out2 Hsecond; inversion Hsecond; subst;
    repeat match goal with
           | Ha : ?x = _, Hb : ?x = _ |- _ => rewrite Ha in Hb; inversion Hb; subst; clear Hb
           end;
    try reflexivity; try congruence; try lia; auto.
Qed.

Lemma retryLoop_sees_acquired_worlds {T} (fn fn' : M T) (op : string) (mr d : Z) :
  (forall w0 w1, waitForRateLimit w0 = (Ok tt, w1) -> fn' w1 = fn w1) ->
  forall (n : nat) (attempt : Z) (le : option JsError) (w : World),
    retryLoop fn' op mr d n attempt le w = retryLoop fn op mr d n attempt le w.
Proof.
  intros Hsame. induction n as [|n IH]; intros attempt le w; [reflexivity|].
  destruct (waitForRateLimit w) as [[[]|e] w1] eqn:Hacq.
  - pose proof (Hsame w w1 Hacq) as Hfn'.
    destruct (fn w1) as [[x|e] w2] eqn:Hfn.
    + rewrite (retryLoop_attempt_succeeds fn' op mr d n attempt le w w1 w2 x Hacq Hfn').
      rewrite (retryLoop_attempt_succeeds fn op mr d n attempt le w w1 w2 x Hacq Hfn).
      reflexivity.
    + rewrite (retryLoop_attempt_fails fn' op mr d n attempt le w w1 w2 e Hacq Hfn').
      rewrite (retryLoop_attempt_fails fn op mr d n attempt le w w1 w2 e Hacq Hfn).
      rewrite !IH. reflexivity.
  - destruct (waitForRateLimit_throws_quota w w1 e Hacq) as (_ & _ & Hs).
    rewrite !(retryLoop_acquire_fails _ op mr d n attempt le w Hs).
    rewrite IH. reflexivity.
Qed.

(** Against C4 as it is worded.  With the day quota spent, a run with
    the defaults (three attempts, 3 s) does end with the quota-exhausted
    error, but only after two backoff sleeps of 3 s and 6 s. *)
Lemma retry_sleeps_before_propagating :
  dayQuotaSpent (budget spentWorld) (clock spentWorld) = true
  /\ retryWithBackoff (callGenerateContent (answering 768 []) "prompt")
       "Summary generation" None None spentWorld
     = (Throw (newError quotaExhaustedMessage),
        {| clock := 43209000;
           budget := set_requestResetTime 43260000 spentBudget;
           table := []; aiCalls := 0; dbCalls := 0;
           trace := [EvSleep 3000; EvSleep 6000] |})
  /\ ~ propagates_at_once
         (retryWithBackoff (callGenerateContent (answering 768 []) "prompt")
            "Summary generation" None None) spentWorld.
Proof.
  split; [reflexivity|]. split; [reflexivity|].
  intros (_ & Hclock & _). vm_compute in Hclock. discriminate Hclock.
Qed.

(** C4 (amended). In every run of the executor every attempt begins with
    an acquire, and the operation is invoked only in the world a
    returned acquire has left: the run is the one the relation
    [Attempts] describes, and it is the same for two operations that
    agree on such worlds.  An attempt whose acquire fails does not
    invoke the operation; the failure is handled like any failure that
    is neither 404 nor 429: while [attempt < mr - 1] the executor sleeps
    [d * 2^attempt] and starts the next attempt, and in the last attempt
    it re-throws the quota-exhausted error.  With the day quota spent
    for the whole run, a run of [mr] attempts is [mr] failed acquires
    separated by the backoff sleeps [d * 2^0, ..., d * 2^(mr-2)], after
    which the quota-exhausted error is re-thrown; the operation is
    never invoked, so that the run is the same for every operation. *)
Theorem retry_backs_off_on_spent_quota {T} (fn : M T) (op : string) (mr d : Z) (w : World) :
  let r := retryWithBackoff fn op (Some mr) (Some d) w in
  (1 <= mr ->
     Attempts fn mr d 0 w r
     /\ forall out, Attempts fn mr d 0 w out -> out = r)
  /\ (forall fn' : M T,
        (forall w0 w1, waitForRateLimit w0 = (Ok tt, w1) -> fn' w1 = fn w1) ->
        retryWithBackoff fn' op (Some mr) (Some d) w = r)
  /\ r = retryLoop fn op mr d (Z.to_nat mr) 0 None w
  /\ (forall (k : nat) (attempt : Z) (le : option JsError) (w0 : World),
        dailyRequestCount (budget w0) >= 1000 ->
        clock w0 <= dailyResetTime (budget w0) ->
        retryLoop fn op mr d (S k) attempt le w0
        = if attempt <? mr - 1
          then retryLoop fn op mr d k (attempt + 1) (Some (newError quotaExhaustedMessage))
                 (slept (d * 2 ^ attempt) (openMinuteWindow w0))
          else (Throw (newError quotaExhaustedMessage), openMinuteWindow w0))
  /\ (1 <= mr -> 0 <= d ->
      dailyRequestCount (budget w) >= 1000 ->
      clock w + d * (2 ^ (mr - 1) - 1) <= dailyResetTime (budget w) ->
      fst r = Throw (newError quotaExhaustedMessage)
      /\ (forall fn' : M T, retryWithBackoff fn' op (Some mr) (Some d) w = r)
      /\ clock (snd r) = clock w + d * (2 ^ (mr - 1) - 1)
      /\ trace (snd r) = (trace w ++ backoffSleeps d 0 (Z.to_nat (mr - 1)))%list
      /\ aiCalls (snd r) = aiCalls w
      /\ table (snd r) = table w
      /\ dbCalls (snd r) = dbCalls w).
Proof.
  cbn zeta. unfold retryWithBackoff.
  split; [|split; [|split; [|split]]].
  - intros Hmr.
    assert (Hex : Attempts fn mr d 0 w (retryLoop fn op mr d (Z.to_nat mr) 0 None w)).
    { replace (Z.to_nat mr) with (S (Z.to_nat (mr - 1))) by lia.
      apply retryLoop_Attempts. lia. }
    split; [exact Hex|].
    intros out Hout. exact (Attempts_functional fn mr d 0 w _ _ Hout Hex).
  - intros fn' Hsame. apply retryLoop_sees_acquired_worlds. exact Hsame.
  - reflexivity.
  - intros k attempt le w0 Hcap Hday.
    apply (retryLoop_acquire_fails fn op mr d k attempt le w0).
    apply dayQuotaSpent_true; assumption.
  - intros Hmr Hd Hcap Hday.
    assert (Hn : Z.to_nat mr = S (Z.to_nat (mr - 1))) by lia.
    assert (Htot : backoffTotal d 0 (Z.to_nat (mr - 1)) = d * (2 ^ (mr - 1) - 1)).
    { rewrite backoffTotal_closed by lia.
      replace (0 + Z.of_nat (Z.to_nat (mr - 1))) with (mr - 1) by lia.
      rewrite Z.pow_0_r. reflexivity. }
    assert (Hrun : forall f : M T,
              retryLoop f op mr d (Z.to_nat mr) 0 None w
              = (Throw (newError quotaExhaustedMessage),
                 spentRun mr d (S (Z.to_nat (mr - 1))) 0 w)).
    { intros f. rewrite Hn. apply retryLoop_spent; try assumption; lia. }
    rewrite (Hrun fn). cbn [fst snd].
    destruct (spentRun_frame mr d Hd (Z.to_nat (mr - 1)) 0 w)
      as (Hc & Htr & Htb & Hai & Hdb & _); [lia|].
    rewrite Htot in Hc.
    repeat split; assumption.
Qed.

Lemma retry_backs_off_on_spent_quota_witness :
  let r := retryWithBackoff (callGenerateContent (answering 768 []) "prompt")
             "Summary generation" (Some 3) (Some 3000) spentWorld in
  fst r = Throw (newError quotaExhaustedMessage)
  /\ clock (snd r) = 43200000 + 3000 * (2 ^ (3 - 1) - 1)
  /\ trace (snd r) = [EvSleep 3000; EvSleep 6000]
  /\ aiCalls (snd r) = 0%nat.
Proof.
  destruct (retry_backs_off_on_spent_quota
              (callGenerateContent (answering 768 []) "prompt")
              "Summary generation" 3 3000 spentWorld)
    as (_ & _ & _ & _ & Hspent).
  destruct Hspent as (Hr & _ & Hc & Htr & Hai & _).
  - lia.
  - lia.
  - cbn. lia.
  - cbn. lia.
  - cbn zeta. repeat split; assumption.
Defined.

Lemma waitForRateLimit_frame (w : World) :
  table (snd (waitForRateLimit w)) = table w
  /\ aiCalls (snd (waitForRateLimit w)) = aiCalls w
  /\ dbCalls (snd (waitForRateLimit w)) = dbCalls w.
Proof.
  run_monad.
  repeat match goal with
         | |- context [if ?c then _ else _] => destruct c; cbn
         end;
    repeat split; reflexivity.
Qed.

(** Every try of an operation that calls the Gemini client once is one
    call more; the executor makes at most as many as it has rounds. *)
Lemma retryLoop_tries_bounded {T} (fn : M T) op mr d
    (Hfn : forall w, aiCalls (snd (fn w)) = S (aiCalls w)) :
  forall (n : nat) attempt le (w : World),
    (aiCalls (snd (retryLoop fn op mr d n attempt le w)) <= aiCalls w + n)%nat.
Proof.
  induction n as [|n IH]; intros attempt le w.
  - cbn. lia.
  - cbn [retryLoop]. unfold tryCatch at 1, bind at 1.
    destruct (waitForRateLimit_frame w) as (_ & Hai & _).
    destruct (waitForRateLimit w) as [[[]|e] w1]; cbn [snd] in Hai.
    + specialize (Hfn w1).
      destruct (fn w1) as [[x|e] w2]; cbn [snd] in Hfn |- *; [lia|].
      destruct (status_is e 404); [cbn; lia|].
      destruct (status_is e 429); destruct (attempt <? mr - 1);
        try (cbn; lia);
        unfold bind at 1; cbn [sleep modify];
        match goal with
        | |- context [retryLoop fn op mr d n ?a ?l ?w'] =>
            specialize (IH a l w'); cbn in IH |- *; lia
        end.
    + destruct (status_is e 404); [cbn; lia|].
      destruct (status_is e 429); destruct (attempt <? mr - 1);
        try (cbn; lia);
        unfold bind at 1; cbn [sleep modify];
        match goal with
        | |- context [retryLoop fn op mr d n ?a ?l ?w'] =>
            specialize (IH a l w'); cbn in IH |- *; lia
        end.
Qed.

Lemma rateLimitExceeded_is_not_quotaExhausted (mr : Z) :
  rateLimitExceededMessage mr <> quotaExhaustedMessage.
Proof. unfold rateLimitExceededMessage, quotaExhaustedMessage. cbn. discriminate. Qed.

(** C5. A run of the executor, for every operation and every pair of
    arguments (the defaults are 3 attempts and 3000 ms), is the run that
    [Attempts] describes from attempt 0 on, and no other; with
    [maxRetries <= 0] no attempt is made.  An attempt in which the
    operation fails with [e] goes one of three ways.  With status 404
    the run ends there, after this one try, with the permanent error "AI
    model not available".  With status 429 the executor sleeps
    max(suggested delay, d * 2^attempt) and starts the next attempt
    while [attempt < mr - 1], and otherwise fails with "Rate limit
    exceeded after mr attempts", a message that is not the one of the
    rate limiter.  With any other failure it sleeps [d * 2^attempt] and
    starts the next attempt while [attempt < mr - 1], and otherwise
    re-throws [e].  The first attempt is number 0, and an operation is
    tried at most [mr] times. *)
Theorem retry_classification {T} (fn : M T) (op : string)
    (maxRetries initialDelay : option Z) (w0 : World) :
  let mr := match maxRetries with Some n => n | None => 3 end in
  let d := match initialDelay with Some x => x | None => 3000 end in
  let run := retryWithBackoff fn op maxRetries initialDelay w0 in
  (1 <= mr ->
     Attempts fn mr d 0 w0 run
     /\ forall out, Attempts fn mr d 0 w0 out -> out = run)
  /\ (mr <= 0 ->
        run = (Throw (newError (op ++ " failed after " ++ string_of_Z mr ++ " attempts")),
               w0))
  /\ (forall (k : nat) (attempt : Z) (le : option JsError) (w w1 w2 : World) (e : JsError),
        waitForRateLimit w = (Ok tt, w1) ->
        fn w1 = (Throw e, w2) ->
        let r := retryLoop fn op mr d (S k) attempt le w in
        let again delay :=
          retryLoop fn op mr d k (attempt + 1) (Some e)
            (mkWorld (clock w2 + Z.max 0 delay) (budget w2) (table w2) (aiCalls w2)
               (dbCalls w2) (trace w2 ++ [EvSleep delay])) in
        (status e = Some 404 ->
           r = (Throw (newError ("AI model not available: " ++ message e)), w2))
        /\ (status e = Some 429 ->
              (attempt < mr - 1 ->
                 r = again (match retryInfoDelay e with
                            | Some suggested => Z.max suggested (d * 2 ^ attempt)
                            | None => d * 2 ^ attempt
                            end))
              /\ (mr - 1 <= attempt ->
                    r = (Throw (newError (rateLimitExceededMessage mr)), w2)))
        /\ (status e <> Some 404 -> status e <> Some 429 ->
              (attempt < mr - 1 -> r = again (d * 2 ^ attempt))
              /\ (mr - 1 <= attempt -> r = (Throw e, w2))))
  /\ rateLimitExceededMessage mr <> quotaExhaustedMessage
  /\ retryWithBackoff fn op None None = retryWithBackoff fn op (Some 3) (Some 3000)
  /\ ((forall w, aiCalls (snd (fn w)) = S (aiCalls w)) ->
      (aiCalls (snd run) <= aiCalls w0 + Z.to_nat mr)%nat).
Proof.
  cbn zeta.
  set (mr := match maxRetries with Some n => n | None => 3 end).
  set (d := match initialDelay with Some x => x | None => 3000 end).
  assert (Hrun : retryWithBackoff fn op maxRetries initialDelay w0
                 = retryLoop fn op mr d (Z.to_nat mr) 0 None w0) by reflexivity.
  rewrite Hrun.
  split; [|split; [|split; [|split; [|split]]]].
  - intros Hmr.
    assert (Hex : Attempts fn mr d 0 w0 (retryLoop fn op mr d (Z.to_nat mr) 0 None w0)).
    { replace (Z.to_nat mr) with (S (Z.to_nat (mr - 1))) by lia.
      apply retryLoop_Attempts. lia. }
    split; [exact Hex|].
    intros out Hout. exact (Attempts_functional fn mr d 0 w0 _ _ Hout Hex).
  - intros Hmr. replace (Z.to_nat mr) with O by lia. reflexivity.
  - intros k attempt le w w1 w2 e Hacq Hfn. cbn zeta.
    rewrite (retryLoop_attempt_fails fn op mr d k attempt le w w1 w2 e Hacq Hfn).
    unfold status_is.
    split; [|split].
    + intros Hs. rewrite Hs. reflexivity.
    + intros Hs. rewrite Hs. cbn. split.
      * intros Hlt. apply Z.ltb_lt in Hlt. rewrite Hlt. reflexivity.
      * intros Hge. apply Z.ltb_ge in Hge. rewrite Hge. reflexivity.
    + intros H404 H429.
      assert (Hother : (match status e with Some s => s =? 404 | None => false end) = false
                       /\ (match status e with Some s => s =? 429 | None => false end) = false).
      { destruct (status e) as [s|]; [|split; reflexivity].
        destruct (Z.eqb_spec s 404); [congruence|].
        destruct (Z.eqb_spec s 429); [congruence|]. split; reflexivity. }
      destruct Hother as [H1 H2]. rewrite H1, H2. split.
      * intros Hlt. apply Z.ltb_lt in Hlt. rewrite Hlt. reflexivity.
      * intros Hge. apply Z.ltb_ge in Hge. rewrite Hge. reflexivity.
  - apply rateLimitExceeded_is_not_quotaExhausted.
  - reflexivity.
  - intros Hone. apply retryLoop_tries_bounded. assumption.
Qed.

Lemma retry_classification_witness :
  let fn := callGenerateContent (failingFirst 3 429 "Too Many Requests" []) "prompt" in
  fst (retryWithBackoff fn "Summary generation" None None freshWorld)
  = Throw (newError "Rate limit exceeded after 3 attempts. Please reduce batch size or wait.")
  /\ Attempts fn 3 3000 0 freshWorld
       (retryWithBackoff fn "Summary generation" None None freshWorld)
  /\ (aiCalls (snd (retryWithBackoff fn "Summary generation" None None freshWorld))
      <= 0 + 3)%nat.
Proof.
  cbn zeta.
  split; [vm_compute; reflexivity|].
  destruct (retry_classification
              (callGenerateContent (failingFirst 3 429 "Too Many Requests" []) "prompt")
              "Summary generation" None None freshWorld)
    as (Hrun & _ & _ & _ & _ & Htries).
  split.
  - destruct Hrun as (Hex & _); [lia|]. exact Hex.
  - apply Htries. intros w. reflexivity.
Defined.

(** The scenarios of the specification.  "Not found" is tried once. *)
Example not_found_is_tried_once :
  let r := retryWithBackoff (callGenerateContent (failing 404 "models/x is not found" []) "prompt")
             "Summary generation" None None freshWorld in
  fst r = Throw (newError "AI model not available: models/x is not found")
  /\ aiCalls (snd r) = 1%nat
  /\ trace (snd r) = [EvSleep 6000; EvGenerateContent "prompt"].
Proof. cbn zeta. repeat split; reflexivity. Qed.

(** "Rate limited" three times, then an answer: the third failure ends
    the run, and the answer is never asked for. *)
Example rate_limited_three_times :
  let r := retryWithBackoff
             (callGenerateContent (failingFirst 3 429 "Too Many Requests" []) "prompt")
             "Summary generation" None None freshWorld in
  fst r = Throw (newError "Rate limit exceeded after 3 attempts. Please reduce batch size or wait.")
  /\ aiCalls (snd r) = 3%nat
  /\ trace (snd r) = [EvSleep 6000; EvGenerateContent "prompt"; EvSleep 3000;
                      EvSleep 3000; EvGenerateContent "prompt"; EvSleep 6000;
                      EvGenerateContent "prompt"].
Proof. cbn zeta. repeat split; reflexivity. Qed.

(** A transient failure, then an answer: the run succeeds after one
    backoff sleep. *)
Example transient_then_success :
  let r := retryWithBackoff
             (callGenerateContent (failingFirst 1 503 "Service Unavailable" []) "prompt")
             "Summary generation" None None freshWorld in
  fst r = Ok "A summary."
  /\ aiCalls (snd r) = 2%nat
  /\ trace (snd r) = [EvSleep 6000; EvGenerateContent "prompt"; EvSleep 3000;
                      EvSleep 3000; EvGenerateContent "prompt"].
Proof. cbn zeta. repeat split; reflexivity. Qed.

(** ** Framing: what a method leaves alone *)

Section Respects.

Variable R : World -> World -> Prop.
Hypothesis R_refl : forall w, R w w.
Hypothesis R_trans : forall w1 w2 w3, R w1 w2 -> R w2 w3 -> R w1 w3.

Lemma respects_ret {A} (a : A) : respects R (ret a).
Proof. intros w. apply R_refl. Qed.

Lemma respects_throw {A} (e : JsError) : respects R (@throw A e).
Proof. intros w. apply R_refl. Qed.

Lemma respects_now : respects R now.
Proof. intros w. apply R_refl. Qed.

Lemma respects_get : respects R get.
Proof. intros w. apply R_refl. Qed.

Lemma respects_read_budget {A} (f : RateBudget -> A) : respects R (read_budget f).
Proof. intros w. apply R_refl. Qed.

Lemma respects_modify (f : World -> World) :
  (forall w, R w (f w)) -> respects R (modify f).
Proof. intros H w. apply H. Qed.

Lemma respects_bind {A B} (m : M A) (k : A -> M B) :
  respects R m -> (forall a, respects R (k a)) -> respects R (bind m k).
Proof.
  intros Hm Hk w. unfold bind. specialize (Hm w).
  destruct (m w) as [[a|e] w1]; cbn [snd] in Hm |- *.
  - eapply R_trans; [exact Hm|apply Hk].
  - exact Hm.
Qed.

Lemma respects_tryCatch {A} (m : M A) (h : JsError -> M A) :
  respects R m -> (forall e, respects R (h e)) -> respects R (tryCatch m h).
Proof.
  intros Hm Hh w. unfold tryCatch. specialize (Hm w).
  destruct (m w) as [[a|e] w1]; cbn [snd] in Hm |- *.
  - exact Hm.
  - eapply R_trans; [exact Hm|apply Hh].
Qed.

Lemma respects_when (c : bool) (m : M unit) : respects R m -> respects R (when c m).
Proof. intros Hm. destruct c; [exact Hm|apply respects_ret]. Qed.

Lemma respects_forEachArticle (body : NewsArticle -> Counters -> M (Counters * bool)) :
  (forall article c, respects R (body article c)) ->
  forall articles c, respects R (forEachArticle body articles c).
Proof.
  intros Hbody. induction articles as [|article rest IH]; intros c; cbn [forEachArticle].
  - apply respects_ret.
  - apply respects_bind; [apply Hbody|].
    intros [c' b]. cbn [fst snd]. destruct b; [apply respects_ret|apply IH].
Qed.

(** The rate limiter and the retry executor touch the clock, the
    budget and the trace (by sleeping) only. *)
Hypothesis R_sleep : forall ms w, R w (slept ms w).
Hypothesis R_budget : forall b w, R w (set_budget b w).

Lemma respects_sleep (ms : Z) : respects R (sleep ms).
Proof. apply respects_modify. intros w. apply R_sleep. Qed.

Lemma respects_update_budget (f : RateBudget -> RateBudget) :
  respects R (update_budget f).
Proof. apply respects_modify. intros w. apply R_budget. Qed.

Ltac framing :=
  repeat first
    [ apply respects_ret | apply respects_throw | apply respects_now
    | apply respects_get | apply respects_read_budget
    | apply respects_sleep | apply respects_update_budget
    | apply respects_when
    | apply respects_bind; [|intros ?]
    | apply respects_tryCatch; [|intros ?]
    | match goal with
      | |- respects _ (if ?c then _ else _) => destruct c
      | |- respects _ (match ?o with Some _ => _ | None => _ end) => destruct o
      end ].

Lemma respects_waitForRateLimit : respects R waitForRateLimit.
Proof. unfold waitForRateLimit. framing. Qed.

Lemma respects_resetCounters : respects R resetCounters.
Proof. unfold resetCounters. framing. Qed.

Lemma respects_retryLoop {T} (fn : M T) op mr d :
  respects R fn ->
  forall n attempt le, respects R (retryLoop fn op mr d n attempt le).
Proof.
  intros Hfn. induction n as [|n IH]; intros attempt le; cbn [retryLoop].
  - framing.
  - apply respects_tryCatch.
    + apply respects_bind; [apply respects_waitForRateLimit|intros _; exact Hfn].
    + intros e. framing; apply IH.
Qed.

Lemma respects_retryWithBackoff {T} (fn : M T) op mr d :
  respects R fn -> respects R (retryWithBackoff fn op mr d).
Proof. intros Hfn. unfold retryWithBackoff. apply respects_retryLoop. exact Hfn. Qed.

Lemma respects_generateSummary env text :
  respects R (callGenerateContent env (summaryPrompt (truncateForSummary text))) ->
  respects R (generateSummary env text).
Proof.
  intros Hcall. unfold generateSummary. cbn zeta.
  apply respects_tryCatch; [|intros e; framing].
  apply respects_retryWithBackoff.
  apply respects_bind; [exact Hcall|intros a; framing].
Qed.

Lemma respects_generateEmbedding env text :
  respects R (callEmbedContent env (truncateForEmbedding text)) ->
  respects R (generateEmbedding env text).
Proof.
  intros Hcall. unfold generateEmbedding. cbn zeta.
  apply respects_tryCatch; [|intros e; framing].
  apply respects_bind.
  - apply respects_retryWithBackoff. exact Hcall.
  - intros [v|]; framing.
Qed.

Lemma respects_generateSummaryAndEmbedding env text :
  respects R (callGenerateContent env (summaryPrompt (truncateForSummary text))) ->
  respects R (callEmbedContent env (truncateForEmbedding text)) ->
  respects R (generateSummaryAndEmbedding env text).
Proof.
  intros Hs He. unfold generateSummaryAndEmbedding.
  apply respects_tryCatch; [|intros e; framing].
  apply respects_bind; [apply respects_generateSummary; exact Hs|intros s].
  apply respects_bind; [apply respects_sleep|intros _].
  apply respects_bind; [apply respects_generateEmbedding; exact He|intros v].
  framing.
Qed.

End Respects.

Lemma sameStore_refl w : sameStore w w.
Proof. split; reflexivity. Qed.

Lemma sameStore_trans w1 w2 w3 : sameStore w1 w2 -> sameStore w2 w3 -> sameStore w1 w3.
Proof. intros [H1 H2] [H3 H4]. split; congruence. Qed.

Lemma emitted_refl P w : emitted P w w.
Proof. exists []. split; [symmetry; apply app_nil_r|constructor]. Qed.

Lemma emitted_trans P w1 w2 w3 : emitted P w1 w2 -> emitted P w2 w3 -> emitted P w1 w3.
Proof.
  intros (l1 & H1 & F1) (l2 & H2 & F2). exists (l1 ++ l2)%list. split.
  - rewrite H2, H1. symmetry. apply app_assoc.
  - apply Forall_app. split; assumption.
Qed.

Lemma emitted_log (P : Event -> Prop) ev w w' :
  P ev -> trace w' = trace w -> emitted P w (log ev w').
Proof.
  intros HP Ht. exists [ev]. cbn. rewrite Ht. split; [reflexivity|].
  constructor; [exact HP|constructor].
Qed.

Lemma emitted_same (P : Event -> Prop) w w' : trace w' = trace w -> emitted P w w'.
Proof. intros Ht. exists []. rewrite Ht, app_nil_r. split; [reflexivity|constructor]. Qed.

Lemma emitted_weaken (P Q : Event -> Prop) w w' :
  (forall ev, P ev -> Q ev) -> emitted P w w' -> emitted Q w w'.
Proof.
  intros HPQ (l & Hl & F). exists l. split; [exact Hl|].
  eapply Forall_impl; [exact HPQ|exact F].
Qed.

Lemma emitted_In P w w' ev :
  emitted P w w' -> In ev (trace w') -> In ev (trace w) \/ P ev.
Proof.
  intros (l & Hl & F) Hin. rewrite Hl in Hin. apply in_app_or in Hin.
  destruct Hin as [Hin|Hin]; [left; exact Hin|right].
  rewrite Forall_forall in F. apply F. exact Hin.
Qed.

(** The enricher does not touch the store. *)
Lemma enrichment_sameStore env text :
  respects sameStore (generateSummaryAndEmbedding env text).
Proof.
  apply respects_generateSummaryAndEmbedding.
  - apply sameStore_refl.
  - apply sameStore_trans.
  - intros ms w. split; reflexivity.
  - intros b w. split; reflexivity.
  - intros w. split; reflexivity.
  - intros w. split; reflexivity.
Qed.

Lemma generateSummary_emitted env text :
  respects (emitted (summaryEvent text)) (generateSummary env text).
Proof.
  apply respects_generateSummary.
  - apply emitted_refl.
  - apply emitted_trans.
  - intros ms w. apply emitted_log; [left; exact I|reflexivity].
  - intros b w. apply emitted_same. reflexivity.
  - intros w. apply emitted_log; [right; reflexivity|reflexivity].
Qed.

Lemma generateEmbedding_emitted env text :
  respects (emitted (embeddingEvent text)) (generateEmbedding env text).
Proof.
  apply respects_generateEmbedding.
  - apply emitted_refl.
  - apply emitted_trans.
  - intros ms w. apply emitted_log; [left; exact I|reflexivity].
  - intros b w. apply emitted_same. reflexivity.
  - intros w. apply emitted_log; [right; reflexivity|reflexivity].
Qed.

Lemma enrichment_emitted env text :
  respects (emitted isEnrichment) (generateSummaryAndEmbedding env text).
Proof.
  apply respects_generateSummaryAndEmbedding.
  - apply emitted_refl.
  - apply emitted_trans.
  - intros ms w. apply emitted_log; [exact I|reflexivity].
  - intros b w. apply emitted_same. reflexivity.
  - intros w. apply emitted_log; [exact I|reflexivity].
  - intros w. apply emitted_log; [exact I|reflexivity].
Qed.

(** ** The enricher: truncation *)

Lemma length_append (s1 s2 : string) :
  String.length (s1 ++ s2) = (String.length s1 + String.length s2)%nat.
Proof. induction s1 as [|c s1 IH]; cbn; [reflexivity|rewrite IH; reflexivity]. Qed.

Lemma length_substring_0 (n : nat) (s : string) :
  String.length (String.substring 0 n s) = Nat.min n (String.length s).
Proof.
  revert s. induction n as [|n IH]; intros [|c s]; cbn; try reflexivity.
  rewrite IH. reflexivity.
Qed.

Lemma prefix_substring_0 (n : nat) (s : string) :
  String.prefix (String.substring 0 n s) s = true.
Proof.
  revert s. induction n as [|n IH]; intros [|c s]; cbn; try reflexivity.
  destruct (ascii_dec c c) as [_|Hne]; [apply IH|contradiction].
Qed.

Lemma prefix_refl (s : string) : String.prefix s s = true.
Proof.
  induction s as [|c s IH]; cbn; [reflexivity|].
  destruct (ascii_dec c c) as [_|Hne]; [exact IH|contradiction].
Qed.

(** Against C9 as it is worded.  A text of 3001 code units is cut to
    3000 and gets the three dots of the ellipsis: 3003 code units go
    into the prompt. *)
Lemma summary_input_exceeds_limit :
  String.length (replicate 3001 "a") = 3001%nat
  /\ truncateForSummary (replicate 3001 "a") = replicate 3000 "a" ++ "..."
  /\ String.length (truncateForSummary (replicate 3001 "a")) = 3003%nat
  /\ trace (snd (generateSummary (answering 768 []) (replicate 3001 "a") freshWorld))
     = [EvSleep 6000; EvGenerateContent (summaryPrompt (replicate 3000 "a" ++ "..."))]
  /\ ~ summary_input_within_limit (replicate 3001 "a").
Proof.
  split; [vm_compute; reflexivity|].
  split; [vm_compute; reflexivity|].
  split; [vm_compute; reflexivity|].
  split; [vm_compute; reflexivity|].
  unfold summary_input_within_limit.
  replace (String.length (truncateForSummary (replicate 3001 "a"))) with 3003%nat
    by (vm_compute; reflexivity).
  lia.
Qed.

(** C9 (amended). While it works on [text], [generateSummary] submits
    nothing but the prompt built around [truncateForSummary text], and
    [generateEmbedding] nothing but [truncateForEmbedding text].  A text
    of at most 3000 code units goes into the prompt unchanged, a longer
    one as its first 3000 code units followed by "...", 3003 code units
    in all.  The text submitted for the embedding is a prefix of [text]
    of at most 2000 code units, and [text] itself when that is short
    enough.  Both are functions of [text] alone. *)
Theorem truncation_policy (env : Env) (text : string) (w : World) :
  emitted (summaryEvent text) w (snd (generateSummary env text w))
  /\ emitted (embeddingEvent text) w (snd (generateEmbedding env text w))
  /\ truncateForSummary text
     = (if (String.length text <=? 3000)%nat then text
        else String.substring 0 3000 text ++ "...")
  /\ String.length (truncateForSummary text)
     = (if (String.length text <=? 3000)%nat then String.length text else 3003%nat)
  /\ truncateForEmbedding text
     = (if (String.length text <=? 2000)%nat then text
        else String.substring 0 2000 text)
  /\ (String.length (truncateForEmbedding text) <= 2000)%nat
  /\ String.prefix (truncateForEmbedding text) text = true.
Proof.
  split; [apply generateSummary_emitted|].
  split; [apply generateEmbedding_emitted|].
  unfold truncateForSummary, truncateForEmbedding. cbn zeta.
  change (Z.to_nat 3000) with 3000%nat. change (Z.to_nat 2000) with 2000%nat.
  destruct (Nat.leb_spec (String.length text) 3000) as [H3|H3];
    destruct (Nat.leb_spec (String.length text) 2000) as [H2|H2];
    try lia.
  all: repeat match goal with
         | |- context [Z.of_nat ?n >? ?m] =>
             let E := fresh "E" in
             destruct (Z.of_nat n >? m) eqn:E;
             [apply Z.gtb_lt in E|rewrite Z.gtb_ltb in E; apply Z.ltb_ge in E];
             try lia
         end.
  all: repeat split; try reflexivity; try lia;
    try apply prefix_refl; try apply prefix_substring_0;
    rewrite ?length_append, ?length_substring_0; cbn [String.length]; lia.
Qed.

(** ** The store *)

Lemma existsByUrl_eq env u (w : World) :
  existsByUrl env u w =
    match queryFault env (dbCalls w) with
    | Some e => (Throw e, afterExists u w)
    | None => (Ok (has_url u (table w)), afterExists u w)
    end.
Proof.
  unfold existsByUrl, tryCatch, bind, modify, query, get, ret, throw, afterExists. cbn.
  destruct (queryFault env (dbCalls w)); reflexivity.
Qed.

Lemma create_eq env article (w : World) :
  create env article w =
    match queryFault env (dbCalls w) with
    | Some e => (Throw e, afterInsertAttempt (rowOf article) w)
    | None => (Ok (rowOf article), afterInsert (rowOf article) w)
    end.
Proof.
  unfold create, tryCatch, bind, modify, query, get, ret, throw,
    afterInsert, afterInsertAttempt. cbn.
  destruct (queryFault env (dbCalls w)); reflexivity.
Qed.

Lemma has_url_false_iff u t : has_url u t = false <-> ~ In u (List.map url t).
Proof.
  unfold has_url. induction t as [|r t IH]; cbn.
  - split; [intros _ []|reflexivity].
  - destruct (String.eqb_spec (url r) u) as [Heq|Hne]; cbn.
    + split; [discriminate|]. intros H. exfalso. apply H. left. exact Heq.
    + rewrite IH. split.
      * intros H [Hin|Hin]; [contradiction|apply H; exact Hin].
      * intros H Hin. apply H. right. exact Hin.
Qed.

Lemma has_url_true_iff u t : has_url u t = true <-> In u (List.map url t).
Proof.
  destruct (has_url u t) eqn:H.
  - split; [intros _|reflexivity].
    destruct (in_dec string_dec u (List.map url t)) as [Hin|Hnin]; [exact Hin|].
    apply has_url_false_iff in Hnin. congruence.
  - apply has_url_false_iff in H. split; [discriminate|contradiction].
Qed.

(** ** The loop body *)

Lemma tryArticle_outcome env createInput article c (w : World) :
  TryOutcome env createInput article c w (tryArticle env createInput article c w).
Proof.
  unfold tryArticle. unfold bind at 1. rewrite existsByUrl_eq.
  destruct (queryFault env (dbCalls w)) as [e|] eqn:Hq.
  - apply TryDedupFailed. exact Hq.
  - destruct (has_url (na_url article) (table w)) eqn:Hu.
    + apply TrySkipped; assumption.
    + unfold bind at 1.
      destruct (generateSummaryAndEmbedding env (contentForAI article)
                  (afterExists (na_url article) w)) as [[[summary emb]|e] w2] eqn:Hg.
      * unfold bind at 1. rewrite create_eq. cbn [fst snd].
        destruct (queryFault env (dbCalls w2)) as [e|] eqn:Hq2.
        -- eapply TryInsertFailed; eassumption.
        -- eapply TryPersisted; eassumption.
      * eapply TryEnrichmentFailed; eassumption.
Qed.

Lemma V1_processArticle_eq env cat article c (w : World) :
  V1.processArticle env cat article c w =
    match tryArticle env (V1.createInput cat) article c w with
    | (Ok r, w') => (Ok r, w')
    | (Throw e, w') => (Ok (failedOne (errorMsgOf e) c, false), w')
    end.
Proof. reflexivity. Qed.

Lemma V2_processArticle_eq env cat article c (w : World) :
  V2.processArticle env cat article c w =
    match tryArticle env (V2.createInput cat) article c w with
    | (Ok r, w') => (Ok r, w')
    | (Throw e, w') =>
        if includes (errorMsgOf e) "quota exceeded"
        then (Ok (failedOne (quotaExceededAfter (c_success c)) c, true), w')
        else (Ok (failedOne (na_url article ++ ": " ++ errorMsgOf e) c, false), w')
    end.
Proof.
  unfold V2.processArticle, tryCatch.
  destruct (tryArticle env (V2.createInput cat) article c w) as [[r|e] w']; [reflexivity|].
  cbn zeta. destruct (includes (errorMsgOf e) "quota exceeded"); reflexivity.
Qed.

Lemma handled_skippedOne c : handled (skippedOne c) = handled c + 1.
Proof. unfold handled. cbn. lia. Qed.

Lemma handled_succeededOne c : handled (succeededOne c) = handled c + 1.
Proof. unfold handled. cbn. lia. Qed.

Lemma handled_failedOne entry c : handled (failedOne entry c) = handled c + 1.
Proof. unfold handled. cbn. lia. Qed.

Lemma V1_processArticle_accounts env cat : accounts false (V1.processArticle env cat).
Proof.
  intros article c w. rewrite V1_processArticle_eq.
  destruct (tryArticle_outcome env (V1.createInput cat) article c w);
    do 3 eexists; (split; [reflexivity|]);
    (split; [first [apply handled_skippedOne | apply handled_succeededOne
                   | apply handled_failedOne]
            |discriminate]).
Qed.

Lemma V2_processArticle_accounts env cat : accounts true (V2.processArticle env cat).
Proof.
  intros article c w. rewrite V2_processArticle_eq.
  destruct (tryArticle_outcome env (V2.createInput cat) article c w);
    try destruct (includes (errorMsgOf e) "quota exceeded");
    do 3 eexists; (split; [reflexivity|]);
    (split; [first [apply handled_skippedOne | apply handled_succeededOne
                   | apply handled_failedOne]
            |try discriminate]);
    intros _; (split; [reflexivity|]); cbn; apply in_or_app; right; left; reflexivity.
Qed.

Lemma forEachArticle_accounts mayBreak body (Hbody : accounts mayBreak body) :
  forall articles c w,
    exists c' w',
      forEachArticle body articles c w = (Ok c', w')
      /\ handled c <= handled c' <= handled c + Z.of_nat (List.length articles)
      /\ (handled c' < handled c + Z.of_nat (List.length articles) ->
          mayBreak = true /\ In (quotaExceededAfter (c_success c')) (c_errors c')).
Proof.
  induction articles as [|article rest IH]; intros c w.
  - exists c, w. cbn. split; [reflexivity|]. split; lia.
  - cbn [forEachArticle]. unfold bind at 1.
    destruct (Hbody article c w) as (c1 & b & w1 & Hb & Hh & Hbrk).
    rewrite Hb. cbn [fst snd]. destruct b.
    + exists c1, w1. split; [reflexivity|].
      cbn [List.length]. split; [lia|]. intros _. apply Hbrk. reflexivity.
    + destruct (IH c1 w1) as (c' & w' & Hrun & Hle & Hlt).
      exists c', w'. split; [exact Hrun|].
      cbn [List.length]. split; [lia|]. intros H. apply Hlt. lia.
Qed.

Lemma runBatch_accounts mayBreak fetch body (Hbody : accounts mayBreak body)
    (w : World) r w' :
  runBatch fetch body w = (Ok r, w') ->
  success r + failed r + skipped r <= total r
  /\ (success r + failed r + skipped r < total r ->
      mayBreak = true /\ In (quotaExceededAfter (success r)) (errors r)).
Proof.
  unfold runBatch, tryCatch. unfold bind at 1.
  destruct (fetch w) as [[articles|e] w1]; [|cbn; discriminate].
  unfold bind at 1.
  destruct (forEachArticle_accounts mayBreak body Hbody articles noCounters w1)
    as (c' & w2 & Hrun & Hle & Hlt).
  rewrite Hrun. cbn. intros H. injection H as <- <-.
  unfold handled in *. cbn in *. split; [lia|].
  intros Hstrict. apply Hlt. lia.
Qed.

Lemma runBatch_returns mayBreak fetch body (Hbody : accounts mayBreak body)
    (w : World) articles w1 :
  fetch w = (Ok articles, w1) ->
  exists r w', runBatch fetch body w = (Ok r, w')
               /\ total r = Z.of_nat (List.length articles).
Proof.
  intros Hf. unfold runBatch, tryCatch. unfold bind at 1. rewrite Hf.
  unfold bind at 1.
  destruct (forEachArticle_accounts mayBreak body Hbody articles noCounters w1)
    as (c' & w2 & Hrun & _).
  rewrite Hrun. cbn. do 2 eexists. split; reflexivity.
Qed.

(** ** The batch result *)

(** C1. Whenever one of the four entry points returns a result, the
    three counters add up to at most [total], the number of fetched
    candidates; and when they add up to less, the error list holds the
    early-stop entry "Quota exceeded after <success> articles". *)
Theorem counters_within_total (env : Env) (cat : option string) (q : string)
    (max : option Z) (w w' : World) (r : IngestionResult) :
  V1.ingestNews env cat max w = (Ok r, w')
  \/ V1.searchAndIngest env q max w = (Ok r, w')
  \/ V2.ingestNews env cat max w = (Ok r, w')
  \/ V2.searchAndIngest env q max w = (Ok r, w') ->
  success r + failed r + skipped r <= total r
  /\ (success r + failed r + skipped r < total r ->
      In (quotaExceededAfter (success r)) (errors r)).
Proof.
  intros [H|[H|[H|H]]].
  - destruct (runBatch_accounts false _ _ (V1_processArticle_accounts env _) w r w' H)
      as [Hle Hlt].
    split; [exact Hle|]. intros Hs. apply Hlt. exact Hs.
  - destruct (runBatch_accounts false _ _ (V1_processArticle_accounts env _) w r w' H)
      as [Hle Hlt].
    split; [exact Hle|]. intros Hs. apply Hlt. exact Hs.
  - destruct (runBatch_accounts true _ _ (V2_processArticle_accounts env _) w r w' H)
      as [Hle Hlt].
    split; [exact Hle|]. intros Hs. apply Hlt. exact Hs.
  - destruct (runBatch_accounts true _ _ (V2_processArticle_accounts env _) w r w' H)
      as [Hle Hlt].
    split; [exact Hle|]. intros Hs. apply Hlt. exact Hs.
Qed.

Lemma counters_within_total_witness :
  let env := answering 768 [sampleArticle "u1"; sampleArticle "u2"] in
  let r := {| success := 0; failed := 1; skipped := 0; total := 2;
              errors := ["Quota exceeded after 0 articles"] |} in
  fst (V2.ingestNews env None (Some 2) spentWorld) = Ok r
  /\ success r + failed r + skipped r <= total r
  /\ (success r + failed r + skipped r < total r ->
      In (quotaExceededAfter (success r)) (errors r)).
Proof.
  cbn zeta. split; [vm_compute; reflexivity|].
  apply (counters_within_total
           (answering 768 [sampleArticle "u1"; sampleArticle "u2"])
           None "" (Some 2) spentWorld
           (snd (V2.ingestNews (answering 768 [sampleArticle "u1"; sampleArticle "u2"])
                   None (Some 2) spentWorld))).
  right. right. left. vm_compute. reflexivity.
Defined.

(** The version that caps the batch never leaves the loop early: its
    counters add up to [total]. *)
Lemma V1_handles_every_candidate (env : Env) (cat : option string) (q : string)
    (max : option Z) (w w' : World) (r : IngestionResult) :
  V1.ingestNews env cat max w = (Ok r, w')
  \/ V1.searchAndIngest env q max w = (Ok r, w') ->
  success r + failed r + skipped r = total r.
Proof.
  intros [H|H];
    destruct (runBatch_accounts false _ _ (V1_processArticle_accounts env _) w r w' H)
      as [Hle Hlt];
    destruct (Z.eq_dec (success r + failed r + skipped r) (total r)) as [Heq|Hne];
    try exact Heq;
    (assert (Hs : success r + failed r + skipped r < total r) by lia);
    destruct (Hlt Hs) as [Hf _]; discriminate Hf.
Qed.

(** A batch whose fetch succeeds returns a result, with [total] the
    number of fetched candidates. *)
Lemma batch_returns_when_fetched (env : Env) (cat : string) (max : Z) (w : World)
    (articles : list NewsArticle) :
  topHeadlines env cat (V1.clamp max) = Some articles ->
  exists r w', V1.ingestNews env (Some cat) (Some max) w = (Ok r, w')
               /\ total r = Z.of_nat (List.length articles).
Proof.
  intros Hf.
  apply (runBatch_returns false _ _ (V1_processArticle_accounts env _) w articles
           (log (EvFetchNews cat (V1.clamp max)) w)).
  unfold fetchNews, bind, modify. cbn. rewrite Hf. reflexivity.
Qed.

(** ** Early stop *)

Lemma spent_generateSummary env text (w : World) :
  dailyRequestCount (budget w) >= 1000 ->
  clock w + 9000 <= dailyResetTime (budget w) ->
  generateSummary env text w = (Throw apiQuotaExceeded, spentRun 3 3000 3 0 w).
Proof.
  intros Hcap Hday. unfold generateSummary, tryCatch. cbn zeta.
  unfold retryWithBackoff. change (Z.to_nat 3) with 3%nat.
  rewrite retryLoop_spent; [reflexivity|lia|reflexivity|exact Hcap|exact Hday].
Qed.

Lemma spent_enrichment env text (w : World) :
  dailyRequestCount (budget w) >= 1000 ->
  clock w + 9000 <= dailyResetTime (budget w) ->
  generateSummaryAndEmbedding env text w = (Throw apiQuotaExceeded, spentRun 3 3000 3 0 w).
Proof.
  intros Hcap Hday. unfold generateSummaryAndEmbedding, tryCatch. unfold bind at 1.
  rewrite (spent_generateSummary env text w Hcap Hday). reflexivity.
Qed.

(** Against C2 as it is worded.  The version that caps the batch goes on
    after a spent quota: with the day quota spent and two candidates,
    the first fails with "API quota exceeded", and the second is still
    looked up and sent to the enricher, where it fails in the same
    way. *)
Lemma first_version_goes_on_after_quota_failure :
  let env := answering 768 [] in
  let a1 := sampleArticle "u1" in
  let a2 := sampleArticle "u2" in
  let body := V1.processArticle env (Some "general") in
  fst (generateSummaryAndEmbedding env (contentForAI a1) (afterExists "u1" spentWorld))
    = Throw apiQuotaExceeded
  /\ includes (errorMsgOf apiQuotaExceeded) "quota exceeded" = true
  /\ fst (forEachArticle body [a1; a2] noCounters spentWorld)
     = Ok (mkCounters 0 2 0 ["API quota exceeded. Please reduce batch size or wait.";
                              "API quota exceeded. Please reduce batch size or wait."])
  /\ trace (snd (forEachArticle body [a1; a2] noCounters spentWorld))
     = [EvExistsByUrl "u1"; EvSleep 3000; EvSleep 6000;
        EvExistsByUrl "u2"; EvSleep 3000; EvSleep 6000]
  /\ ~ stops_after body a1 [a2] noCounters spentWorld.
Proof.
  cbn zeta.
  split; [vm_compute; reflexivity|].
  split; [vm_compute; reflexivity|].
  split; [vm_compute; reflexivity|].
  split; [vm_compute; reflexivity|].
  unfold stops_after. intros H.
  apply (f_equal (fun r => dbCalls (snd r))) in H.
  vm_compute in H. discriminate H.
Qed.

(** C2 (amended). In the version that stops on quota, a candidate whose
    enrichment fails with a message that contains "quota exceeded" adds
    one to [failed] and the entry "Quota exceeded after <success>
    articles" to the errors, and ends the loop in the world the failed
    enrichment left: no candidate after it is looked up, enriched or
    persisted.  A spent day quota of the rate limiter is such a
    failure. *)
Theorem quota_failure_stops_batch (env : Env) (cat : option string)
    (article : NewsArticle) (rest : list NewsArticle) (c : Counters)
    (w w2 : World) (e : JsError) :
  queryFault env (dbCalls w) = None ->
  has_url (na_url article) (table w) = false ->
  generateSummaryAndEmbedding env (contentForAI article) (afterExists (na_url article) w)
    = (Throw e, w2) ->
  includes (errorMsgOf e) "quota exceeded" = true ->
  forEachArticle (V2.processArticle env cat) (article :: rest) c w
    = (Ok (mkCounters (c_success c) (c_failed c + 1) (c_skipped c)
             (c_errors c ++ [quotaExceededAfter (c_success c)])), w2)
  /\ stops_after (V2.processArticle env cat) article rest c w
  /\ includes (errorMsgOf apiQuotaExceeded) "quota exceeded" = true
  /\ (forall text w0,
        dailyRequestCount (budget w0) >= 1000 ->
        clock w0 + 9000 <= dailyResetTime (budget w0) ->
        fst (generateSummaryAndEmbedding env text w0) = Throw apiQuotaExceeded).
Proof.
  intros Hq Hu Hg Hm.
  assert (Hbody : V2.processArticle env cat article c w
                  = (Ok (failedOne (quotaExceededAfter (c_success c)) c, true), w2)).
  { rewrite V2_processArticle_eq.
    unfold tryArticle. unfold bind at 1. rewrite existsByUrl_eq, Hq, Hu.
    unfold bind at 1. rewrite Hg, Hm. reflexivity. }
  split; [|split; [|split]].
  - cbn [forEachArticle]. unfold bind at 1. rewrite Hbody. reflexivity.
  - unfold stops_after. cbn [forEachArticle]. unfold bind. rewrite Hbody. reflexivity.
  - reflexivity.
  - intros text w0 Hcap Hday. rewrite (spent_enrichment env text w0 Hcap Hday). reflexivity.
Qed.

Lemma quota_failure_stops_batch_witness :
  let env := answering 768 [] in
  let a1 := sampleArticle "u1" in
  let a2 := sampleArticle "u2" in
  forEachArticle (V2.processArticle env (Some "general")) [a1; a2] noCounters spentWorld
    = (Ok (mkCounters 0 1 0 ["Quota exceeded after 0 articles"]),
       spentRun 3 3000 3 0 (afterExists "u1" spentWorld))
  /\ trace (spentRun 3 3000 3 0 (afterExists "u1" spentWorld))
     = [EvExistsByUrl "u1"; EvSleep 3000; EvSleep 6000].
Proof.
  cbn zeta. split; [|vm_compute; reflexivity].
  apply (quota_failure_stops_batch (answering 768 []) (Some "general")
           (sampleArticle "u1") [sampleArticle "u2"] noCounters spentWorld
           (spentRun 3 3000 3 0 (afterExists "u1" spentWorld)) apiQuotaExceeded).
  - reflexivity.
  - reflexivity.
  - vm_compute. reflexivity.
  - reflexivity.
Defined.

(** What stops the batch is the text of the message.  When the upstream
    answers 429 to every call, the executor gives up with "Rate limit
    exceeded after 3 attempts", which has neither a status nor "quota"
    in it: the enricher wraps it, and the loop goes on to the next
    candidate. *)
Example rate_limit_exhaustion_goes_on :
  let env := failing 429 "Too Many Requests" [sampleArticle "u1"; sampleArticle "u2"] in
  let r := V2.ingestNews env None None freshWorld in
  fst r = Ok {| success := 0; failed := 2; skipped := 0; total := 2;
                errors :=
                  ["u1: Summary generation failed: Rate limit exceeded after 3 attempts. Please reduce batch size or wait.";
                   "u2: Summary generation failed: Rate limit exceeded after 3 attempts. Please reduce batch size or wait."] |}
  /\ aiCalls (snd r) = 6%nat.
Proof. cbn zeta. split; vm_compute; reflexivity. Qed.

(** ** What the loop does to the world *)

Lemma V1_processArticle_world env cat article c (w : World) :
  snd (V1.processArticle env cat article c w)
  = snd (tryArticle env (V1.createInput cat) article c w).
Proof.
  rewrite V1_processArticle_eq.
  destruct (tryArticle env (V1.createInput cat) article c w) as [[r|e] w']; reflexivity.
Qed.

Lemma V2_processArticle_world env cat article c (w : World) :
  snd (V2.processArticle env cat article c w)
  = snd (tryArticle env (V2.createInput cat) article c w).
Proof.
  rewrite V2_processArticle_eq.
  destruct (tryArticle env (V2.createInput cat) article c w) as [[r|e] w'];
    [reflexivity|].
  destruct (includes (errorMsgOf e) "quota exceeded"); reflexivity.
Qed.

Lemma enrichment_isProcessing ev : isEnrichment ev -> isProcessing ev.
Proof. destruct ev; cbn; intros H; try contradiction; intros H'; exact H'. Qed.

Lemma tryArticle_emitted env createInput article c (w : World) :
  emitted isProcessing w (snd (tryArticle env createInput article c w)).
Proof.
  assert (He : emitted isProcessing w (afterExists (na_url article) w)).
  { apply emitted_log; [intros H; exact H|reflexivity]. }
  assert (Hg : forall r w2,
             generateSummaryAndEmbedding env (contentForAI article)
               (afterExists (na_url article) w) = (r, w2) ->
             emitted isProcessing w w2).
  { intros r w2 Hrun.
    pose proof (enrichment_emitted env (contentForAI article)
                  (afterExists (na_url article) w)) as H.
    rewrite Hrun in H. cbn [snd] in H.
    eapply emitted_trans; [exact He|].
    eapply emitted_weaken; [exact enrichment_isProcessing|exact H]. }
  destruct (tryArticle_outcome env createInput article c w); cbn [snd];
    try exact He; try (eapply Hg; eassumption).
  - eapply emitted_trans; [eapply Hg; eassumption|].
    apply emitted_log; [intros H'; exact H'|reflexivity].
  - eapply emitted_trans; [eapply Hg; eassumption|].
    apply emitted_log; [intros H'; exact H'|reflexivity].
Qed.

Lemma keepsUnique_refl w : keepsUnique w w.
Proof. intros H. exact H. Qed.

Lemma keepsUnique_trans w1 w2 w3 :
  keepsUnique w1 w2 -> keepsUnique w2 w3 -> keepsUnique w1 w3.
Proof. intros H1 H2 H. apply H2, H1, H. Qed.

Lemma tryArticle_keepsUnique env createInput article c (w : World) :
  (forall a s v, ci_url (createInput a s v) = na_url a) ->
  keepsUnique w (snd (tryArticle env createInput article c w)).
Proof.
  intros Hurl Hnd.
  assert (Hg : forall r w2,
             generateSummaryAndEmbedding env (contentForAI article)
               (afterExists (na_url article) w) = (r, w2) ->
             table w2 = table w).
  { intros r w2 Hrun.
    pose proof (enrichment_sameStore env (contentForAI article)
                  (afterExists (na_url article) w)) as [H _].
    rewrite Hrun in H. exact H. }
  destruct (tryArticle_outcome env createInput article c w);
    cbn [snd]; unfold urls in *; cbn [table afterExists afterInsertAttempt afterInsert
                                       set_table bump_dbCalls log];
    try exact Hnd;
    try (erewrite Hg by eassumption; exact Hnd).
  erewrite Hg by eassumption.
  rewrite map_app. cbn [List.map rowOf url]. rewrite Hurl.
  apply NoDup_app.
  - exact Hnd.
  - constructor; [intros []|constructor].
  - intros u Hin [Heq|[]]. subst u.
    apply (proj1 (has_url_false_iff (na_url article) (table w))); assumption.
Qed.

Lemma V1_forEachArticle_keepsUnique env cat articles c :
  respects keepsUnique (forEachArticle (V1.processArticle env cat) articles c).
Proof.
  apply respects_forEachArticle.
  - exact keepsUnique_refl.
  - exact keepsUnique_trans.
  - intros article c0 w. rewrite V1_processArticle_world.
    apply tryArticle_keepsUnique. reflexivity.
Qed.

Lemma V2_forEachArticle_keepsUnique env cat articles c :
  respects keepsUnique (forEachArticle (V2.processArticle env cat) articles c).
Proof.
  apply respects_forEachArticle.
  - exact keepsUnique_refl.
  - exact keepsUnique_trans.
  - intros article c0 w. rewrite V2_processArticle_world.
    apply tryArticle_keepsUnique. reflexivity.
Qed.

(** ** Deduplication *)

(** C8. A candidate whose URL is in the table is skipped, in both
    versions of the loop: [skipped] grows by one, the other counters and
    the errors stay, and the only thing that happened is the dedup
    query, so neither the enricher nor [create] was invoked.  A batch
    therefore never makes two rows with one URL: if the URLs of the
    table were distinct before the loop, they are distinct after it. *)
Theorem known_url_is_skipped (env : Env) (cat : option string)
    (article : NewsArticle) (c : Counters) (w : World) :
  queryFault env (dbCalls w) = None ->
  In (na_url article) (urls w) ->
  let w' := mkWorld (clock w) (budget w) (table w) (aiCalls w) (S (dbCalls w))
              (trace w ++ [EvExistsByUrl (na_url article)]) in
  let c' := mkCounters (c_success c) (c_failed c) (c_skipped c + 1) (c_errors c) in
  V1.processArticle env cat article c w = (Ok (c', false), w')
  /\ V2.processArticle env cat article c w = (Ok (c', false), w')
  /\ (forall articles c0 w0,
        NoDup (urls w0) ->
        NoDup (urls (snd (forEachArticle (V1.processArticle env cat) articles c0 w0)))
        /\ NoDup (urls (snd (forEachArticle (V2.processArticle env cat) articles c0 w0)))).
Proof.
  intros Hq Hin. cbn zeta.
  apply has_url_true_iff in Hin.
  split; [|split].
  - rewrite V1_processArticle_eq. unfold tryArticle. unfold bind at 1.
    rewrite existsByUrl_eq, Hq, Hin. reflexivity.
  - rewrite V2_processArticle_eq. unfold tryArticle. unfold bind at 1.
    rewrite existsByUrl_eq, Hq, Hin. reflexivity.
  - intros articles c0 w0 Hnd. split.
    + apply (V1_forEachArticle_keepsUnique env cat articles c0 w0 Hnd).
    + apply (V2_forEachArticle_keepsUnique env cat articles c0 w0 Hnd).
Qed.

(** Whether the dedup query answers or fails, a candidate whose URL is
    in the table reaches neither the enricher nor [create]. *)
Lemma known_url_never_enriched (env : Env)
    (createInput : NewsArticle -> string -> list number -> CreateInput)
    (article : NewsArticle) (c : Counters) (w : World) :
  In (na_url article) (urls w) ->
  snd (tryArticle env createInput article c w) = afterExists (na_url article) w.
Proof.
  intros Hin. apply has_url_true_iff in Hin.
  destruct (tryArticle_outcome env createInput article c w);
    try reflexivity; congruence.
Qed.

Lemma known_url_is_skipped_witness :
  V1.processArticle (answering 768 []) None (sampleArticle "u1") noCounters
    (worldWith [storedRow "u1"])
  = (Ok (mkCounters 0 0 1 [], false),
     mkWorld 0 freshBudget [storedRow "u1"] 0 1 [EvExistsByUrl "u1"]).
Proof.
  apply (known_url_is_skipped (answering 768 []) None (sampleArticle "u1") noCounters
           (worldWith [storedRow "u1"])).
  - reflexivity.
  - cbn. left. reflexivity.
Defined.

(** The scenarios of the specification.  Three fetched articles, the
    second already stored. *)
Example second_of_three_already_stored :
  let env := answering 768 [sampleArticle "u1"; sampleArticle "u2"; sampleArticle "u3"] in
  let r := V1.ingestNews env None None (worldWith [storedRow "u2"]) in
  fst r = Ok {| success := 2; failed := 0; skipped := 1; total := 3; errors := [] |}
  /\ urls (snd r) = ["u2"; "u1"; "u3"].
Proof. cbn zeta. split; vm_compute; reflexivity. Qed.

(** The same URL twice in one batch: the second occurrence is skipped. *)
Example same_url_twice_in_a_batch :
  let env := answering 768 [sampleArticle "u1"; sampleArticle "u1"] in
  let r := V2.ingestNews env None None freshWorld in
  fst r = Ok {| success := 1; failed := 0; skipped := 1; total := 2; errors := [] |}
  /\ urls (snd r) = ["u1"].
Proof. cbn zeta. split; vm_compute; reflexivity. Qed.

(** ** The cap on the batch *)

(** Against C7 as it is worded.  The version that stops on quota hands
    [max] on as it is: asked for ten articles, it fetches ten. *)
Lemma second_version_does_not_clamp :
  trace (snd (V2.ingestNews (answering 768 []) None (Some 10) freshWorld))
    = [EvFetchNews "general" 10]
  /\ trace (snd (V2.searchAndIngest (answering 768 []) "rocq" (Some 10) freshWorld))
     = [EvSearchNews "rocq" 10]
  /\ ~ fetch_is_clamped (V2.ingestNews (answering 768 []) None (Some 10))
         "general" 10 freshWorld.
Proof.
  split; [reflexivity|]. split; [reflexivity|].
  intros [l H]. vm_compute in H. discriminate H.
Qed.

Lemma runBatch_trace fetch body ev (w : World) :
  (forall w0, snd (fetch w0) = log ev w0) ->
  (forall article c, respects (emitted isProcessing) (body article c)) ->
  exists l, trace (snd (runBatch fetch body w)) = (trace w ++ ev :: l)%list
            /\ Forall isProcessing l.
Proof.
  intros Hfetch Hbody. unfold runBatch, tryCatch. unfold bind at 1.
  specialize (Hfetch w).
  destruct (fetch w) as [[articles|e] w1]; cbn [snd] in Hfetch; subst w1.
  - unfold bind at 1.
    pose proof (respects_forEachArticle (emitted isProcessing)
                  (emitted_refl isProcessing) (emitted_trans isProcessing)
                  body Hbody articles noCounters (log ev w)) as (l & Hl & Fl).
    destruct (forEachArticle body articles noCounters (log ev w)) as [[c'|e] w2];
      unfold ret, throw; cbn [snd] in Hl |- *; exists l; (split; [|exact Fl]);
      rewrite Hl; cbn [trace log]; rewrite <- app_assoc; reflexivity.
  - exists []. split; [reflexivity|constructor].
Qed.

(** C7 (amended). In the version of [src/services/ingestion.service.ts]
    both entry points fetch with min(max, 3): a [max] above 3 becomes 3
    without an error, a [max] of at most 3 is handed on as it is, and
    the fetch is the first thing a run does and the only fetch of the
    run.  In the other version both entry points fetch with [max] as it
    was given, 10 when none was. *)
Theorem first_version_clamps_max (env : Env) (cat : option string) (q : string)
    (max : option Z) (w : World) :
  let cat' := match cat with Some c => c | None => "general" end in
  let max' := match max with Some m => m | None => 3 end in
  (exists l, trace (snd (V1.ingestNews env cat max w))
             = (trace w ++ EvFetchNews cat' (Z.min max' 3) :: l)%list
             /\ Forall isProcessing l)
  /\ (exists l, trace (snd (V1.searchAndIngest env q max w))
                = (trace w ++ EvSearchNews q (Z.min max' 3) :: l)%list
                /\ Forall isProcessing l)
  /\ V1.clamp max' = (if max' <=? 3 then max' else 3)
  /\ (exists l, trace (snd (V2.ingestNews env cat max w))
                = (trace w ++ EvFetchNews cat' (match max with Some m => m | None => 10 end)
                             :: l)%list
                /\ Forall isProcessing l)
  /\ (exists l, trace (snd (V2.searchAndIngest env q max w))
                = (trace w ++ EvSearchNews q (match max with Some m => m | None => 10 end)
                             :: l)%list
                /\ Forall isProcessing l).
Proof.
  cbn zeta.
  assert (Hbody2 : forall c0 article c,
             respects (emitted isProcessing) (V2.processArticle env c0 article c)).
  { intros c0 article c w0. rewrite V2_processArticle_world. apply tryArticle_emitted. }
  assert (Hclamp : forall m, V1.clamp m = Z.min m 3).
  { intros m. unfold V1.clamp. rewrite Z.gtb_ltb.
    destruct (Z.ltb_spec 3 m); lia. }
  assert (Hbody : forall c0 article c,
             respects (emitted isProcessing) (V1.processArticle env c0 article c)).
  { intros c0 article c w0. rewrite V1_processArticle_world. apply tryArticle_emitted. }
  split; [|split; [|split; [|split]]].
  - rewrite <- Hclamp. apply runBatch_trace; [|apply Hbody].
    intros w0. unfold fetchNews, bind, modify. cbn.
    destruct (topHeadlines env _ _); reflexivity.
  - rewrite <- Hclamp. apply runBatch_trace; [|apply Hbody].
    intros w0. unfold searchNews, bind, modify. cbn.
    destruct (searchResults env _ _); reflexivity.
  - rewrite Hclamp. destruct (Z.leb_spec (match max with Some m => m | None => 3 end) 3); lia.
  - apply runBatch_trace; [|apply Hbody2].
    intros w0. unfold fetchNews, bind, modify. cbn.
    destruct (topHeadlines env _ _); reflexivity.
  - apply runBatch_trace; [|apply Hbody2].
    intros w0. unfold searchNews, bind, modify. cbn.
    destruct (searchResults env _ _); reflexivity.
Qed.

(** ** Embedding validation *)

Lemma list_ascii_of_string_app (s1 s2 : string) :
  list_ascii_of_string (s1 ++ s2)
  = (list_ascii_of_string s1 ++ list_ascii_of_string s2)%list.
Proof. induction s1 as [|c s1 IH]; cbn; [reflexivity|rewrite IH; reflexivity]. Qed.

Lemma free_of_app c s1 s2 : free_of c s1 -> free_of c s2 -> free_of c (s1 ++ s2).
Proof.
  unfold free_of. intros H1 H2. rewrite list_ascii_of_string_app.
  intros H. apply in_app_or in H. destruct H; contradiction.
Qed.

Lemma includes_first_unit s c sub :
  includes s (String c sub) = true -> In c (list_ascii_of_string s).
Proof.
  induction s as [|a t IH]; cbn.
  - discriminate.
  - destruct (ascii_dec c a) as [Heq|Hne].
    + intros _. left. symmetry. exact Heq.
    + intros H. right. apply IH. exact H.
Qed.

Lemma free_of_not_included c s sub : free_of c s -> includes s (String c sub) = false.
Proof.
  intros Hfree. destruct (includes s (String c sub)) eqn:H; [|reflexivity].
  exfalso. apply Hfree. eapply includes_first_unit. exact H.
Qed.

Lemma digits_free_of_q (u : Decimal.uint) : free_of "q" (NilEmpty.string_of_uint u).
Proof.
  unfold free_of. induction u as [|u IH|u IH|u IH|u IH|u IH|u IH|u IH|u IH|u IH|u IH];
    cbn; [intros Hin; exact Hin|..];
    intros [Hq|Hin]; try discriminate Hq; apply IH; exact Hin.
Qed.

Lemma string_of_nat_free_of_q (n : nat) : free_of "q" (string_of_nat n).
Proof.
  unfold string_of_nat, NilZero.string_of_uint.
  destruct (Nat.to_uint n) eqn:E; try apply digits_free_of_q.
  unfold free_of. cbn. intros [H|[]]. discriminate H.
Qed.

Lemma invalidEmbeddingDimensions_free_of_q (e : option (list number)) :
  free_of "q" (message (invalidEmbeddingDimensions e)).
Proof.
  unfold invalidEmbeddingDimensions. cbn [message newError].
  apply free_of_app.
  - unfold free_of. cbn. intuition discriminate.
  - destruct e as [v|]; [apply string_of_nat_free_of_q|].
    unfold free_of. cbn. intuition discriminate.
Qed.

Lemma generateEmbedding_invalid env text (w w' : World) (e : option (list number)) :
  retryWithBackoff (callEmbedContent env (truncateForEmbedding text))
    "Embedding generation" (Some 3) (Some 3000) w = (Ok e, w') ->
  match e with Some v => List.length v <> 768%nat | None => True end ->
  generateEmbedding env text w
  = (Throw (newError ("Embedding generation failed: "
                        ++ message (invalidEmbeddingDimensions e))), w').
Proof.
  intros Hrun Hlen. unfold generateEmbedding, tryCatch. cbn zeta.
  unfold bind at 1. rewrite Hrun.
  assert (Hthrow : forall w0, (@throw (list number) (invalidEmbeddingDimensions e)) w0
                              = (Throw (invalidEmbeddingDimensions e), w0))
    by reflexivity.
  assert (Hre : rethrowFrom "Embedding generation" (invalidEmbeddingDimensions e)
                = newError ("Embedding generation failed: "
                              ++ message (invalidEmbeddingDimensions e))).
  { unfold rethrowFrom.
    rewrite (free_of_not_included _ _ _ (invalidEmbeddingDimensions_free_of_q e)).
    reflexivity. }
  destruct e as [v|].
  - destruct (Nat.eqb_spec (List.length v) 768) as [Heq|Hne]; [contradiction|].
    cbn [negb]. rewrite Hthrow. unfold throw. rewrite Hre. reflexivity.
  - rewrite Hthrow. unfold throw. rewrite Hre. reflexivity.
Qed.

(** A failed enrichment leaves the table as it was and adds no insert to
    the trace. *)
Lemma failed_enrichment_persists_nothing env text u (w w' : World) r :
  generateSummaryAndEmbedding env text (afterExists u w) = (r, w') ->
  table w' = table w
  /\ (forall row, In (EvInsert row) (trace w') -> In (EvInsert row) (trace w)).
Proof.
  intros Hrun.
  pose proof (enrichment_sameStore env text (afterExists u w)) as [Ht _].
  pose proof (enrichment_emitted env text (afterExists u w)) as He.
  rewrite Hrun in Ht, He. cbn [snd] in Ht, He.
  split; [exact Ht|].
  intros row Hin. destruct (emitted_In _ _ _ _ He Hin) as [Hold|[]].
  cbn in Hold. apply in_app_or in Hold.
  destruct Hold as [Hold|[Heq|[]]]; [exact Hold|discriminate Heq].
Qed.

(** C6. When the embedding that comes back for a candidate is missing or
    has a length other than 768, the enrichment of the candidate fails
    with "Embedding generation failed: Invalid embedding dimensions:
    <length>"; both versions of the loop count the candidate as failed
    with that message, [create] is not invoked, and the table is as it
    was before the candidate. *)
Theorem invalid_embedding_is_not_persisted (env : Env) (cat : option string)
    (article : NewsArticle) (c : Counters) (w w2 w3 : World) (summary : string)
    (e : option (list number)) :
  queryFault env (dbCalls w) = None ->
  has_url (na_url article) (table w) = false ->
  generateSummary env (contentForAI article) (afterExists (na_url article) w)
    = (Ok summary, w2) ->
  retryWithBackoff (callEmbedContent env (truncateForEmbedding (contentForAI article)))
    "Embedding generation" (Some 3) (Some 3000) (slept 2000 w2) = (Ok e, w3) ->
  match e with Some v => List.length v <> 768%nat | None => True end ->
  let msg := "Embedding generation failed: Invalid embedding dimensions: "
               ++ match e with
                  | Some v => string_of_nat (List.length v)
                  | None => "undefined"
                  end in
  generateSummaryAndEmbedding env (contentForAI article) (afterExists (na_url article) w)
    = (Throw (newError msg), w3)
  /\ V1.processArticle env cat article c w
     = (Ok (mkCounters (c_success c) (c_failed c + 1) (c_skipped c)
              (c_errors c ++ [msg]), false), w3)
  /\ V2.processArticle env cat article c w
     = (Ok (mkCounters (c_success c) (c_failed c + 1) (c_skipped c)
              (c_errors c ++ [na_url article ++ ": " ++ msg]), false), w3)
  /\ table w3 = table w
  /\ (forall row, In (EvInsert row) (trace w3) -> In (EvInsert row) (trace w)).
Proof.
  intros Hq Hu Hs He Hlen. cbn zeta.
  assert (Hg : generateSummaryAndEmbedding env (contentForAI article)
                 (afterExists (na_url article) w)
               = (Throw (newError ("Embedding generation failed: "
                                     ++ message (invalidEmbeddingDimensions e))), w3)).
  { unfold generateSummaryAndEmbedding, tryCatch. unfold bind at 1. rewrite Hs.
    unfold bind at 1. unfold sleep at 1, modify at 1.
    change (log (EvSleep 2000) (set_clock (clock w2 + Z.max 0 2000) w2))
      with (slept 2000 w2).
    unfold bind at 1.
    rewrite (generateEmbedding_invalid env _ _ _ e He Hlen). reflexivity. }
  assert (Hfree : includes ("Embedding generation failed: "
                              ++ message (invalidEmbeddingDimensions e))
                    "quota exceeded" = false).
  { apply free_of_not_included. apply free_of_app.
    - unfold free_of. cbn. intuition discriminate.
    - apply invalidEmbeddingDimensions_free_of_q. }
  destruct (failed_enrichment_persists_nothing _ _ _ _ _ _ Hg) as [Htable Htrace].
  change (message (invalidEmbeddingDimensions e))
    with ("Invalid embedding dimensions: "
            ++ match e with
               | Some v => string_of_nat (List.length v)
               | None => "undefined"
               end) in Hg, Hfree.
  split; [exact Hg|]. split; [|split; [|split; [exact Htable|exact Htrace]]].
  - rewrite V1_processArticle_eq. unfold tryArticle. unfold bind at 1.
    rewrite existsByUrl_eq, Hq, Hu. unfold bind at 1. rewrite Hg. reflexivity.
  - rewrite V2_processArticle_eq. unfold tryArticle. unfold bind at 1.
    rewrite existsByUrl_eq, Hq, Hu. unfold bind at 1. rewrite Hg.
    unfold errorMsgOf. cbn [instanceofError message newError].
    cbn [append] in Hfree |- *. rewrite Hfree. reflexivity.
Qed.

Lemma invalid_embedding_is_not_persisted_witness :
  let env := answering 700 [] in
  let article := sampleArticle "u1" in
  let w2 := snd (generateSummary env (contentForAI article) (afterExists "u1" freshWorld)) in
  let w3 := snd (retryWithBackoff
                   (callEmbedContent env (truncateForEmbedding (contentForAI article)))
                   "Embedding generation" (Some 3) (Some 3000) (slept 2000 w2)) in
  V1.processArticle env None article noCounters freshWorld
  = (Ok (mkCounters 0 1 0
           ["Embedding generation failed: Invalid embedding dimensions: 700"], false), w3)
  /\ table w3 = [].
Proof.
  cbn zeta.
  destruct (invalid_embedding_is_not_persisted
              (answering 700 []) None (sampleArticle "u1") noCounters freshWorld
              (snd (generateSummary (answering 700 []) (contentForAI (sampleArticle "u1"))
                      (afterExists "u1" freshWorld)))
              (snd (retryWithBackoff
                      (callEmbedContent (answering 700 [])
                         (truncateForEmbedding (contentForAI (sampleArticle "u1"))))
                      "Embedding generation" (Some 3) (Some 3000)
                      (slept 2000
                         (snd (generateSummary (answering 700 [])
                                 (contentForAI (sampleArticle "u1"))
                                 (afterExists "u1" freshWorld))))))
              "A summary." (Some (vector 700)))
    as (_ & H1 & _ & Ht & _).
  - reflexivity.
  - reflexivity.
  - vm_compute. reflexivity.
  - vm_compute. reflexivity.
  - vm_compute. intros H. discriminate H.
  - split; [exact H1|exact Ht].
Defined.

(** The scenario of the specification: an embedding of length 700. *)
Example embedding_of_length_700 :
  let env := answering 700 [sampleArticle "u1"] in
  let r1 := V1.ingestNews env None None freshWorld in
  let r2 := V2.ingestNews env None None freshWorld in
  fst r1 = Ok {| success := 0; failed := 1; skipped := 0; total := 1;
                 errors := ["Embedding generation failed: Invalid embedding dimensions: 700"] |}
  /\ table (snd r1) = []
  /\ fst r2 = Ok {| success := 0; failed := 1; skipped := 0; total := 1;
                    errors := ["u1: Embedding generation failed: Invalid embedding dimensions: 700"] |}
  /\ table (snd r2) = [].
Proof. cbn zeta. repeat split; vm_compute; reflexivity. Qed.

(** * Further properties *)

(** ** The rate limiter: spacing, waiting time, invariant *)

Ltac quiet_cbn :=
  cbn beta iota zeta delta
    [fst snd clock budget table aiCalls dbCalls trace set_budget set_clock log modify
     requestCount requestResetTime lastRequestTime dailyRequestCount dailyResetTime
     set_requestCount set_requestResetTime set_lastRequestTime
     set_dailyRequestCount set_dailyResetTime].

Ltac run_acquire :=
  unfold waitForRateLimit, bind, now, read_budget, when, update_budget, modify,
    throw, ret, sleep, MAX_REQUESTS_PER_MINUTE, MIN_REQUEST_INTERVAL;
  quiet_cbn.

Ltac split_tests :=
  repeat match goal with
         | |- context [?a >? ?b] => destruct (Z.gtb_spec a b); quiet_cbn
         | |- context [?a >=? ?b] => destruct (Z.geb_spec a b); quiet_cbn
         | |- context [?a <? ?b] => destruct (Z.ltb_spec a b); quiet_cbn
         end.

Lemma waitForRateLimit_spacing (w : World) :
  fst (waitForRateLimit w) = Ok tt ->
  lastRequestTime (budget (snd (waitForRateLimit w))) = clock (snd (waitForRateLimit w))
  /\ clock w <= clock (snd (waitForRateLimit w))
  /\ lastRequestTime (budget w) + 6000
     <= lastRequestTime (budget (snd (waitForRateLimit w))).
Proof.
  run_acquire.
  split_tests; try (exfalso; lia); intros Hfst; try discriminate Hfst;
    repeat split; lia.
Qed.

(** X1. A call of [waitForRateLimit] that returns leaves the clock at
    the time it records as [lastRequestTime], and that time is at least
    6000 ms after the [lastRequestTime] it found: two acquired slots are
    never less than [MIN_REQUEST_INTERVAL] apart. *)
Theorem acquire_keeps_min_interval (w w' : World) :
  waitForRateLimit w = (Ok tt, w') ->
  lastRequestTime (budget w') = clock w'
  /\ clock w <= clock w'
  /\ lastRequestTime (budget w) + MIN_REQUEST_INTERVAL <= lastRequestTime (budget w').
Proof.
  intros Hrun.
  assert (Hfst : fst (waitForRateLimit w) = Ok tt) by (rewrite Hrun; reflexivity).
  pose proof (waitForRateLimit_spacing w Hfst) as H.
  rewrite Hrun in H. exact H.
Qed.

Lemma acquire_keeps_min_interval_witness :
  let w' := snd (waitForRateLimit freshWorld) in
  lastRequestTime (budget w') = clock w'
  /\ clock freshWorld <= clock w'
  /\ lastRequestTime (budget freshWorld) + MIN_REQUEST_INTERVAL <= lastRequestTime (budget w').
Proof.
  cbn zeta.
  apply (acquire_keeps_min_interval freshWorld (snd (waitForRateLimit freshWorld))).
  reflexivity.
Defined.

(** X2. With the minute window ending at most 60 s from now and the last
    call not in the future, [waitForRateLimit] returns or throws within
    66 s: at most the rest of the minute window, then at most the
    minimum interval. *)
Theorem acquire_waits_at_most_66s (w : World) :
  requestResetTime (budget w) <= clock w + 60000 ->
  lastRequestTime (budget w) <= clock w ->
  clock w <= clock (snd (waitForRateLimit w)) <= clock w + 66000.
Proof.
  run_acquire. intros Hreset Hlast.
  split_tests; try (exfalso; lia); split; lia.
Qed.

Lemma acquire_waits_at_most_66s_witness :
  clock (snd (waitForRateLimit
                (mkWorld 54000 (mkRateBudget 10 60000 54000 10 86400000) [] 0 0 [])))
  = 66000
  /\ 54000 <= clock (snd (waitForRateLimit
                            (mkWorld 54000 (mkRateBudget 10 60000 54000 10 86400000)
                               [] 0 0 [])))
     <= 54000 + 66000.
Proof.
  split; [reflexivity|].
  apply (acquire_waits_at_most_66s
           (mkWorld 54000 (mkRateBudget 10 60000 54000 10 86400000) [] 0 0 []));
    cbn; lia.
Defined.

Lemma newBudget_ok (t : Z) (rows : list Row) (calls queries : nat) (tr : list Event) :
  0 <= t -> budgetOk (mkWorld t (newBudget t) rows calls queries tr).
Proof. intros Ht. unfold budgetOk, MAX_REQUESTS_PER_MINUTE. cbn. lia. Qed.

Lemma waitForRateLimit_budgetOk (w : World) :
  budgetOk w -> budgetOk (snd (waitForRateLimit w)).
Proof.
  unfold budgetOk. run_acquire. intros (Hm & Hd & Hrt & Hdt & Hl).
  split_tests; try (exfalso; lia); repeat split; lia.
Qed.

Lemma sleep_budgetOk (ms : Z) (w : World) : budgetOk w -> budgetOk (slept ms w).
Proof.
  unfold budgetOk, slept, MAX_REQUESTS_PER_MINUTE. quiet_cbn.
  intros (Hm & Hd & Hrt & Hdt & Hl). repeat split; lia.
Qed.

(** *** Calls in flight *)

Ltac pool_cbn :=
  cbn beta iota zeta delta
    [fst snd clock budget table aiCalls dbCalls trace set_budget set_clock log modify
     requestCount requestResetTime lastRequestTime dailyRequestCount dailyResetTime
     set_requestCount set_requestResetTime set_lastRequestTime
     set_dailyRequestCount set_dailyResetTime
     shared sleeping finished nth_error remove_nth app steps step advance idle slept].

Ltac pool_cbn_in H :=
  cbn beta iota zeta delta
    [fst snd clock budget table aiCalls dbCalls trace set_budget set_clock log modify
     requestCount requestResetTime lastRequestTime dailyRequestCount dailyResetTime
     set_requestCount set_requestResetTime set_lastRequestTime
     set_dailyRequestCount set_dailyResetTime
     shared sleeping finished nth_error remove_nth app steps step advance idle slept] in H.

Ltac run_stretch :=
  unfold enter, resume, intervalTest, reserveSlot, waitForRateLimit, resetCounters,
    bind, now, read_budget, when, update_budget, modify, throw, ret, sleep;
  pool_cbn.

Ltac split_ifs :=
  repeat match goal with
         | |- context [if ?c then _ else _] => destruct c eqn:?; pool_cbn
         end.

(** The method is its stretches run one after the other, each sleep
    lasting as long as it was asked to. *)
Lemma waitForRateLimit_stretches (w : World) :
  waitForRateLimit w
  = match enter w with
    | (Throw e, w1) => (Throw e, w1)
    | (Ok Returns, w1) => (Ok tt, w1)
    | (Ok (Awaits ms point), w1) =>
        match resume point (slept ms w1) with
        | (Throw e, w2) => (Throw e, w2)
        | (Ok Returns, w2) => (Ok tt, w2)
        | (Ok (Awaits ms' point'), w2) =>
            (Ok tt, snd (resume point' (slept ms' w2)))
        end
    end.
Proof.
  run_stretch. split_ifs; reflexivity.
Qed.

Lemma settle_single (w : World) (wake : Z) (point : Suspended) (fin : list (Res unit)) :
  clock w <= wake ->
  settle (mkPool w [(wake, point)] fin)
  = Some (advance (mkPool (set_clock wake w) [] fin) (resume point (set_clock wake w))).
Proof.
  intros Hwake. unfold settle. pool_cbn.
  replace (0 <=? wake - clock w) with true by (symmetry; apply Z.leb_le; lia).
  pool_cbn.
  replace (clock w + (wake - clock w)) with wake by lia.
  rewrite Z.leb_refl. reflexivity.
Qed.

Lemma resume_AwaitInterval (w : World) :
  exists w', resume AwaitInterval w = (Ok Returns, w').
Proof. run_stretch. eexists. reflexivity. Qed.

Lemma resume_AwaitMinuteWindow (t : Z) (w : World) :
  (exists w', resume (AwaitMinuteWindow t) w = (Ok Returns, w'))
  \/ (exists ms w', resume (AwaitMinuteWindow t) w = (Ok (Awaits ms AwaitInterval), w')).
Proof. run_stretch. split_ifs; [right|left]; repeat eexists. Qed.

Lemma callAlone_waitForRateLimit (w : World) :
  callAlone w = Some (mkPool (snd (waitForRateLimit w)) [] [fst (waitForRateLimit w)]).
Proof.
  rewrite waitForRateLimit_stretches. unfold callAlone. pool_cbn.
  destruct (enter w) as [[[|ms point]|e] w1]; pool_cbn; try reflexivity.
  rewrite settle_single by (pool_cbn; lia).
  change (set_clock (clock w1 + Z.max 0 ms) (log (EvSleep ms) w1)) with (slept ms w1).
  destruct point as [t|].
  - destruct (resume_AwaitMinuteWindow t (slept ms w1)) as [[w2 H2]|[ms' [w2 H2]]];
      rewrite H2; pool_cbn; [reflexivity|].
    rewrite settle_single by (pool_cbn; lia).
    change (set_clock (clock w2 + Z.max 0 ms') (log (EvSleep ms') w2)) with (slept ms' w2).
    destruct (resume_AwaitInterval (slept ms' w2)) as [w3 H3]. rewrite H3. reflexivity.
  - destruct (resume_AwaitInterval (slept ms w1)) as [w2 H2]. rewrite H2. reflexivity.
Qed.

Lemma steps_app (l1 l2 : list Step) (p : Pool) :
  steps (l1 ++ l2) p
  = match steps l1 p with
    | Some p' => steps l2 p'
    | None => None
    end.
Proof.
  revert p. induction l1 as [|s l1 IH]; intros p; [reflexivity|].
  cbn [app steps]. destruct (step s p); [apply IH|reflexivity].
Qed.

Ltac budget_facts :=
  unfold inFlightOk, budgetOk, MAX_REQUESTS_PER_MINUTE, MIN_REQUEST_INTERVAL in *;
  pool_cbn.

Lemma enter_inFlightOk (w : World) (fin : list (Res unit)) :
  budgetOk w -> inFlightOk (advance (mkPool w [] fin) (enter w)).
Proof.
  unfold inFlightOk, budgetOk. run_stretch.
  unfold MAX_REQUESTS_PER_MINUTE, MIN_REQUEST_INTERVAL.
  intros (Hm & Hd & Hrt & Hdt & Hl).
  repeat match goal with
         | |- context [?a >? ?b] => destruct (Z.gtb_spec a b); pool_cbn
         | |- context [?a >=? ?b] => destruct (Z.geb_spec a b); pool_cbn
         | |- context [?a <? ?b] => destruct (Z.ltb_spec a b); pool_cbn
         end; try (exfalso; lia); repeat split; lia.
Qed.

Lemma resume_inFlightOk (w : World) (wake : Z) (point : Suspended) (fin : list (Res unit)) :
  inFlightOk (mkPool w [(wake, point)] fin) ->
  inFlightOk (advance (mkPool w [] fin) (resume point w)).
Proof.
  unfold inFlightOk, budgetOk. destruct point as [t|]; run_stretch;
    unfold MAX_REQUESTS_PER_MINUTE, MIN_REQUEST_INTERVAL.
  - intros ((Hm & Hd & Hrt & Hdt & Hl) & Hroom).
    repeat match goal with
           | |- context [?a <? ?b] => destruct (Z.ltb_spec a b); pool_cbn
           end; repeat split; lia.
  - intros ((Hm & Hd & Hrt & Hdt & Hl) & Hroom & Hroom'). repeat split; lia.
Qed.

Lemma step_inFlightOk (s : Step) (p p' : Pool) :
  inFlightOk p ->
  (s = Enters -> sleeping p = []) ->
  step s p = Some p' ->
  inFlightOk p'.
Proof.
  intros Hok Hone Hstep. destruct p as [w sl fin].
  destruct s as [|i|ms|]; cbn [step shared sleeping finished] in Hstep.
  - specialize (Hone eq_refl). cbn in Hone. subst sl.
    injection Hstep as <-. apply enter_inFlightOk. apply Hok.
  - destruct sl as [|[wake point] [|second rest]].
    + destruct i; discriminate Hstep.
    + destruct i as [|i]; [|destruct i; discriminate Hstep].
      cbn [nth_error remove_nth] in Hstep.
      destruct (wake <=? clock w); [|discriminate Hstep].
      injection Hstep as <-. apply (resume_inFlightOk w wake point fin Hok).
    + exfalso. destruct Hok as (_ & Hsl). cbn in Hsl.
      destruct point; exact Hsl.
  - destruct (Z.leb_spec 0 ms); [|discriminate Hstep].
    injection Hstep as <-. revert Hok. budget_facts.
    intros ((Hm & Hd & Hrt & Hdt & Hl) & Hsl).
    split; [repeat split; lia|exact Hsl].
  - injection Hstep as <-. revert Hok.
    unfold inFlightOk, budgetOk, resetCounters, bind, now, update_budget, modify,
      MAX_REQUESTS_PER_MINUTE. pool_cbn.
    intros ((Hm & Hd & Hrt & Hdt & Hl) & Hsl).
    split; [repeat split; lia|].
    destruct sl as [|[wake [t|]] [|second rest]]; try exact Hsl.
    destruct Hsl as [_ Hsl]. split; [lia|exact Hsl].
Qed.

Lemma steps_inFlightOk (l : list Step) :
  forall p p' : Pool,
    inFlightOk p -> oneAtATime l p -> steps l p = Some p' -> inFlightOk p'.
Proof.
  induction l as [|s l IH]; intros p p' Hok Hone Hrun.
  - injection Hrun as <-. exact Hok.
  - cbn [steps] in Hrun. cbn [oneAtATime] in Hone. destruct Hone as [Hfirst Hrest].
    destruct (step s p) as [p1|] eqn:Hstep; [|discriminate Hrun].
    apply (IH p1 p'); [|exact Hrest|exact Hrun].
    apply (step_inFlightOk s p p1 Hok Hfirst Hstep).
Qed.

Lemma inFlightOk_one_sleeper (p : Pool) : inFlightOk p -> (List.length (sleeping p) <= 1)%nat.
Proof.
  intros (_ & Hsl). destruct (sleeping p) as [|[wake point] [|second rest]]; cbn; try lia.
  exfalso. destruct point; exact Hsl.
Qed.

(** X3. With one call in flight at a time the rate budget stays in the
    state it has from construction on.  A call that has the service to
    itself is [waitForRateLimit] as one step, and whatever it does
    (return or throw), and after [resetCounters], the minute counter is
    between 0 and 10, the day counter between 0 and 1000, each window
    ends at most one window length from now, and the last call is not
    in the future.  The same holds between any two steps of a schedule
    of calls, timers, resets and passing time in which no call enters
    while another sleeps. *)
Theorem acquire_keeps_budget_ok (w : World) :
  budgetOk w ->
  budgetOk (snd (waitForRateLimit w))
  /\ budgetOk (snd (resetCounters w))
  /\ callAlone w = Some (mkPool (snd (waitForRateLimit w)) [] [fst (waitForRateLimit w)])
  /\ (forall (l : list Step) (p' : Pool),
        oneAtATime l (idle w) ->
        steps l (idle w) = Some p' ->
        budgetOk (shared p') /\ (List.length (sleeping p') <= 1)%nat).
Proof.
  intros Hok. split; [apply waitForRateLimit_budgetOk; exact Hok|].
  split.
  { revert Hok. unfold budgetOk, resetCounters, bind, now, update_budget, modify,
      MAX_REQUESTS_PER_MINUTE. quiet_cbn.
    intros (Hm & Hd & Hrt & Hdt & Hl). repeat split; lia. }
  split; [apply callAlone_waitForRateLimit|].
  intros l p' Hone Hrun.
  assert (Hstart : inFlightOk (idle w)) by (split; [exact Hok|exact I]).
  pose proof (steps_inFlightOk l (idle w) p' Hstart Hone Hrun) as Hend.
  split; [apply Hend|apply inFlightOk_one_sleeper; exact Hend].
Qed.

Lemma acquire_keeps_budget_ok_witness :
  budgetOk freshWorld
  /\ budgetOk (snd (waitForRateLimit freshWorld))
  /\ budgetOk (snd (resetCounters freshWorld))
  /\ callAlone freshWorld
     = Some (mkPool (snd (waitForRateLimit freshWorld)) [] [Ok tt]).
Proof.
  assert (Hok : budgetOk freshWorld).
  { unfold budgetOk, MAX_REQUESTS_PER_MINUTE. cbn. lia. }
  split; [exact Hok|].
  destruct (acquire_keeps_budget_ok freshWorld Hok) as (Ha & Hr & Halone & _).
  split; [exact Ha|]. split; [exact Hr|]. exact Halone.
Defined.

Lemma enter_throttled (w : World) :
  requestCount (budget w) < MAX_REQUESTS_PER_MINUTE ->
  dailyRequestCount (budget w) < 1000 ->
  clock w <= requestResetTime (budget w) ->
  clock w <= dailyResetTime (budget w) ->
  clock w < lastRequestTime (budget w) + MIN_REQUEST_INTERVAL ->
  enter w
  = (Ok (Awaits (MIN_REQUEST_INTERVAL - (clock w - lastRequestTime (budget w))) AwaitInterval),
     w).
Proof.
  intros Hm Hd Hrt Hdt Hl. run_stretch.
  replace (clock w >? requestResetTime (budget w)) with false
    by (symmetry; rewrite Z.gtb_ltb; apply Z.ltb_ge; lia).
  pool_cbn.
  replace (clock w >? dailyResetTime (budget w)) with false
    by (symmetry; rewrite Z.gtb_ltb; apply Z.ltb_ge; lia).
  pool_cbn.
  replace (dailyRequestCount (budget w) >=? 1000) with false
    by (symmetry; rewrite Z.geb_leb; apply Z.leb_gt; lia).
  pool_cbn.
  replace (requestCount (budget w) >=? MAX_REQUESTS_PER_MINUTE) with false
    by (symmetry; rewrite Z.geb_leb; apply Z.leb_gt; lia).
  replace (clock w - lastRequestTime (budget w) <? MIN_REQUEST_INTERVAL) with true
    by (symmetry; apply Z.ltb_lt; lia).
  destruct w; reflexivity.
Qed.

Lemma enters_spread (rest : list Step) :
  forall (gaps : list Z) (w : World) (sl : list (Z * Suspended)) (fin : list (Res unit)),
    Forall (fun gap => 0 <= gap) gaps ->
    requestCount (budget w) < MAX_REQUESTS_PER_MINUTE ->
    dailyRequestCount (budget w) < 1000 ->
    clock w + sumZ gaps <= requestResetTime (budget w) ->
    clock w + sumZ gaps <= dailyResetTime (budget w) ->
    clock w + sumZ gaps < lastRequestTime (budget w) + MIN_REQUEST_INTERVAL ->
    exists (w' : World) (delays : list Z),
      steps (flat_map (fun gap => [Passes gap; Enters]) gaps ++ rest) (mkPool w sl fin)
      = steps rest
          (mkPool w'
             (sl ++ repeat (lastRequestTime (budget w) + MIN_REQUEST_INTERVAL, AwaitInterval)
                      (List.length gaps))
             fin)
      /\ clock w' = clock w + sumZ gaps
      /\ budget w' = budget w
      /\ trace w' = (trace w ++ List.map EvSleep delays)%list
      /\ List.length delays = List.length gaps
      /\ Forall (fun ms => 0 < ms) delays.
Proof.
  induction gaps as [|gap gaps IH]; intros w sl fin Hgaps Hm Hd Hrt Hdt Hl.
  - exists w, []. cbn [flat_map app List.length repeat sumZ fold_right List.map].
    rewrite !app_nil_r. repeat split; try reflexivity; try constructor.
    unfold sumZ. cbn. lia.
  - inversion Hgaps as [|? ? Hgap Hrest]; subst.
    assert (Htot : 0 <= sumZ gaps).
    { clear - Hrest. induction Hrest as [|g l Hg _ IHl]; cbn; [lia|]. unfold sumZ in *. cbn. lia. }
    change (sumZ (gap :: gaps)) with (gap + sumZ gaps) in *.
    cbn [flat_map app steps step shared sleeping finished].
    replace (0 <=? gap) with true by (symmetry; apply Z.leb_le; exact Hgap).
    pool_cbn.
    rewrite enter_throttled by (pool_cbn; lia). pool_cbn.
    match goal with
    | |- context [steps _ (mkPool ?w1 ?sl1 ?fin1)] =>
        destruct (IH w1 sl1 fin1) as (w' & delays & Hrun & Hclock & Hbudget & Htrace & Hlen & Hpos);
          try (pool_cbn; lia); [exact Hrest|]
    end.
    pool_cbn_in Hrun. pool_cbn_in Hclock. pool_cbn_in Hbudget. pool_cbn_in Htrace.
    exists w', ((MIN_REQUEST_INTERVAL - (clock w + gap - lastRequestTime (budget w))) :: delays).
    rewrite Hrun. split.
    + rewrite <- app_assoc. cbn [app List.length repeat].
      replace (clock w + gap
               + Z.max 0 (MIN_REQUEST_INTERVAL - (clock w + gap - lastRequestTime (budget w))))
        with (lastRequestTime (budget w) + MIN_REQUEST_INTERVAL) by lia.
      reflexivity.
    + split; [lia|]. split; [exact Hbudget|].
      split; [rewrite Htrace, <- app_assoc; reflexivity|].
      split; [cbn; lia|]. constructor; [lia|exact Hpos].
Qed.

Lemma wakes_reserve (wake : Z) :
  forall (k : nat) (w : World) (fin : list (Res unit)),
    wake <= clock w ->
    exists w' : World,
      steps (repeat (Wakes 0) k) (mkPool w (repeat (wake, AwaitInterval) k) fin)
      = Some (mkPool w' [] (fin ++ repeat (Ok tt) k))
      /\ requestCount (budget w') = requestCount (budget w) + Z.of_nat k
      /\ dailyRequestCount (budget w') = dailyRequestCount (budget w) + Z.of_nat k
      /\ clock w' = clock w
      /\ trace w' = trace w
      /\ ((1 <= k)%nat -> lastRequestTime (budget w') = clock w).
Proof.
  induction k as [|k IH]; intros w fin Hwake.
  - exists w. cbn [repeat steps]. rewrite app_nil_r.
    repeat split; lia.
  - cbn [repeat steps step shared sleeping finished nth_error remove_nth].
    replace (wake <=? clock w) with true by (symmetry; apply Z.leb_le; lia).
    run_stretch.
    match goal with
    | |- context [steps _ (mkPool ?w1 _ ?fin1)] =>
        destruct (IH w1 fin1) as (w' & Hrun & Hrc & Hdc & Hclock & Htrace & Hlast);
          [pool_cbn; lia|]
    end.
    exists w'. rewrite Hrun, <- app_assoc.
    pool_cbn_in Hrc. pool_cbn_in Hdc. pool_cbn_in Hclock. pool_cbn_in Htrace.
    split; [reflexivity|].
    split; [lia|]. split; [lia|]. split; [exact Hclock|]. split; [exact Htrace|].
    intros _. destruct k as [|k]; [|apply Hlast; lia].
    cbn [repeat steps] in Hrun. injection Hrun as <-. reflexivity.
Qed.

Lemma acquire_succeeds_below_cap (w : World) :
  0 <= dailyRequestCount (budget w) < 1000 ->
  fst (waitForRateLimit w) = Ok tt
  /\ 0 <= dailyRequestCount (budget (snd (waitForRateLimit w)))
       <= dailyRequestCount (budget w) + 1.
Proof.
  run_acquire. intros Hd.
  split_tests; try (exfalso; lia); (split; [reflexivity|lia]).
Qed.

(** X4. As long as the day counter leaves room for them, [n] acquires in
    a row all succeed, and they are spread out: the last slot is at
    least [6000 * n] ms after the slot taken before the first, so the
    [n] calls take at least [6000 * (n - 1)] ms; twelve take 66 s or
    more, and no eleven fit into less than 60 s. *)
Theorem consecutive_acquires_are_spread (n : nat) (w : World) :
  0 <= dailyRequestCount (budget w) ->
  dailyRequestCount (budget w) + Z.of_nat n <= 1000 ->
  exists w',
    acquireTimes n w = (Ok tt, w')
    /\ lastRequestTime (budget w) + 6000 * Z.of_nat n <= lastRequestTime (budget w')
    /\ clock w <= clock w'
    /\ ((1 <= n)%nat ->
        lastRequestTime (budget w') = clock w'
        /\ clock w + 6000 * (Z.of_nat n - 1) <= clock w').
Proof.
  revert w. induction n as [|n IH]; intros w H0 Hroom.
  - exists w. cbn. repeat split; lia.
  - cbn [acquireTimes]. unfold bind at 1.
    destruct (acquire_succeeds_below_cap w) as [Hok Hd]; [lia|].
    pose proof (waitForRateLimit_spacing w Hok) as (Hlast & Hclock & Hgap).
    destruct (waitForRateLimit w) as [r w1] eqn:Hrun.
    cbn [fst snd] in Hok, Hd, Hlast, Hclock, Hgap. subst r.
    destruct (IH w1) as (w' & Hrest & Hl' & Hc' & Hn'); [lia|lia|].
    exists w'. split; [exact Hrest|]. split; [lia|]. split; [lia|].
    intros _. destruct n as [|n].
    + cbn in Hrest. injection Hrest as <-. split; lia.
    + destruct Hn' as [Heq Hspan]; [lia|]. split; lia.
Qed.

Lemma consecutive_acquires_are_spread_witness :
  exists w',
    acquireTimes 12 freshWorld = (Ok tt, w')
    /\ clock freshWorld + 66000 <= clock w'.
Proof.
  destruct (consecutive_acquires_are_spread 12 freshWorld) as (w' & Hrun & _ & _ & Hn).
  - cbn. lia.
  - cbn. lia.
  - exists w'. split; [exact Hrun|].
    destruct Hn as [_ Hspan]; [lia|]. lia.
Defined.

(** Twelve acquires of a service constructed at time 6000: the first ten
    are 6 s apart, the eleventh waits for the minute window and then for
    the interval once more, so that the twelve take 72 s. *)
Example twelve_acquires :
  let w := mkWorld 6000 (newBudget 6000) [] 0 0 [] in
  fst (acquireTimes 12 w) = Ok tt
  /\ clock (snd (acquireTimes 10 w)) = 60000
  /\ clock (snd (acquireTimes 11 w)) = 72000
  /\ clock (snd (acquireTimes 12 w)) = 78000.
Proof. cbn zeta. repeat split; vm_compute; reflexivity. Qed.

(** ** The rate limiter: the status report *)

Lemma ceilDiv_bounds (a b k : Z) : 0 < b -> a <= k * b -> ceilDiv a b <= k.
Proof.
  intros Hb Ha. unfold ceilDiv.
  assert (- k <= (- a) / b); [|lia].
  apply Z.div_le_lower_bound; [exact Hb|]. nia.
Qed.

(** X5. [getRateLimitStatus] changes nothing and reports, for a budget
    in its regular state, figures that add up: used + remaining is 10
    for the minute and 1000 for the day, the minute window is reported
    to end in 0 to 60 seconds and the day window in 0 to 24 hours.  The
    report agrees with the limiter: with a positive
    [dailyRequestsRemaining] the next acquire returns, and with none
    left, inside the day window, it throws. *)
Theorem status_report_adds_up (w : World) :
  budgetOk w ->
  exists st,
    getRateLimitStatus w = (Ok st, w)
    /\ requestsUsedThisMinute st + requestsRemainingThisMinute st = 10
    /\ dailyRequestsUsed st + dailyRequestsRemaining st = 1000
    /\ 0 <= minuteResetIn st <= 60
    /\ 0 <= dailyResetIn st <= 24
    /\ (0 < dailyRequestsRemaining st -> fst (waitForRateLimit w) = Ok tt)
    /\ (dailyRequestsRemaining st = 0 -> clock w <= dailyResetTime (budget w) ->
        fst (waitForRateLimit w) = Throw (newError quotaExhaustedMessage)).
Proof.
  intros (Hm & Hd & Hrt & Hdt & Hl). unfold MAX_REQUESTS_PER_MINUTE in Hm.
  eexists. split; [reflexivity|]. cbn [requestsUsedThisMinute requestsRemainingThisMinute
    dailyRequestsUsed dailyRequestsRemaining minuteResetIn dailyResetIn].
  unfold MAX_REQUESTS_PER_MINUTE.
  assert (H60 : ceilDiv (requestResetTime (budget w) - clock w) 1000 <= 60)
    by (apply ceilDiv_bounds; lia).
  assert (H24 : ceilDiv (dailyResetTime (budget w) - clock w) 3600000 <= 24)
    by (apply ceilDiv_bounds; lia).
  split; [lia|]. split; [lia|]. split; [lia|]. split; [lia|]. split.
  - intros Hrem.
    destruct (acquire_succeeds_below_cap w) as [Hok _]; [lia|exact Hok].
  - intros Hrem Hday.
    rewrite (waitForRateLimit_spent w); [reflexivity|].
    apply dayQuotaSpent_true; lia.
Qed.

Lemma status_report_adds_up_witness :
  exists st,
    getRateLimitStatus spentWorld = (Ok st, spentWorld)
    /\ dailyRequestsRemaining st = 0
    /\ dailyResetIn st = 12
    /\ fst (waitForRateLimit spentWorld) = Throw (newError quotaExhaustedMessage).
Proof.
  destruct (status_report_adds_up spentWorld)
    as (st & Hst & _ & _ & _ & _ & _ & Hthrow).
  - unfold budgetOk, MAX_REQUESTS_PER_MINUTE. cbn. lia.
  - exists st. split; [exact Hst|].
    assert (Heq : st = {| requestsUsedThisMinute := 0;
                          requestsRemainingThisMinute := 10;
                          minuteResetIn := 0;
                          dailyRequestsUsed := 1000;
                          dailyRequestsRemaining := 0;
                          dailyResetIn := 12 |}).
    { assert (H : getRateLimitStatus spentWorld
                  = (Ok {| requestsUsedThisMinute := 0;
                           requestsRemainingThisMinute := 10;
                           minuteResetIn := 0;
                           dailyRequestsUsed := 1000;
                           dailyRequestsRemaining := 0;
                           dailyResetIn := 12 |}, spentWorld)) by reflexivity.
      rewrite H in Hst. injection Hst as <-. reflexivity. }
    subst st. split; [reflexivity|]. split; [reflexivity|].
    apply Hthrow; [reflexivity|cbn; lia].
Defined.

(** ** The retry executor: what it throws and what it returns *)

Lemma status_is_newError msg code : status_is (newError msg) code = false.
Proof. reflexivity. Qed.

Lemma retryLoop_unfold {T} (fn : M T) op mr d k attempt le :
  retryLoop fn op mr d (S k) attempt le =
    tryCatch (waitForRateLimit ;;; fn)
      (fun error =>
         if status_is error 404 then throw (modelNotAvailable error)
         else if status_is error 429 then
           if attempt <? mr - 1 then
             sleep (rateLimitDelay d attempt error) ;;;
             retryLoop fn op mr d k (attempt + 1) (Some error)
           else throw (newError (rateLimitExceededMessage mr))
         else if attempt <? mr - 1 then
           sleep (backoffDelay d attempt) ;;;
           retryLoop fn op mr d k (attempt + 1) (Some error)
         else throw error).
Proof. reflexivity. Qed.

Lemma retryLoop_thrown_status {T} (fn : M T) op mr d :
  forall (n : nat) attempt le (w w' : World) e,
    Z.of_nat (S n) = mr - attempt ->
    retryLoop fn op mr d (S n) attempt le w = (Throw e, w') ->
    status_is e 404 = false /\ status_is e 429 = false.
Proof.
  induction n as [|n IH]; intros attempt le w w' e Hn;
    rewrite retryLoop_unfold; unfold tryCatch at 1;
    destruct ((waitForRateLimit;;; fn) w) as [[x|err] w1]; try discriminate;
    destruct (status_is err 404) eqn:H404;
    try (unfold throw, modelNotAvailable; intros H; injection H as <- <-;
         split; apply status_is_newError);
    destruct (status_is err 429) eqn:H429;
    destruct (Z.ltb_spec attempt (mr - 1)) as [Hlt|Hge]; try (exfalso; lia);
    try (unfold throw; intros H; injection H as <- <-;
         first [split; apply status_is_newError | split; assumption]).
  - unfold bind at 1. cbn [sleep modify]. intros H.
    refine (IH (attempt + 1) _ _ _ _ _ H). lia.
  - unfold bind at 1. cbn [sleep modify]. intros H.
    refine (IH (attempt + 1) _ _ _ _ _ H). lia.
Qed.

(** X6. An error that leaves [retryWithBackoff] never has the status 404
    or 429: those two are replaced by new errors without a status.  The
    test [error.status === 429] in the [catch] of [generateSummary] and
    [generateEmbedding] therefore never succeeds on it, and whether the
    failure is reported as "API quota exceeded" depends on the message
    alone. *)
Theorem retry_errors_carry_no_retry_status {T} (fn : M T) (op what : string)
    (mr d : option Z) (w w' : World) (e : JsError) :
  retryWithBackoff fn op mr d w = (Throw e, w') ->
  status_is e 404 = false
  /\ status_is e 429 = false
  /\ rethrowFrom what e
     = (if includes (message e) "quota" then apiQuotaExceeded
        else newError (what ++ " failed: " ++ message e)).
Proof.
  intros Hrun.
  assert (Hst : status_is e 404 = false /\ status_is e 429 = false).
  { unfold retryWithBackoff in Hrun.
    set (m := match mr with Some n => n | None => 3 end) in *.
    destruct (Z.to_nat m) as [|n] eqn:Hn.
    - cbn in Hrun. injection Hrun as <- <-. split; apply status_is_newError.
    - eapply retryLoop_thrown_status; [|exact Hrun]. lia. }
  destruct Hst as [H404 H429]. split; [exact H404|]. split; [exact H429|].
  unfold rethrowFrom. rewrite H429. reflexivity.
Qed.

Lemma retry_errors_carry_no_retry_status_witness :
  let r := retryWithBackoff
             (callGenerateContent (failing 429 "You exceeded your current quota" []) "prompt")
             "Summary generation" (Some 3) (Some 3000) freshWorld in
  fst r = Throw (newError (rateLimitExceededMessage 3))
  /\ rethrowFrom "Summary generation" (newError (rateLimitExceededMessage 3))
     = newError ("Summary generation failed: " ++ rateLimitExceededMessage 3).
Proof.
  cbn zeta. split; [vm_compute; reflexivity|].
  destruct (retry_errors_carry_no_retry_status
              (callGenerateContent (failing 429 "You exceeded your current quota" []) "prompt")
              "Summary generation" "Summary generation" (Some 3) (Some 3000) freshWorld
              (snd (retryWithBackoff
                      (callGenerateContent
                         (failing 429 "You exceeded your current quota" []) "prompt")
                      "Summary generation" (Some 3) (Some 3000) freshWorld))
              (newError (rateLimitExceededMessage 3)))
    as (_ & _ & Hre).
  - vm_compute. reflexivity.
  - rewrite Hre. reflexivity.
Defined.

Lemma retryLoop_returns_what_fn_returned {T} (fn : M T) op mr d
    (Hfn : forall w, aiCalls (snd (fn w)) = S (aiCalls w)) :
  forall (n : nat) attempt le (w w' : World) x,
    retryLoop fn op mr d n attempt le w = (Ok x, w') ->
    exists w1, fn w1 = (Ok x, w') /\ (aiCalls w <= aiCalls w1)%nat.
Proof.
  induction n as [|n IH]; intros attempt le w w' x; [cbn; discriminate|].
  cbn [retryLoop]. unfold tryCatch at 1, bind at 1.
  destruct (waitForRateLimit_frame w) as (_ & Hai & _).
  destruct (waitForRateLimit w) as [[[]|e] w1]; cbn [snd] in Hai.
  - pose proof (Hfn w1) as Hbump.
    destruct (fn w1) as [[y|e] w2] eqn:Hrun; cbn [snd] in Hbump.
    + intros H. injection H as <- <-. exists w1. split; [exact Hrun|lia].
    + destruct (status_is e 404); [discriminate|].
      destruct (status_is e 429); destruct (attempt <? mr - 1); try discriminate;
        unfold bind at 1; cbn [sleep modify]; intros H;
        apply IH in H; destruct H as (w3 & Hw3 & Hle);
        exists w3; (split; [exact Hw3|]); cbn in Hle; lia.
  - destruct (status_is e 404); [discriminate|].
    destruct (status_is e 429); destruct (attempt <? mr - 1); try discriminate;
      unfold bind at 1; cbn [sleep modify]; intros H;
      apply IH in H; destruct H as (w3 & Hw3 & Hle);
      exists w3; (split; [exact Hw3|]); cbn in Hle; lia.
Qed.

(** ** The enricher: what a success is made of, what a failure costs *)

Lemma summaryCall_bumps env prompt (w : World) :
  aiCalls (snd ((text' <- callGenerateContent env prompt ;; ret (trim text')) w))
  = S (aiCalls w).
Proof.
  unfold bind, callGenerateContent, ret.
  destruct (generateContent env (aiCalls w) prompt); reflexivity.
Qed.

Lemma embedCall_bumps env text (w : World) :
  aiCalls (snd (callEmbedContent env text w)) = S (aiCalls w).
Proof. reflexivity. Qed.

Lemma generateSummary_calls env text (w : World) :
  (aiCalls (snd (generateSummary env text w)) <= aiCalls w + 3)%nat.
Proof.
  unfold generateSummary, tryCatch. cbn zeta.
  pose proof (retryLoop_tries_bounded _ "Summary generation" 3 3000
                (summaryCall_bumps env (summaryPrompt (truncateForSummary text)))
                3 0 None w) as H.
  unfold retryWithBackoff. change (Z.to_nat 3) with 3%nat.
  destruct (retryLoop _ _ _ _ _ _ _ w) as [[s|e] w1]; exact H.
Qed.

Lemma generateEmbedding_calls env text (w : World) :
  (aiCalls (snd (generateEmbedding env text w)) <= aiCalls w + 3)%nat.
Proof.
  unfold generateEmbedding, tryCatch. cbn zeta. unfold bind at 1.
  pose proof (retryLoop_tries_bounded _ "Embedding generation" 3 3000
                (embedCall_bumps env (truncateForEmbedding text))
                3 0 None w) as H.
  unfold retryWithBackoff. change (Z.to_nat 3) with 3%nat.
  destruct (retryLoop _ _ _ _ _ _ _ w) as [[[v|]|e] w1]; cbn [snd] in H |- *;
    try exact H.
  destruct (negb (Nat.eqb (List.length v) 768)); exact H.
Qed.

Lemma generateSummary_ok env text (w w' : World) (s : string) :
  generateSummary env text w = (Ok s, w') ->
  exists i raw,
    (aiCalls w <= i < aiCalls w')%nat
    /\ generateContent env i (summaryPrompt (truncateForSummary text)) = Ok raw
    /\ s = trim raw.
Proof.
  unfold generateSummary, tryCatch. cbn zeta. unfold retryWithBackoff.
  destruct (retryLoop _ _ _ _ _ _ _ w) as [[x|e] w1] eqn:Hrun; [|discriminate].
  intros H. injection H as <- <-.
  destruct (retryLoop_returns_what_fn_returned _ _ _ _
              (summaryCall_bumps env (summaryPrompt (truncateForSummary text)))
              _ _ _ _ _ _ Hrun) as (w0 & Hfn & Hle).
  unfold bind, callGenerateContent, ret in Hfn.
  destruct (generateContent env (aiCalls w0) _) as [raw|e] eqn:Hraw; [|discriminate].
  injection Hfn as <- <-.
  exists (aiCalls w0), raw. cbn. repeat split; try assumption; lia.
Qed.

Lemma generateEmbedding_ok env text (w w' : World) (v : list number) :
  generateEmbedding env text w = (Ok v, w') ->
  List.length v = 768%nat
  /\ exists j,
       (aiCalls w <= j < aiCalls w')%nat
       /\ embedContent env j (truncateForEmbedding text) = Ok (Some v).
Proof.
  unfold generateEmbedding, tryCatch. cbn zeta. unfold bind at 1.
  unfold retryWithBackoff.
  destruct (retryLoop _ _ _ _ _ _ _ w) as [[[x|]|e] w1] eqn:Hrun;
    try discriminate.
  destruct (Nat.eqb_spec (List.length x) 768) as [Hlen|Hlen]; cbn [negb];
    [|discriminate].
  intros H. injection H as <- <-. split; [exact Hlen|].
  destruct (retryLoop_returns_what_fn_returned _ _ _ _
              (embedCall_bumps env (truncateForEmbedding text))
              _ _ _ _ _ _ Hrun) as (w0 & Hfn & Hle).
  unfold callEmbedContent in Hfn. injection Hfn as Hv <-.
  exists (aiCalls w0). cbn. repeat split; try assumption; lia.
Qed.

Lemma generateSummaryAndEmbedding_ok env text (w w' : World) s v :
  generateSummaryAndEmbedding env text w = (Ok (s, v), w') ->
  exists w1,
    generateSummary env text w = (Ok s, w1)
    /\ generateEmbedding env text (slept 2000 w1) = (Ok v, w').
Proof.
  unfold generateSummaryAndEmbedding, tryCatch. unfold bind at 1.
  destruct (generateSummary env text w) as [[s0|e] w1] eqn:Hs; [|discriminate].
  unfold bind at 1. unfold sleep at 1, modify at 1.
  change (log (EvSleep 2000) (set_clock (clock w1 + Z.max 0 2000) w1))
    with (slept 2000 w1).
  unfold bind at 1.
  destruct (generateEmbedding env text (slept 2000 w1)) as [[v0|e] w2] eqn:He;
    [|discriminate].
  intros H. injection H as <- <- <-. exists w1. split; [reflexivity|exact He].
Qed.

(** [trim] removes the no-break space as it removes the other white
    space. *)
Example trim_removes_no_break_space :
  trim (String (ascii_of_nat 160) (" A summary." ++ String (ascii_of_nat 160) newline))
  = "A summary.".
Proof. reflexivity. Qed.

(** X7. A successful enrichment is made of upstream answers: the summary
    is the trimmed text the model gave for the prompt built from [text],
    the embedding is the vector the embedding model gave for the
    truncated [text], it has exactly 768 numbers, and between two and
    six upstream calls were spent on it. *)
Theorem enrichment_returns_upstream_answers (env : Env) (text : string)
    (w w' : World) (summary : string) (v : list number) :
  generateSummaryAndEmbedding env text w = (Ok (summary, v), w') ->
  (exists i raw,
      (aiCalls w <= i < aiCalls w')%nat
      /\ generateContent env i (summaryPrompt (truncateForSummary text)) = Ok raw
      /\ summary = trim raw)
  /\ (exists j,
         (aiCalls w <= j < aiCalls w')%nat
         /\ embedContent env j (truncateForEmbedding text) = Ok (Some v))
  /\ List.length v = 768%nat
  /\ (aiCalls w + 2 <= aiCalls w' <= aiCalls w + 6)%nat.
Proof.
  intros Hrun.
  destruct (generateSummaryAndEmbedding_ok env text w w' summary v Hrun)
    as (w1 & Hs & He).
  destruct (generateSummary_ok env text w w1 summary Hs) as (i & raw & Hi & Hraw & Htrim).
  destruct (generateEmbedding_ok env text (slept 2000 w1) w' v He)
    as (Hlen & j & Hj & Hvec).
  pose proof (generateSummary_calls env text w) as Hs3. rewrite Hs in Hs3.
  pose proof (generateEmbedding_calls env text (slept 2000 w1)) as He3. rewrite He in He3.
  cbn in Hj, He3, Hs3.
  split; [exists i, raw; repeat split; try assumption; lia|].
  split; [exists j; repeat split; try assumption; lia|].
  split; [exact Hlen|]. lia.
Qed.

Lemma enrichment_returns_upstream_answers_witness :
  let r := generateSummaryAndEmbedding (answering 768 []) "Some text." freshWorld in
  fst r = Ok ("A summary.", vector 768)
  /\ (aiCalls freshWorld + 2 <= aiCalls (snd r) <= aiCalls freshWorld + 6)%nat.
Proof.
  cbn zeta. split; [vm_compute; reflexivity|].
  apply (enrichment_returns_upstream_answers (answering 768 []) "Some text." freshWorld
           (snd (generateSummaryAndEmbedding (answering 768 []) "Some text." freshWorld))
           "A summary." (vector 768)).
  vm_compute. reflexivity.
Defined.

Lemma enrichment_callsGrow env text :
  respects callsGrow (generateSummaryAndEmbedding env text).
Proof.
  apply respects_generateSummaryAndEmbedding; unfold callsGrow.
  - intros w. lia.
  - intros w1 w2 w3 H1 H2. lia.
  - intros ms w. cbn. lia.
  - intros b w. cbn. lia.
  - intros w. cbn. lia.
  - intros w. cbn. lia.
Qed.

Lemma enrichment_calls env text (w : World) :
  (aiCalls w <= aiCalls (snd (generateSummaryAndEmbedding env text w)) <= aiCalls w + 6)%nat.
Proof.
  split; [apply enrichment_callsGrow|].
  unfold generateSummaryAndEmbedding, tryCatch. unfold bind at 1.
  pose proof (generateSummary_calls env text w) as Hs.
  destruct (generateSummary env text w) as [[s|e] w1]; cbn [snd] in Hs |- *;
    [|unfold throw; cbn [snd]; lia].
  unfold bind at 1. unfold sleep at 1, modify at 1.
  change (log (EvSleep 2000) (set_clock (clock w1 + Z.max 0 2000) w1))
    with (slept 2000 w1).
  unfold bind at 1.
  pose proof (generateEmbedding_calls env text (slept 2000 w1)) as He.
  destruct (generateEmbedding env text (slept 2000 w1)) as [[v|e] w2];
    unfold ret, throw; cbn [snd slept aiCalls log set_clock] in He |- *; lia.
Qed.

(** X8. The two upstream calls of an enrichment are made one after the
    other, and a failed summary ends it: the error of [generateSummary]
    is the error of the enrichment, the embedding model is not called,
    and the failure has cost at most three upstream calls. *)
Theorem failed_summary_skips_embedding (env : Env) (text : string)
    (w w1 : World) (e : JsError) :
  generateSummary env text w = (Throw e, w1) ->
  generateSummaryAndEmbedding env text w = (Throw e, w1)
  /\ (forall t, In (EvEmbedContent t) (trace w1) -> In (EvEmbedContent t) (trace w))
  /\ (aiCalls w1 <= aiCalls w + 3)%nat.
Proof.
  intros Hs. split; [|split].
  - unfold generateSummaryAndEmbedding, tryCatch. unfold bind at 1. rewrite Hs. reflexivity.
  - intros t Hin.
    pose proof (generateSummary_emitted env text w) as Hem. rewrite Hs in Hem.
    destruct (emitted_In _ _ _ _ Hem Hin) as [Hold|[Hsl|Heq]];
      [exact Hold|destruct Hsl|discriminate Heq].
  - pose proof (generateSummary_calls env text w) as H. rewrite Hs in H. exact H.
Qed.

Lemma failed_summary_skips_embedding_witness :
  let env := failing 503 "Service Unavailable" [] in
  let w1 := snd (generateSummary env "Some text." freshWorld) in
  generateSummaryAndEmbedding env "Some text." freshWorld
  = (Throw (newError "Summary generation failed: Service Unavailable"), w1)
  /\ aiCalls w1 = 3%nat.
Proof.
  cbn zeta. split; [|vm_compute; reflexivity].
  apply (failed_summary_skips_embedding (failing 503 "Service Unavailable" [])
           "Some text." freshWorld).
  vm_compute. reflexivity.
Defined.

(** ** The pipeline: the books of a batch *)

Lemma ledger_refl us c w : ledger us c w c w.
Proof.
  exists []. rewrite app_nil_r. cbn [List.length].
  repeat split; try lia. constructor.
Qed.

Lemma persistedRow_earlier us (w w1 : World) rows1 r :
  table w1 = (table w ++ rows1)%list -> persistedRow us w1 r -> persistedRow us w r.
Proof.
  intros Ht (Hlen & Hin & Hfresh). repeat split; try assumption.
  intros Hold. apply Hfresh. unfold urls in *. rewrite Ht, map_app.
  apply in_or_app. left. exact Hold.
Qed.

Lemma ledger_trans us c w c1 w1 c2 w2 :
  ledger us c w c1 w1 -> ledger us c1 w1 c2 w2 -> ledger us c w c2 w2.
Proof.
  intros (r1 & Ht1 & Hn1 & Hp1 & He1 & Hf1 & Hs1 & Hlo1 & Hup1)
         (r2 & Ht2 & Hn2 & Hp2 & He2 & Hf2 & Hs2 & Hlo2 & Hup2).
  exists (r1 ++ r2)%list. rewrite Ht2, Ht1, <- app_assoc, length_app, Nat2Z.inj_add.
  split; [reflexivity|]. split; [lia|]. split.
  - apply Forall_app. split; [exact Hp1|].
    eapply Forall_impl; [|exact Hp2].
    intros r. apply persistedRow_earlier with (rows1 := r1). exact Ht1.
  - repeat split; lia.
Qed.

Lemma enrichment_ok_facts env text (w w' : World) s v :
  generateSummaryAndEmbedding env text w = (Ok (s, v), w') ->
  List.length v = 768%nat /\ (aiCalls w + 2 <= aiCalls w')%nat.
Proof.
  intros Hrun.
  destruct (generateSummaryAndEmbedding_ok env text w w' s v Hrun) as (w1 & Hs & He).
  destruct (generateSummary_ok env text w w1 s Hs) as (i & raw & Hi & _).
  destruct (generateEmbedding_ok env text (slept 2000 w1) w' v He) as (Hlen & j & Hj & _).
  cbn in Hj. split; [exact Hlen|lia].
Qed.

Lemma body_ledger createInput env body us :
  catchesAsFailure createInput env body ->
  (forall a s v, ci_url (createInput a s v) = na_url a) ->
  (forall a s v, ci_embedding (createInput a s v) = v) ->
  forall article c w,
    In (na_url article) us ->
    exists c' b w', body article c w = (Ok (c', b), w') /\ ledger us c w c' w'.
Proof.
  intros Hcatch Hurl Hemb article c w Hin.
  generalize (Hcatch article c w).
  assert (Hframe : forall r w2,
             generateSummaryAndEmbedding env (contentForAI article)
               (afterExists (na_url article) w) = (r, w2) ->
             table w2 = table w
             /\ (aiCalls w <= aiCalls w2 <= aiCalls w + 6)%nat).
  { intros r w2 Hrun.
    pose proof (enrichment_sameStore env (contentForAI article)
                  (afterExists (na_url article) w)) as [Ht _].
    pose proof (enrichment_calls env (contentForAI article)
                  (afterExists (na_url article) w)) as Hc.
    rewrite Hrun in Ht, Hc. cbn in Ht, Hc. split; [exact Ht|exact Hc]. }
  destruct (tryArticle_outcome env createInput article c w) as
      [Hq Hu | summary emb w2 Hq Hu Hg Hq2 | e Hq | e w2 Hq Hu Hg
       | summary emb w2 e Hq Hu Hg Hq2].
  - intros Hb. do 3 eexists. split; [exact Hb|].
    exists []. cbn [table afterExists bump_dbCalls log aiCalls skippedOne
                    c_success c_failed c_skipped c_errors List.length].
    rewrite app_nil_r. repeat split; try lia. constructor.
  - intros Hb. do 3 eexists. split; [exact Hb|].
    destruct (Hframe _ _ Hg) as [Ht Hc].
    destruct (enrichment_ok_facts _ _ _ _ _ _ Hg) as [Hlen Hlo]. cbn in Hlo.
    exists [rowOf (createInput article summary emb)].
    cbn [table afterInsert afterInsertAttempt set_table bump_dbCalls log aiCalls
         succeededOne c_success c_failed c_skipped c_errors List.length].
    rewrite Ht. split; [reflexivity|]. split; [lia|]. split.
    + constructor; [|constructor]. unfold persistedRow.
      cbn [rowOf embedding url]. rewrite Hurl, Hemb.
      repeat split; try assumption.
      apply has_url_false_iff. exact Hu.
    + repeat split; lia.
  - intros (entry & b & Hb). do 3 eexists. split; [exact Hb|].
    exists []. cbn [table afterExists bump_dbCalls log aiCalls failedOne
                    c_success c_failed c_skipped c_errors List.length].
    rewrite app_nil_r, length_app. cbn [List.length].
    repeat split; try lia. constructor.
  - intros (entry & b & Hb). do 3 eexists. split; [exact Hb|].
    destruct (Hframe _ _ Hg) as [Ht Hc].
    exists []. cbn [failedOne c_success c_failed c_skipped c_errors List.length].
    rewrite app_nil_r, length_app. cbn [List.length].
    repeat split; try lia; try assumption. constructor.
  - intros (entry & b & Hb). do 3 eexists. split; [exact Hb|].
    destruct (Hframe _ _ Hg) as [Ht Hc].
    exists []. cbn [table afterInsertAttempt bump_dbCalls log aiCalls failedOne
                    c_success c_failed c_skipped c_errors List.length].
    rewrite app_nil_r, length_app. cbn [List.length].
    repeat split; try lia; try assumption. constructor.
Qed.

Lemma forEachArticle_ledger us body
    (Hbody : forall article c w,
        In (na_url article) us ->
        exists c' b w', body article c w = (Ok (c', b), w') /\ ledger us c w c' w') :
  forall articles c w,
    incl (List.map na_url articles) us ->
    exists c' w',
      forEachArticle body articles c w = (Ok c', w') /\ ledger us c w c' w'.
Proof.
  induction articles as [|article rest IH]; intros c w Hincl.
  - exists c, w. split; [reflexivity|apply ledger_refl].
  - cbn [forEachArticle]. unfold bind at 1.
    destruct (Hbody article c w) as (c1 & b & w1 & Hb & Hl1).
    { apply Hincl. left. reflexivity. }
    rewrite Hb. cbn [fst snd]. destruct b.
    + exists c1, w1. split; [reflexivity|exact Hl1].
    + destruct (IH c1 w1) as (c2 & w2 & Hrun & Hl2).
      { intros u Hu. apply Hincl. right. exact Hu. }
      exists c2, w2. split; [exact Hrun|].
      eapply ledger_trans; eassumption.
Qed.

Lemma bodyOf_catchesAsFailure env ep :
  exists createInput,
    catchesAsFailure createInput env (bodyOf env ep)
    /\ (forall a s v, ci_url (createInput a s v) = na_url a)
    /\ (forall a s v, ci_embedding (createInput a s v) = v).
Proof.
  destruct ep as [cat|q|cat|q]; cbn [bodyOf];
    match goal with
    | |- context [V1.processArticle env ?c] => exists (V1.createInput c)
    | |- context [V2.processArticle env ?c] => exists (V2.createInput c)
    end;
    (split; [|split; reflexivity]); intros article c w;
    rewrite ?V1_processArticle_eq, ?V2_processArticle_eq;
    match goal with
    | |- context [tryArticle env ?ci article c w] =>
        destruct (tryArticle env ci article c w) as [[r|e] w']
    end;
    try reflexivity;
    try destruct (includes (errorMsgOf e) "quota exceeded");
    do 2 eexists; reflexivity.
Qed.

(** An entry point is its fetch followed by its loop. *)
Lemma runEntry_eq env ep max (w : World) :
  runEntry env ep max w =
    match fetchedBy env ep max with
    | None => (Throw (fetchFailure ep), log (fetchEvent ep max) w)
    | Some articles =>
        match forEachArticle (bodyOf env ep) articles noCounters
                (log (fetchEvent ep max) w) with
        | (Ok c, w') => (Ok (resultOf c articles), w')
        | (Throw e, w') => (Throw e, w')
        end
    end.
Proof.
  destruct ep as [cat|q|cat|q]; cbn [runEntry fetchedBy fetchEvent fetchFailure bodyOf];
    unfold V1.ingestNews, V1.searchAndIngest, V2.ingestNews, V2.searchAndIngest,
      tryCatch, fetchNews, searchNews; cbn zeta;
    unfold bind at 1; unfold bind at 1; unfold modify at 1.
  - destruct (topHeadlines env _ _) as [articles|]; [|reflexivity].
    unfold ret at 1; unfold bind at 1.
    destruct (forEachArticle _ articles noCounters _) as [[c|e] w1]; reflexivity.
  - destruct (searchResults env _ _) as [articles|]; [|reflexivity].
    unfold ret at 1; unfold bind at 1.
    destruct (forEachArticle _ articles noCounters _) as [[c|e] w1]; reflexivity.
  - destruct (topHeadlines env _ _) as [articles|]; [|reflexivity].
    unfold ret at 1; unfold bind at 1.
    destruct (forEachArticle _ articles noCounters _) as [[c|e] w1]; reflexivity.
  - destruct (searchResults env _ _) as [articles|]; [|reflexivity].
    unfold ret at 1; unfold bind at 1.
    destruct (forEachArticle _ articles noCounters _) as [[c|e] w1]; reflexivity.
Qed.

Lemma runEntry_ledger env ep max (w w' : World) r :
  runEntry env ep max w = (Ok r, w') ->
  exists articles c,
    fetchedBy env ep max = Some articles
    /\ r = resultOf c articles
    /\ ledger (List.map na_url articles) noCounters w c w'.
Proof.
  rewrite runEntry_eq.
  destruct (fetchedBy env ep max) as [articles|]; [|discriminate].
  destruct (bodyOf_catchesAsFailure env ep) as (ci & Hcatch & Hurl & Hemb).
  destruct (forEachArticle_ledger (List.map na_url articles) (bodyOf env ep)
              (body_ledger ci env _ _ Hcatch Hurl Hemb)
              articles noCounters (log (fetchEvent ep max) w))
    as (c & w1 & Hrun & Hl).
  { intros u Hu. exact Hu. }
  rewrite Hrun. intros H. injection H as <- <-.
  exists articles, c. split; [reflexivity|]. split; [reflexivity|exact Hl].
Qed.

(** X9. What a batch does to the table is one insert per counted
    success: the table after the batch is the table before it followed
    by [success] new rows, and every new row carries an embedding of 768
    numbers and the URL of a fetched candidate that was not in the table
    before.  Rows that were there are neither changed nor removed. *)
Theorem batch_adds_one_row_per_success (env : Env) (ep : EntryPoint) (max : option Z)
    (w w' : World) (r : IngestionResult) :
  runEntry env ep max w = (Ok r, w') ->
  exists articles rows,
    fetchedBy env ep max = Some articles
    /\ total r = Z.of_nat (List.length articles)
    /\ table w' = (table w ++ rows)%list
    /\ Z.of_nat (List.length rows) = success r
    /\ Forall (fun row =>
                 List.length (embedding row) = 768%nat
                 /\ In (url row) (List.map na_url articles)
                 /\ ~ In (url row) (urls w)) rows.
Proof.
  intros Hrun.
  destruct (runEntry_ledger env ep max w w' r Hrun)
    as (articles & c & Hf & -> & rows & Ht & Hn & Hp & _).
  exists articles, rows. cbn in Hn |- *.
  repeat split; try assumption. lia.
Qed.

Lemma batch_adds_one_row_per_success_witness :
  let env := answering 768 [sampleArticle "u1"; sampleArticle "u2"; sampleArticle "u3"] in
  let run := runEntry env (IngestNewsV1 None) None (worldWith [storedRow "u2"]) in
  exists rows,
    table (snd run) = (storedRow "u2" :: rows)%list
    /\ List.map url rows = ["u1"; "u3"].
Proof.
  cbn zeta.
  destruct (batch_adds_one_row_per_success
              (answering 768 [sampleArticle "u1"; sampleArticle "u2"; sampleArticle "u3"])
              (IngestNewsV1 None) None (worldWith [storedRow "u2"])
              (snd (runEntry
                      (answering 768
                         [sampleArticle "u1"; sampleArticle "u2"; sampleArticle "u3"])
                      (IngestNewsV1 None) None (worldWith [storedRow "u2"])))
              {| success := 2; failed := 0; skipped := 1; total := 3; errors := [] |})
    as (articles & rows & _ & _ & Ht & _).
  - vm_compute. reflexivity.
  - exists rows. split; [exact Ht|].
    assert (Hu : List.map url (storedRow "u2" :: rows) = ["u2"; "u1"; "u3"]).
    { change (storedRow "u2" :: rows) with ([storedRow "u2"] ++ rows)%list.
      change [storedRow "u2"] with (table (worldWith [storedRow "u2"])).
      rewrite <- Ht. vm_compute. reflexivity. }
    cbn in Hu. injection Hu as Hu. exact Hu.
Defined.

(** X10. The error list of a batch result has exactly one entry per
    failed candidate, and none of the three counters is negative. *)
Theorem batch_lists_one_error_per_failure (env : Env) (ep : EntryPoint) (max : option Z)
    (w w' : World) (r : IngestionResult) :
  runEntry env ep max w = (Ok r, w') ->
  Z.of_nat (List.length (errors r)) = failed r
  /\ 0 <= success r /\ 0 <= failed r /\ 0 <= skipped r.
Proof.
  intros Hrun.
  destruct (runEntry_ledger env ep max w w' r Hrun)
    as (articles & c & Hf & -> & rows & Ht & Hn & Hp & He & Hfl & Hsk & _).
  cbn in *. repeat split; lia.
Qed.

Lemma batch_lists_one_error_per_failure_witness :
  let env := answering 700 [sampleArticle "u1"; sampleArticle "u2"] in
  fst (runEntry env (SearchAndIngestV2 "rocq") None freshWorld)
  = Ok {| success := 0; failed := 2; skipped := 0; total := 2;
          errors := ["u1: Embedding generation failed: Invalid embedding dimensions: 700";
                     "u2: Embedding generation failed: Invalid embedding dimensions: 700"] |}
  /\ Z.of_nat 2 = 2.
Proof.
  cbn zeta. split; [vm_compute; reflexivity|].
  apply (batch_lists_one_error_per_failure
           (answering 700 [sampleArticle "u1"; sampleArticle "u2"])
           (SearchAndIngestV2 "rocq") None freshWorld
           (snd (runEntry (answering 700 [sampleArticle "u1"; sampleArticle "u2"])
                   (SearchAndIngestV2 "rocq") None freshWorld))
           {| success := 0; failed := 2; skipped := 0; total := 2;
              errors := ["u1: Embedding generation failed: Invalid embedding dimensions: 700";
                         "u2: Embedding generation failed: Invalid embedding dimensions: 700"] |}).
  vm_compute. reflexivity.
Defined.

(** X11. A batch spends between two and six upstream calls on every
    candidate it persists and at most six on every candidate it counts
    as failed; skipped candidates cost none.  A batch that only skips
    does not call the Gemini client at all. *)
Theorem batch_upstream_calls_are_bounded (env : Env) (ep : EntryPoint) (max : option Z)
    (w w' : World) (r : IngestionResult) :
  runEntry env ep max w = (Ok r, w') ->
  Z.of_nat (aiCalls w) + 2 * success r <= Z.of_nat (aiCalls w')
  /\ Z.of_nat (aiCalls w') <= Z.of_nat (aiCalls w) + 6 * (success r + failed r)
  /\ (success r = 0 -> failed r = 0 -> aiCalls w' = aiCalls w).
Proof.
  intros Hrun.
  destruct (runEntry_ledger env ep max w w' r Hrun)
    as (articles & c & Hf & -> & rows & Ht & Hn & Hp & He & Hfl & Hsk & Hlo & Hup).
  cbn [success failed resultOf noCounters c_success c_failed] in *.
  split; [lia|]. split; [lia|]. intros H1 H2. lia.
Qed.

Lemma batch_upstream_calls_are_bounded_witness :
  let env := answering 768 [sampleArticle "u1"; sampleArticle "u2"; sampleArticle "u3"] in
  let run := runEntry env (IngestNewsV1 None) None (worldWith [storedRow "u2"]) in
  aiCalls (snd run) = 4%nat
  /\ Z.of_nat 0 + 2 * 2 <= Z.of_nat (aiCalls (snd run)) <= Z.of_nat 0 + 6 * (2 + 0).
Proof.
  cbn zeta. split; [vm_compute; reflexivity|].
  destruct (batch_upstream_calls_are_bounded
              (answering 768 [sampleArticle "u1"; sampleArticle "u2"; sampleArticle "u3"])
              (IngestNewsV1 None) None (worldWith [storedRow "u2"])
              (snd (runEntry
                      (answering 768
                         [sampleArticle "u1"; sampleArticle "u2"; sampleArticle "u3"])
                      (IngestNewsV1 None) None (worldWith [storedRow "u2"])))
              {| success := 2; failed := 0; skipped := 1; total := 3; errors := [] |})
    as (Hlo & Hup & _).
  - vm_compute. reflexivity.
  - split; [exact Hlo|exact Hup].
Defined.

(** X12. A batch fails as a whole exactly when its fetch fails: then it
    throws "News fetch failed" (or "News search failed") and has done
    nothing but the request.  When the fetch succeeds a result is
    returned, with [total] the number of fetched articles, whatever
    happens to the single candidates. *)
Theorem batch_fails_only_with_its_fetch (env : Env) (ep : EntryPoint) (max : option Z)
    (w : World) :
  match fetchedBy env ep max with
  | None =>
      runEntry env ep max w
      = (Throw (fetchFailure ep),
         mkWorld (clock w) (budget w) (table w) (aiCalls w) (dbCalls w)
           (trace w ++ [fetchEvent ep max]))
  | Some articles =>
      exists r w',
        runEntry env ep max w = (Ok r, w')
        /\ total r = Z.of_nat (List.length articles)
  end.
Proof.
  rewrite runEntry_eq.
  destruct (fetchedBy env ep max) as [articles|]; [|reflexivity].
  destruct (bodyOf_catchesAsFailure env ep) as (ci & Hcatch & Hurl & Hemb).
  destruct (forEachArticle_ledger (List.map na_url articles) (bodyOf env ep)
              (body_ledger ci env _ _ Hcatch Hurl Hemb)
              articles noCounters (log (fetchEvent ep max) w))
    as (c & w1 & Hrun & _).
  { intros u Hu. exact Hu. }
  rewrite Hrun. do 2 eexists. split; reflexivity.
Qed.

(** ** The pipeline: the rate budget across a batch *)

Section Paced.

Variable R : World -> World -> Prop.
Hypothesis R_refl : forall w, R w w.
Hypothesis R_trans : forall w1 w2 w3, R w1 w2 -> R w2 w3 -> R w1 w3.
Hypothesis R_acquire : respects R waitForRateLimit.
Hypothesis R_sleep : forall ms w, R w (slept ms w).
Hypothesis R_rest : forall w w', budget w' = budget w -> clock w' = clock w -> R w w'.

Lemma paced_sleep (ms : Z) : respects R (sleep ms).
Proof. intros w. apply R_sleep. Qed.

Lemma paced_retryLoop {T} (fn : M T) op mr d :
  respects R fn ->
  forall n attempt le, respects R (retryLoop fn op mr d n attempt le).
Proof.
  intros Hfn. induction n as [|n IH]; intros attempt le.
  - cbn [retryLoop]. apply (respects_throw R R_refl).
  - rewrite retryLoop_unfold.
    apply (respects_tryCatch R R_trans).
    + apply (respects_bind R R_trans); [exact R_acquire|intros _; exact Hfn].
    + intros e.
      destruct (status_is e 404); [apply (respects_throw R R_refl)|].
      destruct (status_is e 429); destruct (attempt <? mr - 1);
        try apply (respects_throw R R_refl);
        (apply (respects_bind R R_trans); [apply paced_sleep|intros _; apply IH]).
Qed.

Lemma paced_enrichment env text : respects R (generateSummaryAndEmbedding env text).
Proof.
  assert (Hthrow : forall A (e : JsError), respects R (@throw A e))
    by (intros A e; apply (respects_throw R R_refl)).
  unfold generateSummaryAndEmbedding.
  apply (respects_tryCatch R R_trans); [|intros e; apply Hthrow].
  apply (respects_bind R R_trans).
  { unfold generateSummary. cbn zeta.
    apply (respects_tryCatch R R_trans); [|intros e; apply Hthrow].
    unfold retryWithBackoff. apply paced_retryLoop.
    apply (respects_bind R R_trans);
      [|intros a; apply (respects_ret R R_refl)].
    intros w. apply R_rest; reflexivity. }
  intros s. apply (respects_bind R R_trans); [apply paced_sleep|intros _].
  apply (respects_bind R R_trans); [|intros v; apply (respects_ret R R_refl)].
  unfold generateEmbedding. cbn zeta.
  apply (respects_tryCatch R R_trans); [|intros e; apply Hthrow].
  apply (respects_bind R R_trans).
  { unfold retryWithBackoff. apply paced_retryLoop.
    intros w. apply R_rest; reflexivity. }
  intros [v|]; [|apply Hthrow].
  destruct (negb (Nat.eqb (List.length v) 768));
    [apply Hthrow|apply (respects_ret R R_refl)].
Qed.

Lemma paced_tryArticle env createInput article c :
  respects R (tryArticle env createInput article c).
Proof.
  intros w.
  assert (He : R w (afterExists (na_url article) w)) by (apply R_rest; reflexivity).
  assert (Hg : forall r w2,
             generateSummaryAndEmbedding env (contentForAI article)
               (afterExists (na_url article) w) = (r, w2) -> R w w2).
  { intros r w2 Hrun. eapply R_trans; [exact He|].
    pose proof (paced_enrichment env (contentForAI article)
                  (afterExists (na_url article) w)) as H.
    rewrite Hrun in H. exact H. }
  destruct (tryArticle_outcome env createInput article c w); cbn [snd];
    try exact He; try (eapply Hg; eassumption);
    (eapply R_trans; [eapply Hg; eassumption|apply R_rest; reflexivity]).
Qed.

Lemma paced_runEntry env ep max : respects R (runEntry env ep max).
Proof.
  intros w. rewrite runEntry_eq.
  assert (Hf : R w (log (fetchEvent ep max) w)) by (apply R_rest; reflexivity).
  destruct (fetchedBy env ep max) as [articles|]; [|exact Hf].
  assert (Hloop : respects R (forEachArticle (bodyOf env ep) articles noCounters)).
  { apply (respects_forEachArticle R R_refl R_trans).
    intros article c w0.
    destruct ep as [cat|q|cat|q]; cbn [bodyOf];
      rewrite ?V1_processArticle_world, ?V2_processArticle_world;
      apply paced_tryArticle. }
  specialize (Hloop (log (fetchEvent ep max) w)).
  destruct (forEachArticle (bodyOf env ep) articles noCounters _) as [[c|e] w1];
    cbn [snd] in Hloop |- *; eapply R_trans; eassumption.
Qed.

End Paced.

Lemma keepsBudgetOk_runEntry env ep max :
  respects keepsBudgetOk (runEntry env ep max).
Proof.
  apply paced_runEntry; unfold keepsBudgetOk.
  - intros w H. exact H.
  - intros w1 w2 w3 H12 H23 H. apply H23, H12, H.
  - intros w. apply waitForRateLimit_budgetOk.
  - intros ms w. apply sleep_budgetOk.
  - intros w w' Hb Hc. unfold budgetOk. rewrite Hb, Hc. intros H. exact H.
Qed.

(** A batch that has the service to itself, no call of another request
    being in flight while it runs, keeps the rate budget regular and
    never turns the clock or the time of the last call back. *)
Lemma lone_batch_keeps_budget_ok (env : Env) (ep : EntryPoint) (max : option Z) (w : World) :
  budgetOk w ->
  let w' := snd (runEntry env ep max w) in
  budgetOk w'
  /\ 0 <= requestCount (budget w') <= 10
  /\ 0 <= dailyRequestCount (budget w') <= 1000
  /\ clock w <= clock w'
  /\ lastRequestTime (budget w) <= lastRequestTime (budget w').
Proof.
  intros Hok. cbn zeta.
  pose proof (keepsBudgetOk_runEntry env ep max w Hok) as Hok'.
  split; [exact Hok'|].
  destruct Hok' as (Hm & Hd & _). unfold MAX_REQUESTS_PER_MINUTE in Hm.
  split; [exact Hm|]. split; [exact Hd|].
  assert (Hmono : respects (fun a b => clock a <= clock b
                                       /\ lastRequestTime (budget a)
                                          <= lastRequestTime (budget b))
                    (runEntry env ep max)).
  { apply paced_runEntry.
    - intros a. lia.
    - intros a b c. lia.
    - intros a. revert a. unfold respects.
      intros a. run_acquire. split_tests; split; lia.
    - intros ms a. unfold slept. quiet_cbn. lia.
    - intros a b Hb Hc. rewrite Hb, Hc. lia. }
  exact (Hmono w).
Qed.

(** X13. The caps are not kept across calls that overlap.  Calls that
    enter, at whatever times, while the minimum interval since the last
    call is running all pass the tests of the day cap and of the minute
    cap, sleep until the same instant and then reserve a slot each: all
    [n] return, the minute counter and the day counter are [n] higher
    than before, and the [n] slots are taken at the same millisecond.
    With more calls than the minute counter or the day counter had room
    for, the counter ends above its cap. *)
Theorem overlapping_acquires_exceed_the_caps (gaps : list Z) (w : World) :
  let n := Z.of_nat (List.length gaps) in
  budgetOk w ->
  Forall (fun gap => 0 <= gap) gaps ->
  requestCount (budget w) < MAX_REQUESTS_PER_MINUTE ->
  dailyRequestCount (budget w) < 1000 ->
  clock w + sumZ gaps <= requestResetTime (budget w) ->
  clock w + sumZ gaps <= dailyResetTime (budget w) ->
  clock w + sumZ gaps < lastRequestTime (budget w) + MIN_REQUEST_INTERVAL ->
  exists p' : Pool,
    steps (overlapping gaps w) (idle w) = Some p'
    /\ sleeping p' = []
    /\ finished p' = repeat (Ok tt) (List.length gaps)
    /\ requestCount (budget (shared p')) = requestCount (budget w) + n
    /\ dailyRequestCount (budget (shared p')) = dailyRequestCount (budget w) + n
    /\ clock (shared p') = lastRequestTime (budget w) + MIN_REQUEST_INTERVAL
    /\ (0 < n -> lastRequestTime (budget (shared p')) = clock (shared p'))
    /\ (MAX_REQUESTS_PER_MINUTE - requestCount (budget w) < n -> ~ budgetOk (shared p'))
    /\ (1000 - dailyRequestCount (budget w) < n -> ~ budgetOk (shared p')).
Proof.
  cbn zeta. intros Hok Hgaps Hm Hd Hrt Hdt Hl.
  unfold overlapping, idle.
  destruct (enters_spread
              (Passes (lastRequestTime (budget w) + MIN_REQUEST_INTERVAL
                       - (clock w + sumZ gaps))
               :: repeat (Wakes 0) (List.length gaps))
              gaps w [] [] Hgaps Hm Hd Hrt Hdt Hl)
    as (w1 & delays & Hrun & Hclock1 & Hbudget1 & _).
  rewrite Hrun. cbn [steps step shared sleeping finished app].
  replace (0 <=? lastRequestTime (budget w) + MIN_REQUEST_INTERVAL - (clock w + sumZ gaps))
    with true by (symmetry; apply Z.leb_le; lia).
  match goal with
  | |- context [steps _ (mkPool ?w2 _ ?fin2)] =>
      destruct (wakes_reserve (lastRequestTime (budget w) + MIN_REQUEST_INTERVAL)
                  (List.length gaps) w2 fin2)
        as (w' & Hwakes & Hrc & Hdc & Hclock & _ & Hlast); [pool_cbn; lia|]
  end.
  pool_cbn_in Hrc. pool_cbn_in Hdc. pool_cbn_in Hclock. pool_cbn_in Hlast.
  rewrite Hbudget1 in Hrc, Hdc. rewrite Hclock1 in Hclock, Hlast.
  exists (mkPool w' [] (repeat (Ok tt) (List.length gaps))).
  split; [exact Hwakes|]. pool_cbn.
  split; [reflexivity|]. split; [reflexivity|].
  split; [exact Hrc|]. split; [exact Hdc|].
  split; [lia|].
  split; [intros Hn; rewrite Hclock; apply Hlast; lia|].
  split.
  - intros Hover (Hcap & _). rewrite Hrc in Hcap. lia.
  - intros Hover (_ & Hcap & _). rewrite Hdc in Hcap. lia.
Qed.

Lemma overlapping_acquires_exceed_the_caps_witness :
  let w := mkWorld 1000 (mkRateBudget 9 60000 1000 9 86400000) [] 0 0 [] in
  exists p' : Pool,
    steps (overlapping [0; 1500; 2500] w) (idle w) = Some p'
    /\ finished p' = [Ok tt; Ok tt; Ok tt]
    /\ requestCount (budget (shared p')) = 12
    /\ clock (shared p') = 7000
    /\ ~ budgetOk (shared p').
Proof.
  cbn zeta.
  destruct (overlapping_acquires_exceed_the_caps [0; 1500; 2500]
              (mkWorld 1000 (mkRateBudget 9 60000 1000 9 86400000) [] 0 0 []))
    as (p' & Hrun & _ & Hfin & Hcount & _ & Hclock & _ & Hover & _).
  - unfold budgetOk, MAX_REQUESTS_PER_MINUTE. cbn. lia.
  - repeat constructor; lia.
  - unfold MAX_REQUESTS_PER_MINUTE. cbn. lia.
  - cbn. lia.
  - cbn. lia.
  - cbn. lia.
  - unfold MIN_REQUEST_INTERVAL. cbn. lia.
  - exists p'. split; [exact Hrun|]. split; [exact Hfin|].
    split; [exact Hcount|]. split; [exact Hclock|].
    apply Hover. unfold MAX_REQUESTS_PER_MINUTE. cbn. lia.
Defined.

(** ** The store: insert and lookup, counting *)

(** X14. What [create] has inserted, [existsByUrl] finds: after a
    [create] that returned, the table is the old table followed by the
    new row, a lookup of the article's URL answers [true], and the
    lookup of any other URL answers what it answered before. *)
Theorem created_article_is_found (env : Env) (article : CreateInput)
    (w w' : World) (r : Row) :
  create env article w = (Ok r, w') ->
  queryFault env (dbCalls w') = None ->
  r = rowOf article
  /\ table w' = (table w ++ [r])%list
  /\ fst (existsByUrl env (ci_url article) w') = Ok true
  /\ (forall u, u <> ci_url article ->
        fst (existsByUrl env u w') = Ok (has_url u (table w))).
Proof.
  rewrite create_eq.
  destruct (queryFault env (dbCalls w)) as [e|]; [discriminate|].
  intros H Hq. injection H as <- <-.
  split; [reflexivity|]. split; [reflexivity|].
  assert (Hfind : forall u,
             has_url u (table (afterInsert (rowOf article) w))
             = has_url u (table w) || String.eqb (ci_url article) u).
  { intros u. unfold has_url. cbn [table afterInsert afterInsertAttempt set_table
                                     bump_dbCalls log].
    rewrite existsb_app. cbn. rewrite orb_false_r. reflexivity. }
  split.
  - rewrite existsByUrl_eq, Hq. cbn [fst]. rewrite Hfind, String.eqb_refl, orb_true_r.
    reflexivity.
  - intros u Hne. rewrite existsByUrl_eq, Hq. cbn [fst]. rewrite Hfind.
    destruct (String.eqb_spec (ci_url article) u) as [Heq|_];
      [exfalso; apply Hne; symmetry; exact Heq|].
    rewrite orb_false_r. reflexivity.
Qed.

Lemma created_article_is_found_witness :
  let article := V1.createInput None (sampleArticle "u1") "A summary." (vector 768) in
  let w' := snd (create (answering 768 []) article freshWorld) in
  table w' = [rowOf article]
  /\ fst (existsByUrl (answering 768 []) "u1" w') = Ok true.
Proof.
  cbn zeta.
  destruct (created_article_is_found (answering 768 [])
              (V1.createInput None (sampleArticle "u1") "A summary." (vector 768))
              freshWorld
              (snd (create (answering 768 [])
                      (V1.createInput None (sampleArticle "u1") "A summary." (vector 768))
                      freshWorld))
              (rowOf (V1.createInput None (sampleArticle "u1") "A summary." (vector 768))))
    as (_ & Ht & Hfound & _).
  - reflexivity.
  - reflexivity.
  - split; [exact Ht|exact Hfound].
Defined.

Lemma valueOf_ge (d : Decimal.uint) : forall acc, 0 <= acc -> acc <= valueOf d acc.
Proof.
  induction d; intros acc Hacc; cbn [valueOf]; try lia;
    match goal with
    | |- _ <= valueOf d ?a => specialize (IHd a); lia
    end.
Qed.

Lemma valueOf_of_uint_acc (d : Decimal.uint) :
  forall acc : nat, valueOf d (Z.of_nat acc) = Z.of_nat (Nat.of_uint_acc d acc).
Proof.
  induction d; intros acc; cbn [valueOf Nat.of_uint_acc]; try reflexivity;
    rewrite <- IHd; f_equal; rewrite Nat.tail_mul_spec; lia.
Qed.

Lemma valueOf_to_uint (n : nat) : valueOf (Nat.to_uint n) 0 = Z.of_nat n.
Proof.
  change 0 with (Z.of_nat 0). rewrite valueOf_of_uint_acc.
  change (Nat.of_uint_acc (Nat.to_uint n) 0) with (Nat.of_uint (Nat.to_uint n)).
  rewrite Unsigned.of_to. reflexivity.
Qed.

Lemma parseDigits_keeps_some radix s a :
  exists r, parseDigits radix s (Some a) = Some r.
Proof.
  revert a. induction s as [|c t IH]; intros a; cbn [parseDigits].
  - exists a. reflexivity.
  - destruct (digitValue c) as [v|]; [|exists a; reflexivity].
    destruct (v <? radix); [apply IH|exists a; reflexivity].
Qed.

Ltac read_digit :=
  match goal with
  | |- context [digitValue ?c] =>
      let v := eval vm_compute in (digitValue c) in
      change (digitValue c) with v
  end;
  cbv iota beta;
  match goal with
  | |- context [?a <? ?b] =>
      let t := eval vm_compute in (a <? b) in
      change (a <? b) with t
  end;
  cbv iota beta.

(** Reading a decimal numeral with radix 10 gives its value. *)
Lemma parseDigits_10 (d : Decimal.uint) :
  forall acc, parseDigits 10 (NilEmpty.string_of_uint d) (Some acc)
              = Some (valueOf d acc).
Proof.
  induction d; intros acc; cbn [NilEmpty.string_of_uint parseDigits valueOf];
    try reflexivity;
    read_digit; rewrite IHd; f_equal; f_equal; lia.
Qed.

(** Reading it with radix 5 gives less, unless the numeral is a single
    digit below 5. *)
Lemma parseDigits_5 (d : Decimal.uint) :
  forall a5 a10 r,
    0 <= a5 <= a10 ->
    (a5 = a10 -> a10 <= 4) ->
    parseDigits 5 (NilEmpty.string_of_uint d) (Some a5) = Some r ->
    r <= valueOf d a10 /\ (r = valueOf d a10 -> valueOf d a10 <= 4).
Proof.
  induction d; intros a5 a10 r Hle Heq;
    cbn [NilEmpty.string_of_uint parseDigits valueOf];
    try (intros H; injection H as <-; split; [lia|intros E; apply Heq; lia]);
    read_digit;
    try (intros H; (eapply IHd; [ | |exact H]); lia);
    intros H; injection H as <-;
    match goal with
    | |- context [valueOf d ?a] => pose proof (valueOf_ge d a); split; intros; lia
    end.
Qed.

Lemma parseInt_numeral (radix : Z) (d : Decimal.uint) :
  radix = 5 \/ radix = 10 ->
  d <> Decimal.Nil ->
  parseInt (NilEmpty.string_of_uint d) radix
  = parseDigits radix (NilEmpty.string_of_uint d) None.
Proof.
  intros [-> | ->] Hd; (destruct d; [congruence|..]);
    cbn [NilEmpty.string_of_uint]; unfold parseInt; cbn [trimStart];
    match goal with
    | |- context [is_space ?c] =>
        let v := eval vm_compute in (is_space c) in change (is_space c) with v
    end; cbv iota beta zeta;
    repeat match goal with
           | |- context [Z.eqb ?a ?b] =>
               let v := eval vm_compute in (Z.eqb a b) in change (Z.eqb a b) with v
           | |- context [Z.ltb ?a ?b] =>
               let v := eval vm_compute in (Z.ltb a b) in change (Z.ltb a b) with v
           | |- context [Z.gtb ?a ?b] =>
               let v := eval vm_compute in (Z.gtb a b) in change (Z.gtb a b) with v
           end;
    cbn [negb andb orb]; cbv iota beta zeta;
    try (destruct (NilEmpty.string_of_uint d) as [|x t]; cbv iota beta zeta);
    match goal with
    | |- match ?p with Some _ => _ | None => _ end = _ =>
        destruct p as [[|v|v]|]; reflexivity
    end.
Qed.

Lemma parseInt_string_of_nat (radix : Z) (n : nat) :
  radix = 5 \/ radix = 10 ->
  parseInt (string_of_nat n) radix
  = match Nat.to_uint n with
    | Decimal.Nil => Some 0
    | d => parseDigits radix (NilEmpty.string_of_uint d) None
    end.
Proof.
  intros Hr. unfold string_of_nat, NilZero.string_of_uint.
  destruct (Nat.to_uint n) eqn:E;
    [destruct Hr as [-> | ->]; reflexivity|..];
    apply parseInt_numeral; try exact Hr; discriminate.
Qed.

Lemma parseDigits_first_10 (d : Decimal.uint) :
  d <> Decimal.Nil ->
  parseDigits 10 (NilEmpty.string_of_uint d) None = Some (valueOf d 0).
Proof.
  intros Hd. destruct d; [congruence|..];
    cbn [NilEmpty.string_of_uint parseDigits valueOf];
    read_digit; rewrite parseDigits_10; reflexivity.
Qed.

Lemma parseDigits_first_5 (d : Decimal.uint) (r : Z) :
  parseDigits 5 (NilEmpty.string_of_uint d) None = Some r ->
  r <= valueOf d 0 /\ (r = valueOf d 0 -> valueOf d 0 <= 4).
Proof.
  destruct d; cbn [NilEmpty.string_of_uint parseDigits valueOf];
    try discriminate;
    read_digit; try discriminate;
    intros H; (eapply parseDigits_5; [ | |exact H]); lia.
Qed.

Lemma digitValue_nonneg (c : ascii) (v : Z) : digitValue c = Some v -> 0 <= v.
Proof.
  unfold digitValue. cbv zeta.
  repeat match goal with
         | |- context [?a <=? ?b] => destruct (Z.leb_spec a b); cbn [andb]
         end;
    intros Hv; try discriminate Hv; injection Hv as <-; lia.
Qed.

Lemma parseDigits_nonneg (radix : Z) (s : string) :
  0 <= radix ->
  forall acc r,
    (forall a, acc = Some a -> 0 <= a) ->
    parseDigits radix s acc = Some r -> 0 <= r.
Proof.
  intros Hr. induction s as [|c t IH]; intros acc r Hacc; cbn [parseDigits].
  - intros H. apply Hacc. exact H.
  - destruct (digitValue c) as [v|] eqn:Hv; [|intros H; apply Hacc; exact H].
    apply digitValue_nonneg in Hv.
    destruct (v <? radix); [|intros H; apply Hacc; exact H].
    apply IH. intros a Ha. injection Ha as <-.
    destruct acc as [a0|]; [specialize (Hacc a0 eq_refl); nia|lia].
Qed.

(** X15. [count] of [src/db/repositories/articles.repository.ts] reads
    the count of the rows with radix 5, so that it returns the number of
    rows only while there are fewer than five: with five rows or more it
    returns [NaN] or a smaller number (7 rows give [NaN], 12 rows give
    7). *)
Theorem count_is_right_below_five_rows_only (env : Env) (w : World) :
  queryFault env (dbCalls w) = None ->
  let n := List.length (table w) in
  fst (count env w) = Ok (parseInt (string_of_nat n) 5)
  /\ table (snd (count env w)) = table w
  /\ (fst (count env w) = Ok (Some (Z.of_nat n)) <-> (n < 5)%nat)
  /\ (forall r, fst (count env w) = Ok (Some r) -> 0 <= r <= Z.of_nat n).
Proof.
  intros Hq. cbn zeta.
  assert (Hc : count env w
               = (Ok (parseInt (string_of_nat (List.length (table w))) 5),
                  bump_dbCalls w)).
  { unfold count, tryCatch, bind, query, get, ret. rewrite Hq. reflexivity. }
  rewrite Hc. cbn [fst snd]. split; [reflexivity|]. split; [reflexivity|].
  generalize (List.length (table w)). intros n.
  assert (Hparse : forall r, parseInt (string_of_nat n) 5 = Some r ->
                             0 <= r <= Z.of_nat n /\ (r = Z.of_nat n -> (n < 5)%nat)).
  { intros r. rewrite parseInt_string_of_nat by (left; reflexivity).
    pose proof (valueOf_to_uint n) as Hv.
    destruct (Nat.to_uint n) eqn:E;
      [intros H; injection H as <-; cbn in Hv; lia|..];
      intros H;
      pose proof (parseDigits_first_5 _ _ H) as [Hle Heq];
      assert (H0 : 0 <= r)
        by (eapply (parseDigits_nonneg 5); [lia| |exact H]; discriminate);
      rewrite Hv in Hle, Heq; (split; [lia|]);
      intros Hr; specialize (Heq Hr); lia. }
  split.
  - split.
    + intros H. injection H as H. apply Hparse in H. apply H. reflexivity.
    + intros Hn.
      destruct n as [|[|[|[|[|n]]]]]; try reflexivity. lia.
  - intros r H. injection H as H. apply Hparse in H. apply H.
Qed.

Lemma count_is_right_below_five_rows_only_witness :
  let rows7 := List.map storedRow ["a"; "b"; "c"; "d"; "e"; "f"; "g"] in
  let rows12 := (rows7 ++ List.map storedRow ["h"; "i"; "j"; "k"; "l"])%list in
  fst (count (answering 768 []) (worldWith rows7)) = Ok None
  /\ fst (count (answering 768 []) (worldWith rows12)) = Ok (Some 7)
  /\ ~ fst (count (answering 768 []) (worldWith rows7)) = Ok (Some (Z.of_nat 7)).
Proof.
  cbn zeta. split; [vm_compute; reflexivity|]. split; [vm_compute; reflexivity|].
  destruct (count_is_right_below_five_rows_only (answering 768 [])
              (worldWith (List.map storedRow ["a"; "b"; "c"; "d"; "e"; "f"; "g"])))
    as (_ & _ & Hiff & _).
  - reflexivity.
  - intros H. apply Hiff in H. cbn in H. lia.
Defined.

(** X16. The other version of [count] in the repository reads the same
    string with radix 10 and returns the number of rows, whatever it
    is. *)
Theorem count_radix10_is_the_number_of_rows (env : Env) (w : World) :
  queryFault env (dbCalls w) = None ->
  count_radix10 env w = (Ok (Some (Z.of_nat (List.length (table w)))), bump_dbCalls w).
Proof.
  intros Hq. unfold count_radix10, tryCatch, bind, query, get, ret. rewrite Hq.
  cbn [table bump_dbCalls]. f_equal. f_equal.
  rewrite parseInt_string_of_nat by (right; reflexivity).
  pose proof (valueOf_to_uint (List.length (table w))) as Hv.
  destruct (Nat.to_uint (List.length (table w))) eqn:E;
    [cbn in Hv; rewrite <- Hv; reflexivity|..];
    rewrite parseDigits_first_10 by discriminate; rewrite Hv; reflexivity.
Qed.

Lemma count_radix10_is_the_number_of_rows_witness :
  fst (count_radix10 (answering 768 [])
         (worldWith (List.map storedRow ["a"; "b"; "c"; "d"; "e"; "f"; "g"])))
  = Ok (Some 7).
Proof.
  rewrite (count_radix10_is_the_number_of_rows (answering 768 [])
             (worldWith (List.map storedRow ["a"; "b"; "c"; "d"; "e"; "f"; "g"])));
    reflexivity.
Defined.

(** ** The HTTP layer *)

Lemma runEntry_outcome env ep max (w : World) :
  match fetchedBy env ep max with
  | None =>
      runEntry env ep max w = (Throw (fetchFailure ep), log (fetchEvent ep max) w)
  | Some articles =>
      exists r w',
        runEntry env ep max w = (Ok r, w')
        /\ total r = Z.of_nat (List.length articles)
        /\ success r + failed r + skipped r <= total r
  end.
Proof.
  destruct (fetchedBy env ep max) as [articles|] eqn:Hf.
  - assert (Hacc : exists mayBreak, accounts mayBreak (bodyOf env ep)).
    { destruct ep; cbn [bodyOf];
        first [ exists false; apply V1_processArticle_accounts
              | exists true; apply V2_processArticle_accounts ]. }
    destruct Hacc as [mb Hacc].
    destruct (forEachArticle_accounts mb _ Hacc articles noCounters
                (log (fetchEvent ep max) w)) as (c & w1 & Hrun & Hle & _).
    exists (resultOf c articles), w1.
    rewrite runEntry_eq, Hf, Hrun. split; [reflexivity|]. split; [reflexivity|].
    unfold handled in Hle. cbn in Hle |- *. lia.
  - rewrite runEntry_eq, Hf. reflexivity.
Qed.

(** X17. [POST /ingestion/start] answers 200 with the batch result as
    [data] whenever the fetch succeeded, however many candidates failed,
    and 500 with the message "News fetch failed" when the fetch failed;
    it never answers anything else.  The request's [max] defaults to
    10, so that the defaults of the service are never used. *)
Theorem start_answers_200_unless_fetch_fails (env : Env)
    (version : option string -> EntryPoint) (category : option string)
    (max : option Z) (w : World) :
  version = IngestNewsV1 \/ version = IngestNewsV2 ->
  let cat' := match category with Some c => c | None => "general" end in
  let max' := match max with Some m => m | None => 10 end in
  let respond :=
    catchAsync (Controller.startIngestion
                  (fun c m => runEntry env (version c) m) category max) in
  match fetchedBy env (version (Some cat')) (Some max') with
  | Some articles =>
      exists r w',
        respond w
        = ({| statusCode := 200; body_success := true;
              body_message := "Ingestion completed"; body_data := Some r |}, w')
        /\ total r = Z.of_nat (List.length articles)
        /\ success r + failed r + skipped r <= total r
  | None =>
      respond w
      = ({| statusCode := 500; body_success := false;
            body_message := "News fetch failed"; body_data := None |},
         log (fetchEvent (version (Some cat')) (Some max')) w)
  end.
Proof.
  intros Hv. cbn zeta. unfold catchAsync, Controller.startIngestion.
  pose proof (runEntry_outcome env
                (version (Some (match category with Some c => c | None => "general" end)))
                (Some (match max with Some m => m | None => 10 end)) w) as H.
  destruct (fetchedBy env _ _) as [articles|].
  - destruct H as (r & w' & Hrun & Ht & Hle).
    exists r, w'. rewrite Hrun. repeat split; assumption.
  - rewrite H. destruct Hv as [-> | ->]; reflexivity.
Qed.

Lemma start_answers_200_unless_fetch_fails_witness :
  let env := answering 700 [sampleArticle "u1"; sampleArticle "u2"] in
  exists r w',
    catchAsync (Controller.startIngestion
                  (fun c m => runEntry env (IngestNewsV1 c) m) None None) freshWorld
    = ({| statusCode := 200; body_success := true;
          body_message := "Ingestion completed"; body_data := Some r |}, w')
    /\ total r = 2.
Proof.
  cbn zeta.
  pose proof (start_answers_200_unless_fetch_fails
                (answering 700 [sampleArticle "u1"; sampleArticle "u2"])
                IngestNewsV1 None None freshWorld (or_introl eq_refl)) as H.
  cbn zeta in H. cbn [fetchedBy answering topHeadlines] in H.
  destruct H as (r & w' & Hrun & Ht & _).
  exists r, w'. split; [exact Hrun|exact Ht].
Defined.

(** X18. [POST /ingestion/search] without a query, or with an empty one,
    is answered 400 "Query is required" before anything is fetched,
    looked up or sent to the Gemini client; with a query it answers 200
    with the batch result when the search succeeded and 500 "News
    search failed" when it did not. *)
Theorem search_requires_a_query (env : Env) (version : string -> EntryPoint)
    (query : option string) (max : option Z) (w : World) :
  version = SearchAndIngestV1 \/ version = SearchAndIngestV2 ->
  let max' := match max with Some m => m | None => 10 end in
  let respond :=
    catchAsync (Controller.searchAndIngest
                  (fun q m => runEntry env (version q) m) query max) in
  match query with
  | None | Some "" =>
      respond w
      = ({| statusCode := 400; body_success := false;
            body_message := "Query is required"; body_data := None |}, w)
  | Some q =>
      match fetchedBy env (version q) (Some max') with
      | Some articles =>
          exists r w',
            respond w
            = ({| statusCode := 200; body_success := true;
                  body_message := "Search and ingest completed";
                  body_data := Some r |}, w')
            /\ total r = Z.of_nat (List.length articles)
      | None =>
          respond w
          = ({| statusCode := 500; body_success := false;
                body_message := "News search failed"; body_data := None |},
             log (fetchEvent (version q) (Some max')) w)
      end
  end.
Proof.
  intros Hv. cbn zeta. unfold catchAsync, Controller.searchAndIngest.
  destruct query as [[|c q]|]; try reflexivity.
  pose proof (runEntry_outcome env (version (String c q))
                (Some (match max with Some m => m | None => 10 end)) w) as H.
  destruct (fetchedBy env _ _) as [articles|].
  - destruct H as (r & w' & Hrun & Ht & _).
    exists r, w'. rewrite Hrun. split; [reflexivity|exact Ht].
  - rewrite H. destruct Hv as [-> | ->]; reflexivity.
Qed.

Lemma search_requires_a_query_witness :
  catchAsync (Controller.searchAndIngest
                (fun q m => runEntry (answering 768 [sampleArticle "u1"])
                              (SearchAndIngestV2 q) m) (Some "") (Some 5)) freshWorld
  = ({| statusCode := 400; body_success := false;
        body_message := "Query is required"; body_data := None |}, freshWorld).
Proof.
  apply (search_requires_a_query (answering 768 [sampleArticle "u1"])
           SearchAndIngestV2 (Some "") (Some 5) freshWorld).
  right. reflexivity.
Defined.

(** ** The two versions of the loop, side by side *)

Lemma createInput_same_row cat article summary emb :
  rowOf (V1.createInput cat article summary emb)
  = rowOf (V2.createInput cat article summary emb).
Proof.
  unfold rowOf, V1.createInput, V2.createInput. cbn.
  destruct (na_image article) as [[|c s]|]; reflexivity.
Qed.

Lemma tryArticle_same env cat article c (w : World) :
  tryArticle env (V1.createInput cat) article c w
  = tryArticle env (V2.createInput cat) article c w.
Proof.
  unfold tryArticle, bind.
  destruct (existsByUrl env (na_url article) w) as [[[|]|e] w1]; try reflexivity.
  destruct (generateSummaryAndEmbedding env (contentForAI article) w1)
    as [[[summary emb]|e] w2]; try reflexivity.
  cbn [fst snd]. rewrite !create_eq, createInput_same_row. reflexivity.
Qed.

(** X19. For one candidate in one world the two versions of the loop do
    the same work: they leave the same world (the same row inserted,
    the same calls made) and the same three counters; [image || null]
    in one and [image ?? undefined] in the other store the same row.
    They differ only in the text of the error entry of a failed
    candidate, and in that the second version may leave the loop. *)
Theorem versions_agree_on_a_candidate (env : Env) (cat : option string)
    (article : NewsArticle) (c : Counters) (w : World) :
  exists c1 c2 b w',
    V1.processArticle env cat article c w = (Ok (c1, false), w')
    /\ V2.processArticle env cat article c w = (Ok (c2, b), w')
    /\ c_success c1 = c_success c2
    /\ c_failed c1 = c_failed c2
    /\ c_skipped c1 = c_skipped c2
    /\ (c_failed c1 = c_failed c -> c1 = c2 /\ b = false).
Proof.
  rewrite V1_processArticle_eq, V2_processArticle_eq, tryArticle_same.
  destruct (tryArticle env (V2.createInput cat) article c w) as [[[c' b']|e] w'] eqn:Hrun.
  - pose proof (tryArticle_outcome env (V2.createInput cat) article c w) as Hout.
    rewrite Hrun in Hout.
    assert (Hb : b' = false) by (inversion Hout; reflexivity).
    subst b'. exists c', c', false, w'. repeat split; reflexivity.
  - destruct (includes (errorMsgOf e) "quota exceeded");
      do 4 eexists; (split; [reflexivity|]); (split; [reflexivity|]);
      cbn [c_success c_failed c_skipped failedOne];
      (split; [reflexivity|]); (split; [reflexivity|]); (split; [reflexivity|]);
      intros Hfail; exfalso; lia.
Qed.
